(** * Signaling relay of the live-streaming server

    A shallow embedding of the server part of the sources (server.js): the
    Socket.IO handlers registered in [io.on('connection', ...)] and the
    [POST /api/session] route, together with the properties of the
    session / room life cycle.

    Modelling conventions.
    - A handler runs atomically: its [await]s are resolved inside one step.
      Whether a store call or [fetchSockets] resolves or rejects is an input
      of the step (a boolean carried by the event).
    - A payload is a JS object; it is a finite map from field names to
      values, the values being strings (structured values such as an SDP
      description are taken in serialised form). A missing field reads as
      [None] (JS [undefined]).
    - The channel's rooms are a finite map from room names to sets of socket
      ids. As in Socket.IO, a socket joins the room named by its own id when
      it connects, [io.to(r)] addresses every member of room [r] and
      [socket.to(r)] every member but the sender. *)

From stdpp Require Import base option strings gmap sets.
From Stdlib Require Import Ascii.

Open Scope string_scope.

(** ** JS values *)

Abbreviation Payload := (gmap string string).

(** [!v] is false exactly for the truthy values; for a string-or-undefined
    value the falsy ones are [undefined] and the empty string. *)
Definition truthy (v : option string) : bool :=
  match v with
  | Some s => bool_decide (s ≠ "")
  | None => false
  end.

(** [{ ...payload, from: id }] *)
Definition stamp (payload : Payload) (id : string) : Payload :=
  <["from" := id]> payload.

(** ** The session store *)

Module Session.

(** Modelled from the spec: the Session schema (models/Session.js) is not
    part of the sources at hand. A session record has an identifier, an
    owner-role marker, a shareable URL and an active flag that defaults to
    true. *)
Record t := mk {
  type : string;
  unique_id : string;
  userurl : string;
  active : bool
}.

(** [new Session({ type, unique_id, userurl })] *)
Definition new (ty uid url : string) : t :=
  {| type := ty; unique_id := uid; userurl := url; active := true |}.

Definition deactivate (s : t) : t :=
  {| type := type s; unique_id := unique_id s; userurl := userurl s;
     active := false |}.

(** The collection, keyed by [unique_id]. *)
Abbreviation coll := (gmap string t).

(** [session.save()] *)
Definition save (s : t) (db : coll) : coll := <[unique_id s := s]> db.

(** [Session.findOne({ unique_id })] *)
Definition findOne (db : coll) (uid : string) : option t := db !! uid.

(** [Session.findOne({ unique_id, active: true })] *)
Definition findOneActive (db : coll) (uid : string) : option t :=
  match db !! uid with
  | Some s => if active s then Some s else None
  | None => None
  end.

(** [Session.findOneAndUpdate({ unique_id }, { active: false })] *)
Definition findOneAndUpdate (db : coll) (uid : string) : coll :=
  alter deactivate uid db.

End Session.

(** ** Sockets, rooms and the server state *)

Inductive Role := admin | student.

Global Instance Role_eq_dec : EqDecision Role.
Proof. solve_decision. Defined.

(** The two properties the handlers store on a socket object. Both start
    [undefined]; [unique_id] is reset to [null] by [admin-end-session]
    ([None] stands for either). *)
Record Socket := mkSocket {
  role : option Role;
  unique_id : option string
}.

Record Server := mkServer {
  db : Session.coll;
  sockets : gmap string Socket;
  rooms : gmap string (gset string)
}.

Definition init : Server :=
  {| db := ∅; sockets := ∅; rooms := ∅ |}.

(** The sockets in room [r]; a room that is not in the table is empty. *)
Definition room (rs : gmap string (gset string)) (r : string) : gset string :=
  default ∅ (rs !! r).

Definition members (st : Server) (r : string) : gset string :=
  room (rooms st) r.

(** [io.to(r)] / [io.in(r)] *)
Definition io_to (st : Server) (r : string) : gset string := members st r.

(** [socket.to(r)] for the socket [id] *)
Definition socket_to (st : Server) (id r : string) : gset string :=
  members st r ∖ {[id]}.

(** [socket.join(r)] *)
Definition join (id r : string) (rs : gmap string (gset string))
  : gmap string (gset string) :=
  <[r := {[id]} ∪ room rs r]> rs.

(** Every socket returned by [io.in(r).fetchSockets()] leaves [r], and so
    does the requesting socket. *)
Definition leave_all_of (r : string) (rs : gmap string (gset string))
  : gmap string (gset string) :=
  <[r := ∅]> rs.

(** The channel removes a closing socket from every room. *)
Definition drop (id : string) (rs : gmap string (gset string))
  : gmap string (gset string) :=
  (λ m, m ∖ {[id]}) <$> rs.

(** ** What a handler produces *)

Record Emit := mkEmit {
  event : string;
  message : option Payload;
  dest : gset string
}.

Inductive Reply :=
| AckOk (socketId : option string)      (* callback({ ok: true, ... }) *)
| AckErr (error : string)               (* callback({ ok: false, error }) *)
| Json (unique_id userurl : string)     (* res.json({ unique_id, userurl }) *)
| Status500 (error : string)            (* res.status(500).json({ error }) *)
| NoReply.

Record Output := mkOutput {
  emitted : list Emit;
  reply : Reply
}.

Definition silent (r : Reply) : Output := {| emitted := []; reply := r |}.

(** The error strings of the handlers, under the names the specification
    gives them. *)
Definition MissingSessionId := "Missing session id.".
Definition NotFoundAdmin := "Session not found.".
Definition NotFound := "Session not found or inactive.".
Definition JoinStoreError := "Unable to join session.".
Definition MissingTarget := "Missing target socket id.".
Definition Unbound := "No target specified.".
Definition Unauthorized := "Not authorized.".
Definition StoreError := "Failed to end session.".
Definition CreateStoreError := "Unable to create session, please try again.".

(** ** The handlers *)

Definition with_db (st : Server) (d : Session.coll) : Server :=
  {| db := d; sockets := sockets st; rooms := rooms st |}.

(** [socket.join(uid); socket.role = r; socket.unique_id = uid] *)
Definition bind (st : Server) (id : string) (r : Role) (uid : string) : Server :=
  {| db := db st;
     sockets := <[id := {| role := Some r; unique_id := Some uid |}]> (sockets st);
     rooms := join id uid (rooms st) |}.

(** [app.post('/api/session')]: [uuid] is the value of [randomUUID()],
    [proto] and [host] come from the request. *)
Definition post_session (st : Server) (proto host uuid : string) (save_ok : bool)
  : Server * Output :=
  let userurl := proto +:+ "://" +:+ host +:+ "/session/" +:+ uuid in
  if save_ok
  then (with_db st (Session.save (Session.new "admin" uuid userurl) (db st)),
        silent (Json uuid userurl))
  else (st, silent (Status500 CreateStoreError)).

(** [socket.on('admin-join')] *)
Definition admin_join (st : Server) (id : string) (data : Payload) (find_ok : bool)
  : Server * Output :=
  let unique_id := data !! "unique_id" in
  if negb (truthy unique_id) then (st, silent (AckErr MissingSessionId))
  else
    let uid := default "" unique_id in
    if negb find_ok then (st, silent (AckErr JoinStoreError))
    else match Session.findOne (db st) uid with
         | None => (st, silent (AckErr NotFoundAdmin))
         | Some _ => (bind st id admin uid, silent (AckOk (Some id)))
         end.

(** [socket.on('student-join')] *)
Definition student_join (st : Server) (id : string) (data : Payload) (find_ok : bool)
  : Server * Output :=
  let unique_id := data !! "unique_id" in
  if negb (truthy unique_id) then (st, silent (AckErr MissingSessionId))
  else
    let uid := default "" unique_id in
    if negb find_ok then (st, silent (AckErr JoinStoreError))
    else match Session.findOneActive (db st) uid with
         | None => (st, silent (AckErr NotFound))
         | Some _ =>
             let st' := bind st id student uid in
             (st',
              {| emitted := [ {| event := "student-connected";
                                 message := Some {[ "studentSocketId" := id ]};
                                 dest := socket_to st' id uid |} ];
                 reply := AckOk (Some id) |})
         end.

(** [socket.on('offer')] and [socket.on('answer')] have the same body up to
    the event name [kind]. *)
Definition forward (kind : string) (st : Server) (id : string) (payload : Payload)
  : Server * Output :=
  let to := payload !! "to" in
  if negb (truthy to) then (st, silent (AckErr MissingTarget))
  else (st, {| emitted := [ {| event := kind;
                               message := Some (stamp payload id);
                               dest := io_to st (default "" to) |} ];
               reply := AckOk None |}).

Definition offer := forward "offer".
Definition answer := forward "answer".

(** [socket.on('ice-candidate')] *)
Definition ice_candidate (st : Server) (id : string) (sock : Socket) (payload : Payload)
  : Server * Output :=
  let message := stamp payload id in
  if truthy (payload !! "to") then
    (st, {| emitted := [ {| event := "ice-candidate"; message := Some message;
                            dest := io_to st (default "" (payload !! "to")) |} ];
            reply := AckOk None |})
  else if truthy (unique_id sock) then
    (st, {| emitted := [ {| event := "ice-candidate"; message := Some message;
                            dest := socket_to st id (default "" (unique_id sock)) |} ];
            reply := AckOk None |})
  else (st, silent (AckErr Unbound)).

(** The guard of [admin-end-session]:
    [socket.role !== 'admin' || !socket.unique_id || socket.unique_id !== unique_id] *)
Definition not_authorized (sock : Socket) (uid : option string) : bool :=
  negb (bool_decide (role sock = Some admin))
  || negb (truthy (unique_id sock))
  || negb (bool_decide (unique_id sock = uid)).

(** [socket.on('admin-end-session')] *)
Definition admin_end_session (st : Server) (id : string) (sock : Socket)
    (payload : Payload) (update_ok fetch_ok : bool) : Server * Output :=
  if not_authorized sock (payload !! "unique_id")
  then (st, silent (AckErr Unauthorized))
  else
    let uid := default "" (payload !! "unique_id") in
    if negb update_ok then (st, silent (AckErr StoreError))
    else
      let st1 := with_db st (Session.findOneAndUpdate (db st) uid) in
      let notice := {| event := "session-ended"; message := None;
                       dest := socket_to st1 id uid |} in
      if negb fetch_ok
      then (st1, {| emitted := [notice]; reply := AckErr StoreError |})
      else ({| db := db st1;
               sockets := <[id := {| role := role sock; unique_id := None |}]> (sockets st1);
               rooms := leave_all_of uid (rooms st1) |},
            {| emitted := [notice]; reply := AckOk None |}).

(** [socket.on('disconnect')]; the channel has already removed the socket
    from its rooms when the handler runs. *)
Definition disconnect (st : Server) (id : string) (sock : Socket) (update_ok : bool)
  : Server * Output :=
  let st0 := {| db := db st; sockets := delete id (sockets st);
                rooms := drop id (rooms st) |} in
  let uid := default "" (unique_id sock) in
  let '(st1, out1) :=
    if bool_decide (role sock = Some admin) && truthy (unique_id sock) then
      if update_ok then
        let st1 := with_db st0 (Session.findOneAndUpdate (db st0) uid) in
        (st1, [ {| event := "session-ended"; message := None;
                   dest := socket_to st1 id uid |} ])
      else (st0, [])
    else (st0, []) in
  let out2 :=
    if bool_decide (role sock = Some student) && truthy (unique_id sock) then
      [ {| event := "student-disconnected";
           message := Some {[ "studentSocketId" := id ]};
           dest := socket_to st1 id uid |} ]
    else [] in
  (st1, {| emitted := out1 ++ out2; reply := NoReply |}).

(** [io.on('connection')]: a new socket object, member of its own room. *)
Definition connection (st : Server) (id : string) : Server * Output :=
  ({| db := db st;
      sockets := <[id := {| role := None; unique_id := None |}]> (sockets st);
      rooms := join id id (rooms st) |},
   silent NoReply).

(** ** Events and runs *)

Inductive Event :=
| Connection (id : string)
| PostSession (proto host uuid : string) (save_ok : bool)
| AdminJoin (id : string) (data : Payload) (find_ok : bool)
| StudentJoin (id : string) (data : Payload) (find_ok : bool)
| Offer (id : string) (payload : Payload)
| Answer (id : string) (payload : Payload)
| IceCandidate (id : string) (payload : Payload)
| AdminEndSession (id : string) (payload : Payload) (update_ok fetch_ok : bool)
| Disconnect (id : string) (update_ok : bool).

(** Identifiers are generated, never chosen by a client: the channel gives a
    connecting socket a non-empty id that no live socket has, [randomUUID]
    returns a non-empty id that no stored session has, and the two kinds of
    identifier have different formats. *)
Definition fresh_id (st : Server) (x : string) : bool :=
  bool_decide (x ≠ "") && bool_decide (sockets st !! x = None)
  && bool_decide (db st !! x = None).

(** One event. [None]: the event cannot occur in this state (a message or
    disconnect of a socket that is not connected, an identifier that is not
    fresh). *)
Definition handle (st : Server) (ev : Event) : option (Server * Output) :=
  match ev with
  | Connection id =>
      if fresh_id st id then Some (connection st id) else None
  | PostSession proto host uuid save_ok =>
      if fresh_id st uuid then Some (post_session st proto host uuid save_ok) else None
  | AdminJoin id data find_ok =>
      sock ← sockets st !! id; Some (admin_join st id data find_ok)
  | StudentJoin id data find_ok =>
      sock ← sockets st !! id; Some (student_join st id data find_ok)
  | Offer id payload =>
      sock ← sockets st !! id; Some (offer st id payload)
  | Answer id payload =>
      sock ← sockets st !! id; Some (answer st id payload)
  | IceCandidate id payload =>
      sock ← sockets st !! id; Some (ice_candidate st id sock payload)
  | AdminEndSession id payload update_ok fetch_ok =>
      sock ← sockets st !! id;
      Some (admin_end_session st id sock payload update_ok fetch_ok)
  | Disconnect id update_ok =>
      sock ← sockets st !! id; Some (disconnect st id sock update_ok)
  end.

Fixpoint run (st : Server) (evs : list Event) : option Server :=
  match evs with
  | [] => Some st
  | ev :: evs' =>
      match handle st ev with
      | Some (st', _) => run st' evs'
      | None => None
      end
  end.

Inductive reachable : Server → Prop :=
| reachable_init : reachable init
| reachable_step st ev st' out :
    reachable st → handle st ev = Some (st', out) → reachable st'.

(** ** Notions used by the properties *)

(** The connections bound to session [s] with role [r]. *)
Definition bound_as (st : Server) (r : Role) (s : string) : gset string :=
  dom (filter (λ kv, role kv.2 = Some r ∧ unique_id kv.2 = Some s) (sockets st)).

(** Session [s] is stored and its active flag is false. *)
Definition ended (st : Server) (s : string) : Prop :=
  ∃ d, db st !! s = Some d ∧ Session.active d = false.

(** Session [s] is stored and its active flag is true. *)
Definition live (st : Server) (s : string) : Prop :=
  ∃ d, db st !! s = Some d ∧ Session.active d = true.

(** The event is a join request that names session [s]. *)
Definition joins (s : string) (ev : Event) : bool :=
  match ev with
  | AdminJoin _ data _ | StudentJoin _ data _ =>
      bool_decide (data !! "unique_id" = Some s)
  | _ => false
  end.

(** The event is a join request of connection [c]. *)
Definition join_of (c : string) (ev : Event) : bool :=
  match ev with
  | AdminJoin id _ _ | StudentJoin id _ _ => bool_decide (id = c)
  | _ => false
  end.

(** ** Scenarios *)

(** [{ unique_id: uid }] *)
Definition session_payload (uid : string) : Payload := {[ "unique_id" := uid ]}.

(** A presenter P and a viewer V in session S. *)
Definition classroom : list Event :=
  [ PostSession "http" "example.org" "S" true;
    Connection "P"; AdminJoin "P" (session_payload "S") true;
    Connection "V"; StudentJoin "V" (session_payload "S") true ].

Definition classroom_st : Server := default init (run init classroom).

(** Two sessions, and a viewer V of the first one. *)
Definition two_sessions : list Event :=
  [ PostSession "http" "example.org" "S1" true;
    PostSession "http" "example.org" "S2" true;
    Connection "V"; StudentJoin "V" (session_payload "S1") true ].

Definition two_sessions_st : Server := default init (run init two_sessions).

(** Two connections that both joined session S as presenter. *)
Definition two_presenters : list Event :=
  [ PostSession "http" "example.org" "S" true;
    Connection "P"; AdminJoin "P" (session_payload "S") true;
    Connection "Q"; AdminJoin "Q" (session_payload "S") true ].

Definition two_presenters_st : Server := default init (run init two_presenters).

(** The state and the output of one event (the state is kept when the event
    cannot occur). *)
Definition after (st : Server) (ev : Event) : Server :=
  match handle st ev with Some (st', _) => st' | None => st end.

Definition output (st : Server) (ev : Event) : Output :=
  match handle st ev with Some (_, out) => out | None => silent NoReply end.

(** The classroom once P has ended the session. *)
Definition dismissed_st : Server :=
  after classroom_st (AdminEndSession "P" (session_payload "S") true true).

(** The dismissed classroom once a new presenter Q has joined session S. *)
Definition reopened : list Event :=
  [ Connection "Q"; AdminJoin "Q" (session_payload "S") true ].

Definition reopened_st : Server := default dismissed_st (run dismissed_st reopened).

(** The dismissed classroom after a connection W has come and V has sent a
    candidate. *)
Definition visited_st : Server :=
  default dismissed_st
    (run dismissed_st [ Connection "W"; IceCandidate "V" {[ "candidate" := "udp 1" ]} ]).

(** The classroom with one more connection W that has joined nothing. *)
Definition visitor_st : Server := after classroom_st (Connection "W").

(** The socket is bound as presenter to exactly the session id [sid] of a
    request. *)
Definition presenter_of (sock : Socket) (sid : option string) : Prop :=
  role sock = Some admin ∧ is_Some (unique_id sock) ∧ unique_id sock = sid.

(** The shape of the record that [POST /api/session] stores under id [s]. *)
Definition created_record (s : string) (d : Session.t) : Prop :=
  s ≠ "" ∧ Session.unique_id d = s ∧ Session.type d = "admin" ∧
  ∃ proto host, Session.userurl d = proto +:+ "://" +:+ host +:+ "/session/" +:+ s.

(** * The pages

    The two browser scripts, public/student.js and public/admin.js. A page
    is a record of the script's variables and of the properties of the DOM
    elements and WebRTC objects it reads or writes; a handler maps the page
    to the next page and to the list of messages it sends to the server.
    What the browser decides (whether a WebRTC or media call resolves, what
    a description contains, how the server acknowledges) is an input of the
    handler. As for the server, a handler runs atomically. *)

(** ** What both scripts share *)

(** The acknowledgement object that the server's [callback] receives:
    [{ ok, error, socketId }], each field possibly missing. *)
Record Response := mkResponse {
  ok : option bool;
  error : option string;
  socketId : option string
}.

(** The object passed by [callback({ ok: true, socketId })] or
    [callback({ ok: false, error })]; the other replies are no
    acknowledgements. *)
Definition response_of (r : Reply) : option Response :=
  match r with
  | AckOk sid => Some {| ok := Some true; error := None; socketId := sid |}
  | AckErr e => Some {| ok := Some false; error := Some e; socketId := None |}
  | _ => None
  end.

Inductive Settled :=
| Resolved (response : Response)
| Rejected (message : string).     (* new Error(message) *)

(** [emitWithAck]: how the promise settles once the acknowledgement
    [response] arrives ([None]: the callback is called without argument, and
    the parameter defaults to [{ ok: true }]). *)
Definition emitWithAck (response : option Response) : Settled :=
  let response := default {| ok := Some true; error := None; socketId := None |} response in
  if bool_decide (ok response = Some false)
  then Rejected (if truthy (error response) then default "" (error response)
                 else "Request failed.")
  else Resolved response.

(** A message sent to the server: [socket.emit(event, payload, ...)]. *)
Record Sent := mkSent {
  sent_event : string;
  sent_payload : Payload
}.

(** [s.split(sep)] for a one-character separator. *)
Fixpoint split (sep : Ascii.ascii) (s : string) : list string :=
  match s with
  | EmptyString => [EmptyString]
  | String c s' =>
      if Ascii.eqb c sep then EmptyString :: split sep s'
      else match split sep s' with
           | seg :: segs => String c seg :: segs
           | [] => [String c EmptyString]
           end
  end.

(** [array.pop()]: the last element. *)
Definition pop (segments : list string) : option string := last segments.

(** ** public/student.js *)

Module StudentPage.

(** An element that [setStatus] writes: [textContent] and [dataset.state];
    [className] is determined by the latter. *)
Record StatusEl := mkStatusEl {
  textContent : string;
  state : string
}.

Definition className (el : StatusEl) : string := "status status-" +:+ state el.

(** [pc.connectionState] *)
Inductive ConnectionState :=
| new | connecting | connected | disconnected | failed | closed.

Global Instance ConnectionState_eq_dec : EqDecision ConnectionState.
Proof. solve_decision. Defined.

(** The peer connection, as far as the script drives it. *)
Record PC := mkPC {
  connectionState : ConnectionState;
  remoteDescription : option string;
  localDescription : option string;
  iceCandidates : list string
}.

(** The elements of [ui]. [status], [subtitle] and [loader] may be missing
    from the document (the script tests them); for [loader] the value says
    whether the class [hidden] is set. *)
Record UI := mkUI {
  status : option StatusEl;
  subtitle : option string;
  remoteVideo : option string;       (* srcObject *)
  loader : option bool
}.

Record Page := mkPage {
  uniqueId : string;
  pc : PC;
  adminSocketId : option string;
  ui : UI
}.

(** [window.location.pathname.split('/').pop()] *)
Definition uniqueId_of (pathname : string) : string :=
  default "" (pop (split "/"%char pathname)).

Definition with_ui (p : Page) (u : UI) : Page :=
  {| uniqueId := uniqueId p; pc := pc p; adminSocketId := adminSocketId p; ui := u |}.

Definition with_pc (p : Page) (c : PC) : Page :=
  {| uniqueId := uniqueId p; pc := c; adminSocketId := adminSocketId p; ui := ui p |}.

Definition with_admin (p : Page) (a : option string) : Page :=
  {| uniqueId := uniqueId p; pc := pc p; adminSocketId := a; ui := ui p |}.

(** [setStatus(text, state)] *)
Definition setStatus (text st : string) (p : Page) : Page :=
  match status (ui p) with
  | None => p
  | Some _ =>
      with_ui p {| status := Some {| textContent := text; state := st |};
                   subtitle := subtitle (ui p); remoteVideo := remoteVideo (ui p);
                   loader := loader (ui p) |}
  end.

(** [setSubtitle(text)] *)
Definition setSubtitle (text : string) (p : Page) : Page :=
  match subtitle (ui p) with
  | None => p
  | Some _ =>
      with_ui p {| status := status (ui p); subtitle := Some text;
                   remoteVideo := remoteVideo (ui p); loader := loader (ui p) |}
  end.

(** [toggleLoader(show)]: [classList.toggle('hidden', !show)] *)
Definition toggleLoader (show : bool) (p : Page) : Page :=
  match loader (ui p) with
  | None => p
  | Some _ =>
      with_ui p {| status := status (ui p); subtitle := subtitle (ui p);
                   remoteVideo := remoteVideo (ui p); loader := Some (negb show) |}
  end.

(** The page when the script starts, for the document [u] served at
    [pathname]. *)
Definition load (pathname : string) (u : UI) : Page :=
  {| uniqueId := uniqueId_of pathname;
     pc := {| connectionState := new; remoteDescription := None;
              localDescription := None; iceCandidates := [] |};
     adminSocketId := None;
     ui := u |}.

(** [joinSession()]; [ack] is how [emitWithAck('student-join', ...)] settles. *)
Definition joinSession (ack : Settled) (p : Page) : Page * list Sent :=
  let p1 := toggleLoader true
              (setStatus ("Joining session " +:+ uniqueId p +:+ "…") "active" p) in
  let sent := [ {| sent_event := "student-join";
                   sent_payload := {[ "unique_id" := uniqueId p ]} |} ] in
  match ack with
  | Resolved _ =>
      (setSubtitle "Waiting for the presenter to start streaming." p1, sent)
  | Rejected message =>
      (toggleLoader false
         (setSubtitle "Check the link or ask the presenter to start the session."
            (setStatus (if truthy (Some message) then message
                        else "Unable to join session.") "error" p1)),
       sent)
  end.

(** [pc.ontrack]; [streams] is [event.streams]. *)
Definition ontrack (streams : list string) (p : Page) : Page :=
  match streams with
  | [] => p
  | stream :: _ =>
      let p1 := with_ui p {| status := status (ui p); subtitle := subtitle (ui p);
                             remoteVideo := Some stream; loader := loader (ui p) |} in
      setSubtitle "Enjoy the live session."
        (setStatus "Connected" "success" (toggleLoader false p1))
  end.

(** [pc.onconnectionstatechange], the browser having moved the connection
    to state [s]. *)
Definition onconnectionstatechange (s : ConnectionState) (p : Page) : Page :=
  let p1 := with_pc p {| connectionState := s;
                         remoteDescription := remoteDescription (pc p);
                         localDescription := localDescription (pc p);
                         iceCandidates := iceCandidates (pc p) |} in
  match s with
  | connected => setStatus "Connected" "success" p1
  | disconnected | failed =>
      toggleLoader true (setStatus "Connection lost. Attempting to reconnect…" "warning" p1)
  | closed => setStatus "Session closed." "warning" p1
  | _ => p1
  end.

(** [pc.onicecandidate]; [candidate] is [event.candidate] ([None] for null).
    The acknowledgement is only logged. *)
Definition onicecandidate (candidate : option string) (p : Page) : list Sent :=
  match candidate with
  | None => []
  | Some cand =>
      let payload : Payload := {[ "candidate" := cand ]} in
      let payload :=
        if truthy (adminSocketId p)
        then <["to" := default "" (adminSocketId p)]> payload
        else payload in
      [ {| sent_event := "ice-candidate"; sent_payload := payload |} ]
  end.

(** What happens to the calls inside [socket.on('offer')]. *)
Inductive OfferOutcome :=
| RemoteRejected                            (* setRemoteDescription rejects *)
| AnswerRejected                            (* createAnswer rejects *)
| LocalRejected                             (* setLocalDescription rejects *)
| Answered (description : string) (ack : Settled).
    (* pc.localDescription, and how emitWithAck('answer', ...) settles *)

Definition set_remote (sdp : option string) (p : Page) : Page :=
  with_pc p {| connectionState := connectionState (pc p);
               remoteDescription := sdp;
               localDescription := localDescription (pc p);
               iceCandidates := iceCandidates (pc p) |}.

Definition set_local (description : string) (p : Page) : Page :=
  with_pc p {| connectionState := connectionState (pc p);
               remoteDescription := remoteDescription (pc p);
               localDescription := Some description;
               iceCandidates := iceCandidates (pc p) |}.

(** [socket.on('offer')] for the message [{ from, sdp }]. *)
Definition on_offer (msg : Payload) (outcome : OfferOutcome) (p : Page)
  : Page * list Sent :=
  let p1 := with_admin p (msg !! "from") in
  let failed := setStatus "Failed to establish connection." "error" in
  match outcome with
  | RemoteRejected => (failed p1, [])
  | AnswerRejected | LocalRejected => (failed (set_remote (msg !! "sdp") p1), [])
  | Answered description ack =>
      let p2 := set_local description (set_remote (msg !! "sdp") p1) in
      let payload : Payload := {[ "sdp" := description ]} in
      let payload :=
        match adminSocketId p2 with
        | Some a => <["to" := a]> payload
        | None => payload
        end in
      (match ack with
       | Resolved _ => setStatus "Receiving stream…" "active" p2
       | Rejected _ => failed p2
       end,
       [ {| sent_event := "answer"; sent_payload := payload |} ])
  end.

(** [socket.on('ice-candidate')] for the message [{ candidate }]; [added]
    tells whether [addIceCandidate] resolves (a rejection is only logged). *)
Definition on_ice_candidate (msg : Payload) (added : bool) (p : Page) : Page :=
  if negb (truthy (msg !! "candidate")) then p
  else if added then
    with_pc p {| connectionState := connectionState (pc p);
                 remoteDescription := remoteDescription (pc p);
                 localDescription := localDescription (pc p);
                 iceCandidates := iceCandidates (pc p)
                                    ++ [default "" (msg !! "candidate")] |}
  else p.

(** [socket.on('session-ended')] *)
Definition on_session_ended (p : Page) : Page :=
  let p1 := with_admin
              (toggleLoader false
                 (setSubtitle "The presenter left the call."
                    (setStatus "Session has ended." "warning" p)))
              None in
  if bool_decide (connectionState (pc p1) ≠ closed)
  then with_pc p1 {| connectionState := closed;
                     remoteDescription := remoteDescription (pc p1);
                     localDescription := localDescription (pc p1);
                     iceCandidates := iceCandidates (pc p1) |}
  else p1.

(** [socket.on('connect_error')] *)
Definition on_connect_error (p : Page) : Page :=
  toggleLoader true (setStatus "Connection error. Retrying…" "warning" p).

(** [socket.on('disconnect')] *)
Definition on_disconnect (p : Page) : Page :=
  toggleLoader true (setStatus "Disconnected from server." "warning" p).

End StudentPage.

(** ** public/admin.js *)

Module AdminPage.

Record StatusEl := mkStatusEl {
  textContent : string;
  state : string
}.

(** An [li] of the participant list: [dataset.id], [textContent] and
    [className]. *)
Record Item := mkItem {
  data_id : string;
  item_text : string;
  item_class : string
}.

(** A peer connection of the table, as far as the script drives it. *)
Record PC := mkPC {
  tracks : list string;
  localDescription : option string;
  remoteDescription : option string;
  iceCandidates : list string
}.

(** The elements of [ui]. The script tests [stopBtn], [participantList] and
    the two status elements before it uses them, so they may be missing; the
    others are used unconditionally. For a button or card the boolean says
    whether the class [hidden] is set. *)
Record UI := mkUI {
  startBtn_disabled : bool;
  startBtn_hidden : bool;
  stopBtn : option bool;
  sessionStatus : option StatusEl;
  videoStatus : option StatusEl;
  sessionUrlInput : string;                  (* value *)
  shareCard_hidden : bool;
  participantList : option (list Item);
  localVideo : option (list string)          (* srcObject *)
}.

(** The variables of the script and the document. A media stream is the
    list of its tracks. *)
Record Page := mkPage {
  peerConnections : gmap string PC;
  localStream : option (list string);
  sessionId : option string;
  listenersBound : bool;
  sessionActive : bool;
  ui : UI
}.

Definition with_ui (p : Page) (u : UI) : Page :=
  {| peerConnections := peerConnections p; localStream := localStream p;
     sessionId := sessionId p; listenersBound := listenersBound p;
     sessionActive := sessionActive p; ui := u |}.

Definition with_peers (p : Page) (pcs : gmap string PC) : Page :=
  {| peerConnections := pcs; localStream := localStream p;
     sessionId := sessionId p; listenersBound := listenersBound p;
     sessionActive := sessionActive p; ui := ui p |}.

(** [setStatus(element, text, state)] on the element itself. *)
Definition setStatus (el : option StatusEl) (text st : string) : option StatusEl :=
  match el with
  | None => None
  | Some _ => Some {| textContent := text; state := st |}
  end.

Definition set_sessionStatus (text st : string) (p : Page) : Page :=
  with_ui p {| startBtn_disabled := startBtn_disabled (ui p);
               startBtn_hidden := startBtn_hidden (ui p);
               stopBtn := stopBtn (ui p);
               sessionStatus := setStatus (sessionStatus (ui p)) text st;
               videoStatus := videoStatus (ui p);
               sessionUrlInput := sessionUrlInput (ui p);
               shareCard_hidden := shareCard_hidden (ui p);
               participantList := participantList (ui p);
               localVideo := localVideo (ui p) |}.

Definition set_videoStatus (text st : string) (p : Page) : Page :=
  with_ui p {| startBtn_disabled := startBtn_disabled (ui p);
               startBtn_hidden := startBtn_hidden (ui p);
               stopBtn := stopBtn (ui p);
               sessionStatus := sessionStatus (ui p);
               videoStatus := setStatus (videoStatus (ui p)) text st;
               sessionUrlInput := sessionUrlInput (ui p);
               shareCard_hidden := shareCard_hidden (ui p);
               participantList := participantList (ui p);
               localVideo := localVideo (ui p) |}.

Definition set_startBtn_disabled (b : bool) (p : Page) : Page :=
  with_ui p {| startBtn_disabled := b;
               startBtn_hidden := startBtn_hidden (ui p);
               stopBtn := stopBtn (ui p);
               sessionStatus := sessionStatus (ui p);
               videoStatus := videoStatus (ui p);
               sessionUrlInput := sessionUrlInput (ui p);
               shareCard_hidden := shareCard_hidden (ui p);
               participantList := participantList (ui p);
               localVideo := localVideo (ui p) |}.

Definition set_participants (items : option (list Item)) (p : Page) : Page :=
  with_ui p {| startBtn_disabled := startBtn_disabled (ui p);
               startBtn_hidden := startBtn_hidden (ui p);
               stopBtn := stopBtn (ui p);
               sessionStatus := sessionStatus (ui p);
               videoStatus := videoStatus (ui p);
               sessionUrlInput := sessionUrlInput (ui p);
               shareCard_hidden := shareCard_hidden (ui p);
               participantList := items;
               localVideo := localVideo (ui p) |}.

(** The list after [upsertParticipant]: the first item whose [data-id] is
    [id] gets the text and the class; when there is none, a new item is
    appended. (Ids are taken to be free of quotes, as socket ids are, so
    that the selector [[data-id="id"]] selects by equality.) *)
Fixpoint upsert (id text cls : string) (items : list Item) : list Item :=
  match items with
  | [] => [ {| data_id := id; item_text := text; item_class := cls |} ]
  | it :: rest =>
      if decide (data_id it = id)
      then {| data_id := data_id it; item_text := text; item_class := cls |} :: rest
      else it :: upsert id text cls rest
  end.

(** The list after [removeParticipant]: the first item whose [data-id] is
    [id] is removed. *)
Fixpoint remove_item (id : string) (items : list Item) : list Item :=
  match items with
  | [] => []
  | it :: rest =>
      if decide (data_id it = id) then rest else it :: remove_item id rest
  end.

(** [upsertParticipant(id, text, state)] *)
Definition upsertParticipant (id text st : string) (p : Page) : Page :=
  match participantList (ui p) with
  | None => p
  | Some items =>
      set_participants (Some (upsert id text ("participant participant-" +:+ st) items)) p
  end.

(** [removeParticipant(id)] *)
Definition removeParticipant (id : string) (p : Page) : Page :=
  match participantList (ui p) with
  | None => p
  | Some items => set_participants (Some (remove_item id items)) p
  end.

(** The names of the properties that a plain object inherits from
    [Object.prototype]. *)
Definition Object_prototype : list string :=
  [ "constructor"; "hasOwnProperty"; "isPrototypeOf"; "propertyIsEnumerable";
    "toLocaleString"; "toString"; "valueOf"; "__defineGetter__";
    "__defineSetter__"; "__lookupGetter__"; "__lookupSetter__"; "__proto__" ].

(** What reading [peerConnections[id]] finds. The table is a plain object:
    when it has no key [id] of its own, the read finds the inherited
    property of that name, if there is one. That value is truthy, but it is
    a function (or the prototype itself), not a peer connection. *)
Inductive Found :=
| Own (pc : PC)
| Inherited
| Missing.

(** [peerConnections[id]] *)
Definition peer (p : Page) (id : string) : Found :=
  match peerConnections p !! id with
  | Some pc => Own pc
  | None => if bool_decide (id ∈ Object_prototype) then Inherited else Missing
  end.

(** [teardownPeer(studentId)]: the connection, if there is one, is closed
    and deleted from the table. [None]: the call throws. It does so when the
    read finds an inherited property, which has no [close]; nothing has
    changed by then. *)
Definition teardownPeer (studentId : string) (p : Page) : option Page :=
  match peer p studentId with
  | Own _ =>
      Some (removeParticipant studentId
              (with_peers p (delete studentId (peerConnections p))))
  | Missing => Some (removeParticipant studentId p)
  | Inherited => None
  end.

(** [Object.keys(peerConnections).forEach(teardownPeer)]; [None] if a call
    throws. *)
Definition teardownAll (p : Page) : option Page :=
  foldr (λ id q, q ≫= teardownPeer id) (Some p) (elements (dom (peerConnections p))).

(** [toggleControls()] *)
Definition toggleControls (p : Page) : Page :=
  match stopBtn (ui p) with
  | None => p
  | Some _ =>
      with_ui p {| startBtn_disabled := startBtn_disabled (ui p);
                   startBtn_hidden := sessionActive p;
                   stopBtn := Some (negb (sessionActive p));
                   sessionStatus := sessionStatus (ui p);
                   videoStatus := videoStatus (ui p);
                   sessionUrlInput := sessionUrlInput (ui p);
                   shareCard_hidden := shareCard_hidden (ui p);
                   participantList := participantList (ui p);
                   localVideo := localVideo (ui p) |}
  end.

(** [resetUIState({ keepSessionStatus })] *)
Definition resetUIState (keepSessionStatus : bool) (p : Page) : Page :=
  let p1 := with_ui p {| startBtn_disabled := startBtn_disabled (ui p);
                         startBtn_hidden := startBtn_hidden (ui p);
                         stopBtn := stopBtn (ui p);
                         sessionStatus := sessionStatus (ui p);
                         videoStatus := videoStatus (ui p);
                         sessionUrlInput := "";
                         shareCard_hidden := true;
                         participantList := participantList (ui p);
                         localVideo := localVideo (ui p) |} in
  let p2 := if keepSessionStatus then p1
            else set_sessionStatus "Ready when you are." "idle" p1 in
  let p3 := set_videoStatus "Camera inactive." "idle" p2 in
  match participantList (ui p3) with
  | None => p3
  | Some _ => set_participants (Some []) p3
  end.

(** [endSession()]: every peer of the table is torn down, the tracks of the
    local stream are stopped and the stream is dropped. The keys that
    [Object.keys] lists are the table's own, for which [teardownPeer] does
    not throw: [teardownAll] always gives a page. *)
Definition endSession (p : Page) : Page :=
  let p1 := default p (teardownAll p) in
  let p2 := {| peerConnections := peerConnections p1; localStream := None;
               sessionId := None; listenersBound := listenersBound p1;
               sessionActive := false; ui := ui p1 |} in
  set_startBtn_disabled false (toggleControls p2).

(** [handleSessionEnded(message, state)] *)
Definition handleSessionEnded (message st : string) (p : Page) : Page :=
  resetUIState true (endSession (set_sessionStatus message st p)).

(** [ensureSocketListeners()] *)
Definition ensureSocketListeners (p : Page) : Page :=
  {| peerConnections := peerConnections p; localStream := localStream p;
     sessionId := sessionId p; listenersBound := true;
     sessionActive := sessionActive p; ui := ui p |}.

(** [startLocalStream()]; [media] is the stream [getUserMedia] resolves
    with, [None] when it rejects (the function then throws). *)
Definition startLocalStream (media : option (list string)) (p : Page) : Page :=
  let p1 := set_videoStatus "Requesting camera and microphone…" "active" p in
  match media with
  | Some stream =>
      let p2 := {| peerConnections := peerConnections p1; localStream := Some stream;
                   sessionId := sessionId p1; listenersBound := listenersBound p1;
                   sessionActive := sessionActive p1;
                   ui := {| startBtn_disabled := startBtn_disabled (ui p1);
                            startBtn_hidden := startBtn_hidden (ui p1);
                            stopBtn := stopBtn (ui p1);
                            sessionStatus := sessionStatus (ui p1);
                            videoStatus := videoStatus (ui p1);
                            sessionUrlInput := sessionUrlInput (ui p1);
                            shareCard_hidden := shareCard_hidden (ui p1);
                            participantList := participantList (ui p1);
                            localVideo := Some stream |} |} in
      set_videoStatus "Camera preview active." "success" p2
  | None => set_videoStatus "Could not access camera or microphone." "error" p1
  end.

(** What [fetch('/api/session')] gives: a response that is not ok or a
    failure of the request, or the body [{ unique_id, userurl }]. *)
Inductive FetchOutcome :=
| FetchFailed
| Created (unique_id userurl : string).

(** The body the route answers with. *)
Definition fetch_of (r : Reply) : FetchOutcome :=
  match r with
  | Json uid url => Created uid url
  | _ => FetchFailed
  end.

(** [handleStartSession()]. [media] is as for [startLocalStream], [ack] is
    how [emitWithAck('admin-join', ...)] settles. *)
Definition handleStartSession (fetched : FetchOutcome) (media : option (list string))
    (ack : Settled) (p : Page) : Page * list Sent :=
  if truthy (sessionId p)
  then (set_sessionStatus "Session already active." "warning" p, [])
  else
    let p1 := set_sessionStatus "Creating session…" "active"
                (set_startBtn_disabled true p) in
    match fetched with
    | FetchFailed =>
        (set_startBtn_disabled false
           (set_sessionStatus "Unable to create session. Try again." "error" p1), [])
    | Created uid url =>
        let p2 :=
          {| peerConnections := peerConnections p1; localStream := localStream p1;
             sessionId := Some uid; listenersBound := listenersBound p1;
             sessionActive := sessionActive p1;
             ui := {| startBtn_disabled := startBtn_disabled (ui p1);
                      startBtn_hidden := startBtn_hidden (ui p1);
                      stopBtn := stopBtn (ui p1);
                      sessionStatus := sessionStatus (ui p1);
                      videoStatus := videoStatus (ui p1);
                      sessionUrlInput := url;
                      shareCard_hidden := false;
                      participantList := participantList (ui p1);
                      localVideo := localVideo (ui p1) |} |} in
        let p3 := set_sessionStatus "Session created. Invite your students." "success" p2 in
        let p4 := startLocalStream media p3 in
        match media with
        | None =>
            (set_startBtn_disabled false
               (set_sessionStatus "Grant camera access to continue." "error" p4), [])
        | Some _ =>
            let p5 := ensureSocketListeners p4 in
            let sent := [ {| sent_event := "admin-join";
                             sent_payload := {[ "unique_id" := uid ]} |} ] in
            match ack with
            | Resolved _ =>
                let p6 := set_sessionStatus "Waiting for students to join…" "active" p5 in
                (toggleControls
                   {| peerConnections := peerConnections p6;
                      localStream := localStream p6; sessionId := sessionId p6;
                      listenersBound := listenersBound p6; sessionActive := true;
                      ui := ui p6 |}, sent)
            | Rejected message =>
                let p6 := set_startBtn_disabled false
                            (set_sessionStatus
                               (if truthy (Some message) then message
                                else "Unable to join session.") "error" p5) in
                (toggleControls
                   {| peerConnections := peerConnections p6;
                      localStream := localStream p6; sessionId := None;
                      listenersBound := listenersBound p6; sessionActive := false;
                      ui := ui p6 |}, sent)
            end
        end
    end.

(** [handleStopSession()]; [ack] is how
    [emitWithAck('admin-end-session', ...)] settles. *)
Definition handleStopSession (ack : Settled) (p : Page) : Page * list Sent :=
  if negb (sessionActive p) || negb (truthy (sessionId p)) then (p, [])
  else
    let p1 := set_sessionStatus "Stopping session…" "active" p in
    let sent := [ {| sent_event := "admin-end-session";
                     sent_payload := {[ "unique_id" := default "" (sessionId p) ]} |} ] in
    match ack with
    | Resolved _ => (handleSessionEnded "Session ended by you." "warning" p1, sent)
    | Rejected message =>
        (set_sessionStatus (if truthy (Some message) then message
                            else "Unable to stop session.") "error" p1, sent)
    end.

(** What happens to the calls inside [createPeerForStudent]. *)
Inductive PeerOutcome :=
| OfferRejected                             (* createOffer or setLocalDescription rejects *)
| Offered (description : string) (ack : Settled).
    (* pc.localDescription, and how emitWithAck('offer', ...) settles *)

(** [createPeerForStudent(studentId)]; the boolean tells whether the promise
    is fulfilled. Without a local stream, [localStream.getTracks()] throws
    once the new connection is in the table. The assignment
    [peerConnections[studentId] = pc] adds or replaces a key of the table for
    every [studentId] but [__proto__], for which it would replace the
    prototype of the table instead; that name is not a socket id, and the
    page never receives it (see [handle]). *)
Definition createPeerForStudent (studentId : string) (outcome : PeerOutcome) (p : Page)
  : Page * list Sent * bool :=
  let fresh_pc tr := {| tracks := tr; localDescription := None;
                        remoteDescription := None; iceCandidates := [] |} in
  match localStream p with
  | None => (with_peers p (<[studentId := fresh_pc []]> (peerConnections p)), [], false)
  | Some stream =>
      match outcome with
      | OfferRejected =>
          (with_peers p (<[studentId := fresh_pc stream]> (peerConnections p)), [], false)
      | Offered description ack =>
          (with_peers p
             (<[studentId := {| tracks := stream; localDescription := Some description;
                                remoteDescription := None; iceCandidates := [] |}]>
                (peerConnections p)),
           [ {| sent_event := "offer";
                sent_payload := {[ "to" := studentId; "sdp" := description ]} |} ],
           match ack with Resolved _ => true | Rejected _ => false end)
      end
  end.

(** [socket.on('student-connected')] for [{ studentSocketId }] *)
Definition on_student_connected (studentSocketId : string) (outcome : PeerOutcome)
    (p : Page) : Page * list Sent :=
  let p1 := set_sessionStatus "Student joined the room. Waiting for answer…" "active"
              (upsertParticipant studentSocketId "Student connected" "active" p) in
  let '(p2, sent, fulfilled) := createPeerForStudent studentSocketId outcome p1 in
  if fulfilled then (p2, sent)
  else
    (* the handler of the rejection: the item is marked, then the peer is
       torn down; should that throw, the mark stays *)
    let p3 := upsertParticipant studentSocketId "Connection failed" "error" p2 in
    (default p3 (teardownPeer studentSocketId p3), sent).

(** [socket.on('student-disconnected')] for [{ studentSocketId }]. When
    [teardownPeer] throws, the handler stops there. *)
Definition on_student_disconnected (studentSocketId : string) (p : Page) : Page :=
  match teardownPeer studentSocketId p with
  | Some p1 => upsertParticipant studentSocketId "Disconnected" "warning" p1
  | None => p
  end.

(** [socket.on('answer')] for the message [{ from, sdp }]; [accepted] tells
    whether [setRemoteDescription] resolves. A missing [from] reads as the
    key [undefined]. When the read finds an inherited property, the call of
    [setRemoteDescription] throws inside the [try], and the [catch] marks
    the answer as rejected. *)
Definition on_answer (msg : Payload) (accepted : bool) (p : Page) : Page :=
  let from := default "undefined" (msg !! "from") in
  match peer p from with
  | Missing => p
  | Inherited => upsertParticipant from "Answer rejected" "error" p
  | Own pc =>
      if accepted then
        set_sessionStatus "Streaming live to students" "success"
          (upsertParticipant from "Streaming" "success"
             (with_peers p
                (<[from := {| tracks := tracks pc;
                              localDescription := localDescription pc;
                              remoteDescription := msg !! "sdp";
                              iceCandidates := iceCandidates pc |}]>
                   (peerConnections p))))
      else upsertParticipant from "Answer rejected" "error" p
  end.

(** [socket.on('ice-candidate')] for the message [{ from, candidate }];
    [added] tells whether [addIceCandidate] resolves (a rejection is only
    logged). When the read finds an inherited property, the call of
    [addIceCandidate] throws and the handler stops, nothing being changed. *)
Definition on_ice_candidate (msg : Payload) (added : bool) (p : Page) : Page :=
  let from := default "undefined" (msg !! "from") in
  match peer p from with
  | Missing | Inherited => p
  | Own pc =>
      if truthy (msg !! "candidate") && added then
        with_peers p
          (<[from := {| tracks := tracks pc;
                        localDescription := localDescription pc;
                        remoteDescription := remoteDescription pc;
                        iceCandidates := iceCandidates pc
                                           ++ [default "" (msg !! "candidate")] |}]>
             (peerConnections p))
      else p
  end.

(** [socket.on('session-ended')] *)
Definition on_session_ended (p : Page) : Page :=
  if negb (sessionActive p) && negb (truthy (sessionId p)) then p
  else handleSessionEnded "Session ended." "warning" p.

(** [pc.onicecandidate] of the connection made for [studentId];
    [candidate] is [event.candidate]. The acknowledgement is only logged. *)
Definition onicecandidate (studentId : string) (candidate : option string) : list Sent :=
  match candidate with
  | None => []
  | Some cand =>
      [ {| sent_event := "ice-candidate";
           sent_payload := {[ "to" := studentId; "candidate" := cand ]} |} ]
  end.

(** The page when the script has run: the variables start empty, and the
    script ends with [resetUIState(); toggleControls();]. [u] is the
    document as served. *)
Definition load (u : UI) : Page :=
  toggleControls
    (resetUIState false
       {| peerConnections := ∅; localStream := None; sessionId := None;
          listenersBound := false; sessionActive := false; ui := u |}).

(** What can happen to the page. A click needs its button: [startBtn] must
    not be disabled, and the stop listener is only attached when [stopBtn]
    exists. Messages of the server are heard once the listeners are bound,
    and a connection produces candidates while it is in the table. The
    student announced by the server is a socket id, hence not [__proto__]. *)
Inductive Event :=
| ClickStart (fetched : FetchOutcome) (media : option (list string)) (ack : Settled)
| ClickStop (ack : Settled)
| BeforeUnload
| StudentConnected (studentSocketId : string) (outcome : PeerOutcome)
| StudentDisconnected (studentSocketId : string)
| AnswerReceived (msg : Payload) (accepted : bool)
| IceCandidateReceived (msg : Payload) (added : bool)
| SessionEnded
| LocalCandidate (studentId : string) (candidate : option string).

Definition handle (p : Page) (ev : Event) : option (Page * list Sent) :=
  match ev with
  | ClickStart fetched media ack =>
      if startBtn_disabled (ui p) then None
      else Some (handleStartSession fetched media ack p)
  | ClickStop ack =>
      match stopBtn (ui p) with
      | None => None
      | Some _ => Some (handleStopSession ack p)
      end
  | BeforeUnload => Some (endSession p, [])
  | StudentConnected id outcome =>
      if listenersBound p && bool_decide (id ≠ "__proto__")
      then Some (on_student_connected id outcome p) else None
  | StudentDisconnected id =>
      if listenersBound p then Some (on_student_disconnected id p, []) else None
  | AnswerReceived msg accepted =>
      if listenersBound p then Some (on_answer msg accepted p, []) else None
  | IceCandidateReceived msg added =>
      if listenersBound p then Some (on_ice_candidate msg added p, []) else None
  | SessionEnded =>
      if listenersBound p then Some (on_session_ended p, []) else None
  | LocalCandidate id candidate =>
      match peerConnections p !! id with
      | None => None
      | Some _ => Some (p, onicecandidate id candidate)
      end
  end.

Inductive reachable (u : UI) : Page → Prop :=
| reachable_load : reachable u (load u)
| reachable_step p ev p' sent :
    reachable u p → handle p ev = Some (p', sent) → reachable u p'.

Fixpoint run (p : Page) (evs : list Event) : option Page :=
  match evs with
  | [] => Some p
  | ev :: evs' =>
      match handle p ev with
      | Some (p', _) => run p' evs'
      | None => None
      end
  end.

(** What the script keeps true of the page: the buttons follow
    [sessionActive]; an active session has an id, a local stream, bound
    listeners and a disabled start button; the participant list holds each
    id once, and lists every peer of the table. *)
Record consistent (p : Page) : Prop := mk_consistent {
  c_controls : ∀ h, stopBtn (ui p) = Some h →
    h = negb (sessionActive p) ∧ startBtn_hidden (ui p) = sessionActive p;
  c_active : sessionActive p = true →
    is_Some (sessionId p) ∧ is_Some (localStream p) ∧ listenersBound p = true ∧
    startBtn_disabled (ui p) = true;
  c_keyed : ∀ items, participantList (ui p) = Some items → NoDup (data_id <$> items);
  c_listed : ∀ items id, participantList (ui p) = Some items →
    is_Some (peerConnections p !! id) → id ∈ data_id <$> items
}.

End AdminPage.

(** ** Scenarios for the pages *)

(** [{ ok: true }] *)
Definition acked : Settled :=
  Resolved {| ok := Some true; error := None; socketId := None |}.

(** A presenter document with every element. *)
Definition admin_doc : AdminPage.UI :=
  {| AdminPage.startBtn_disabled := false; AdminPage.startBtn_hidden := false;
     AdminPage.stopBtn := Some true;
     AdminPage.sessionStatus :=
       Some {| AdminPage.textContent := ""; AdminPage.state := "idle" |};
     AdminPage.videoStatus :=
       Some {| AdminPage.textContent := ""; AdminPage.state := "idle" |};
     AdminPage.sessionUrlInput := "";
     AdminPage.shareCard_hidden := true;
     AdminPage.participantList := Some [];
     AdminPage.localVideo := None |}.

(** The presenter has started session S, and the students V and W have been
    announced: the offer to V went through, the one to W was answered with
    an error. *)
Definition presenting_events : list AdminPage.Event :=
  [ AdminPage.ClickStart (AdminPage.Created "S" "http://example.org/session/S")
      (Some ["video"; "audio"]) acked;
    AdminPage.StudentConnected "V" (AdminPage.Offered "v=0 offer" acked);
    AdminPage.StudentConnected "W" (AdminPage.Offered "v=0 offer" (Rejected "lost")) ].

Definition presenting : AdminPage.Page :=
  default (AdminPage.load admin_doc)
    (AdminPage.run (AdminPage.load admin_doc) presenting_events).

(** A viewer document with every element. *)
Definition student_doc : StudentPage.UI :=
  {| StudentPage.status :=
       Some {| StudentPage.textContent := ""; StudentPage.state := "idle" |};
     StudentPage.subtitle := Some "";
     StudentPage.remoteVideo := None;
     StudentPage.loader := Some true |}.

(** ** Basic facts on rooms *)

Section rooms.
Implicit Types (rs : gmap string (gset string)) (id r x : string).

Lemma room_join id r rs x :
  room (join id r rs) x = if decide (x = r) then {[id]} ∪ room rs x else room rs x.
Proof.
  unfold join, room at 1. case_decide as Hx.
  - subst x. by rewrite lookup_insert_eq.
  - by rewrite lookup_insert_ne.
Qed.

Lemma room_leave_all_of r rs x :
  room (leave_all_of r rs) x = if decide (x = r) then ∅ else room rs x.
Proof.
  unfold leave_all_of, room at 1. case_decide as Hx.
  - subst x. by rewrite lookup_insert_eq.
  - by rewrite lookup_insert_ne.
Qed.

Lemma room_drop id rs x : room (drop id rs) x = room rs x ∖ {[id]}.
Proof.
  unfold drop, room. rewrite lookup_fmap.
  destruct (rs !! x) as [m|]; simpl; [reflexivity|].
  apply set_eq. intros y. rewrite elem_of_difference, elem_of_empty. tauto.
Qed.

End rooms.

Lemma truthy_Some s : truthy (Some s) = true ↔ s ≠ "".
Proof. unfold truthy. by rewrite bool_decide_eq_true. Qed.

Lemma truthy_inv v : truthy v = true → ∃ s, v = Some s ∧ s ≠ "".
Proof. destruct v as [s|]; [|done]. intros ?%truthy_Some. eauto. Qed.

Lemma truthy_false v : truthy v = false ↔ v = None ∨ v = Some "".
Proof.
  destruct v as [s|]; simpl.
  - rewrite bool_decide_eq_false. split.
    + intros Hs. right. f_equal. destruct (decide (s = "")); tauto.
    + intros [? | [= ->]]; [done | tauto].
  - naive_solver.
Qed.

(** ** Well-formed states

    The bookkeeping facts that every reachable state satisfies. *)

Record wf (st : Server) : Prop := mk_wf {
  (** a room holds live sockets only, and a room with a member other than
      the socket it is named after is the room of a stored session *)
  wf_members : ∀ r c, c ∈ members st r →
    is_Some (sockets st !! c) ∧ (c = r ∨ is_Some (db st !! r));
  (** socket ids and session ids are apart *)
  wf_apart : ∀ c, is_Some (sockets st !! c) → db st !! c = None;
  (** a live socket is in its own room *)
  wf_own : ∀ c, is_Some (sockets st !! c) → c ∈ members st c;
  (** a socket id is not the empty string *)
  wf_id : ∀ c, is_Some (sockets st !! c) → c ≠ "";
  (** a bound session id is truthy and names a stored session *)
  wf_bound : ∀ c sock u, sockets st !! c = Some sock → unique_id sock = Some u →
    u ≠ "" ∧ is_Some (db st !! u)
}.

Lemma fresh_id_spec st x :
  fresh_id st x = true ↔ x ≠ "" ∧ sockets st !! x = None ∧ db st !! x = None.
Proof.
  unfold fresh_id. rewrite !andb_true_iff, !bool_decide_eq_true. tauto.
Qed.

Lemma wf_init : wf init.
Proof.
  split; unfold members, room, init; simpl; intros *.
  - rewrite lookup_empty. set_solver.
  - by rewrite lookup_empty; intros [? ?].
  - by rewrite lookup_empty; intros [? ?].
  - by rewrite lookup_empty; intros [? ?].
  - by rewrite lookup_empty.
Qed.

Lemma wf_connection st id : wf st → fresh_id st id = true → wf (connection st id).1.
Proof.
  intros [Hm Ha Ho Hi Hb] (Hne & Hs & Hd)%fresh_id_spec.
  split; unfold members in *; simpl; intros *.
  - rewrite room_join. case_decide as Hr; [subst r|].
    + intros [->%elem_of_singleton | Hc]%elem_of_union.
      * rewrite lookup_insert_eq. eauto.
      * destruct (Hm _ _ Hc) as [[? Hx] [-> | [? ?]]]; congruence.
    + intros Hc. destruct (Hm _ _ Hc) as [Hx ?]. split; [|done].
      destruct (decide (c = id)) as [->|]; [by rewrite lookup_insert_eq|].
      by rewrite lookup_insert_ne.
  - destruct (decide (c = id)) as [->|]; [done|].
    rewrite lookup_insert_ne by done. apply Ha.
  - rewrite room_join. destruct (decide (c = id)) as [->|Hc].
    + intros _. apply elem_of_union_l. by apply elem_of_singleton.
    + rewrite lookup_insert_ne by done. apply Ho.
  - destruct (decide (c = id)) as [->|]; [done|].
    rewrite lookup_insert_ne by done. apply Hi.
  - destruct (decide (c = id)) as [->|].
    + rewrite lookup_insert_eq. by intros [= <-].
    + rewrite lookup_insert_ne by done. apply Hb.
Qed.

Lemma wf_post_session st proto host uuid ok :
  wf st → fresh_id st uuid = true → wf (post_session st proto host uuid ok).1.
Proof.
  intros Hwf (Hne & Hs & Hd)%fresh_id_spec. unfold post_session.
  destruct ok; [|done]. destruct Hwf as [Hm Ha Ho Hi Hb].
  split; unfold members, Session.save in *; simpl; intros *.
  - intros Hc. destruct (Hm _ _ Hc) as [? [?|[d Hr]]]; split; auto.
    right. destruct (decide (r = uuid)) as [->|]; [congruence|].
    rewrite lookup_insert_ne by done. eauto.
  - intros Hc. destruct (decide (c = uuid)) as [->|].
    + destruct Hc. congruence.
    + rewrite lookup_insert_ne by done. by apply Ha.
  - apply Ho.
  - apply Hi.
  - intros Hc Hu. destruct (Hb _ _ _ Hc Hu) as [? [d Hd']]. split; [done|].
    destruct (decide (u = uuid)) as [->|]; [congruence|].
    rewrite lookup_insert_ne by done. eauto.
Qed.

Lemma wf_bind st id r uid :
  wf st → is_Some (sockets st !! id) → uid ≠ "" → is_Some (db st !! uid) →
  wf (bind st id r uid).
Proof.
  intros [Hm Ha Ho Hi Hb] Hid Hne Hdb.
  split; unfold members in *; simpl; intros *.
  - rewrite room_join. case_decide as Hr; [subst r0|].
    + intros [->%elem_of_singleton | Hc]%elem_of_union.
      * rewrite lookup_insert_eq. eauto.
      * destruct (Hm _ _ Hc) as [Hx _]. split; [|by right].
        destruct (decide (c = id)) as [->|]; [by rewrite lookup_insert_eq|].
        by rewrite lookup_insert_ne.
    + intros Hc. destruct (Hm _ _ Hc) as [Hx ?]. split; [|done].
      destruct (decide (c = id)) as [->|]; [by rewrite lookup_insert_eq|].
      by rewrite lookup_insert_ne.
  - destruct (decide (c = id)) as [->|]; [intros _; by apply Ha|].
    rewrite lookup_insert_ne by done. apply Ha.
  - intros Hc. rewrite room_join.
    assert (is_Some (sockets st !! c)) as Hc'.
    { destruct (decide (c = id)) as [->|]; [done|].
      by rewrite lookup_insert_ne in Hc. }
    case_decide; [apply elem_of_union_r|]; by apply Ho.
  - intros Hc. apply Hi.
    destruct (decide (c = id)) as [->|]; [done|].
    by rewrite lookup_insert_ne in Hc.
  - destruct (decide (c = id)) as [->|].
    + rewrite lookup_insert_eq. intros [= <-]; simpl. by intros [= <-].
    + rewrite lookup_insert_ne by done. apply Hb.
Qed.

Lemma wf_deactivated st uid :
  wf st → wf (with_db st (Session.findOneAndUpdate (db st) uid)).
Proof.
  intros [Hm Ha Ho Hi Hb].
  split; unfold members, Session.findOneAndUpdate in *; simpl; intros *.
  - intros Hc. destruct (Hm _ _ Hc) as [? [?|?]]; split; auto.
    right. by apply lookup_alter_is_Some.
  - intros Hc. apply lookup_alter_None. by apply Ha.
  - apply Ho.
  - apply Hi.
  - intros Hc Hu. destruct (Hb _ _ _ Hc Hu). split; [done|].
    by apply lookup_alter_is_Some.
Qed.

(** The state after [fetchSockets], the [leave]s and [socket.unique_id = null]. *)
Lemma wf_torn_down st id sock uid :
  wf st → sockets st !! id = Some sock → is_Some (db st !! uid) →
  wf {| db := db st;
        sockets := <[id := {| role := role sock; unique_id := None |}]> (sockets st);
        rooms := leave_all_of uid (rooms st) |}.
Proof.
  intros [Hm Ha Ho Hi Hb] Hid Hdb.
  assert (∀ c, is_Some (<[id := {| role := role sock; unique_id := None |}]>
                          (sockets st) !! c) ↔ is_Some (sockets st !! c)) as Hdom.
  { intros c. destruct (decide (c = id)) as [->|].
    - rewrite lookup_insert_eq. split; eauto.
    - by rewrite lookup_insert_ne. }
  split; unfold members in *; simpl; intros *.
  - rewrite room_leave_all_of, Hdom. case_decide; [set_solver | apply Hm].
  - rewrite Hdom. apply Ha.
  - rewrite Hdom, room_leave_all_of. intros Hc. case_decide as Hr.
    + subst c. apply Ha in Hc. destruct Hdb. congruence.
    + by apply Ho.
  - rewrite Hdom. apply Hi.
  - destruct (decide (c = id)) as [->|].
    + rewrite lookup_insert_eq. by intros [= <-].
    + rewrite lookup_insert_ne by done. apply Hb.
Qed.

(** The state once the channel has closed the socket. *)
Lemma wf_closed st id :
  wf st →
  wf {| db := db st; sockets := delete id (sockets st); rooms := drop id (rooms st) |}.
Proof.
  intros [Hm Ha Ho Hi Hb].
  split; unfold members in *; simpl; intros *.
  - rewrite room_drop, elem_of_difference, elem_of_singleton. intros [Hc Hne].
    rewrite lookup_delete_ne by done. by apply Hm.
  - intros [Hne ?]%lookup_delete_is_Some. by apply Ha.
  - intros [Hne ?]%lookup_delete_is_Some.
    rewrite room_drop, elem_of_difference, elem_of_singleton. split; [by apply Ho | done].
  - intros [Hne ?]%lookup_delete_is_Some. by apply Hi.
  - intros [Hne ?]%lookup_delete_Some. by apply (Hb c).
Qed.

Lemma wf_admin_join st id data ok :
  wf st → is_Some (sockets st !! id) → wf (admin_join st id data ok).1.
Proof.
  intros Hwf Hid. unfold admin_join.
  destruct (truthy (data !! "unique_id")) eqn:Ht; simpl; [|done].
  apply truthy_inv in Ht as (uid & -> & Hne); simpl.
  destruct ok; simpl; [|done]. unfold Session.findOne.
  destruct (db st !! uid) eqn:Hdb; simpl; [|done].
  apply wf_bind; eauto.
Qed.

Lemma wf_student_join st id data ok :
  wf st → is_Some (sockets st !! id) → wf (student_join st id data ok).1.
Proof.
  intros Hwf Hid. unfold student_join.
  destruct (truthy (data !! "unique_id")) eqn:Ht; simpl; [|done].
  apply truthy_inv in Ht as (uid & -> & Hne); simpl.
  destruct ok; simpl; [|done]. unfold Session.findOneActive.
  destruct (db st !! uid) as [d|] eqn:Hdb; simpl; [|done].
  destruct (Session.active d); simpl; [|done].
  apply wf_bind; eauto.
Qed.

Lemma not_authorized_false sock uid :
  not_authorized sock uid = false ↔
  role sock = Some admin ∧ unique_id sock = uid ∧ ∃ u, uid = Some u ∧ u ≠ "".
Proof.
  unfold not_authorized. rewrite !orb_false_iff, !negb_false_iff, !bool_decide_eq_true.
  split.
  - intros [[Hr (u & Hu & Hne)%truthy_inv] He]. rewrite Hu in He. subst uid.
    eauto 6.
  - intros (Hr & He & u & -> & Hne). rewrite He. by rewrite (proj2 (truthy_Some u)).
Qed.

Lemma wf_admin_end_session st id sock payload uok fok :
  wf st → sockets st !! id = Some sock →
  wf (admin_end_session st id sock payload uok fok).1.
Proof.
  intros Hwf Hid. unfold admin_end_session.
  destruct (not_authorized sock (payload !! "unique_id")) eqn:Hauth; simpl; [done|].
  apply not_authorized_false in Hauth as (Hr & Hu & u & Hp & Hne).
  rewrite Hp in *; simpl.
  destruct uok; simpl; [|done].
  pose proof (wf_deactivated st u Hwf) as Hwf1.
  destruct fok; simpl; [|done].
  apply (wf_torn_down (with_db st (Session.findOneAndUpdate (db st) u))); simpl; auto.
  apply lookup_alter_is_Some. by eapply (wf_bound st Hwf).
Qed.

Lemma wf_disconnect st id sock ok : wf st → wf (disconnect st id sock ok).1.
Proof.
  intros Hwf. unfold disconnect.
  pose proof (wf_closed st id Hwf) as Hwf0.
  destruct (bool_decide (role sock = Some admin) && truthy (unique_id sock)); simpl;
    [destruct ok; simpl|]; try done.
  by apply (wf_deactivated _ _ Hwf0).
Qed.

Lemma wf_handle st ev st' out : wf st → handle st ev = Some (st', out) → wf st'.
Proof.
  intros Hwf. destruct ev; simpl.
  - destruct (fresh_id st id) eqn:Hf; [|done]. intros [= <- <-].
    by apply wf_connection.
  - destruct (fresh_id st uuid) eqn:Hf; [|done]. intros [= Hp].
    pose proof (wf_post_session st proto host uuid save_ok Hwf Hf) as H.
    by rewrite Hp in H.
  - destruct (sockets st !! id) eqn:Hs; simpl; [|done]. intros [= Hp].
    pose proof (wf_admin_join st id data find_ok Hwf (mk_is_Some _ _ Hs)) as H.
    by rewrite Hp in H.
  - destruct (sockets st !! id) eqn:Hs; simpl; [|done]. intros [= Hp].
    pose proof (wf_student_join st id data find_ok Hwf (mk_is_Some _ _ Hs)) as H.
    by rewrite Hp in H.
  - destruct (sockets st !! id) eqn:Hs; simpl; [|done].
    unfold offer, forward. by case_match; intros [= <- <-].
  - destruct (sockets st !! id) eqn:Hs; simpl; [|done].
    unfold answer, forward. by case_match; intros [= <- <-].
  - destruct (sockets st !! id) eqn:Hs; simpl; [|done].
    unfold ice_candidate. by repeat case_match; intros [= <- <-].
  - destruct (sockets st !! id) eqn:Hs; simpl; [|done]. intros [= Hp].
    pose proof (wf_admin_end_session st id _ payload update_ok fetch_ok Hwf Hs) as H.
    by rewrite Hp in H.
  - destruct (sockets st !! id) eqn:Hs; simpl; [|done]. intros [= Hp].
    pose proof (wf_disconnect st id s update_ok Hwf) as H.
    by rewrite Hp in H.
Qed.

Lemma reachable_wf st : reachable st → wf st.
Proof. induction 1; [apply wf_init | by eapply wf_handle]. Qed.

Lemma run_reachable st evs st' : reachable st → run st evs = Some st' → reachable st'.
Proof.
  revert st. induction evs as [|ev evs IH]; simpl; intros st Hst.
  - by intros [= <-].
  - destruct (handle st ev) as [[st1 out]|] eqn:Hh; [|done].
    apply IH. by eapply reachable_step.
Qed.

(** ** The scenarios are reachable *)

Lemma classroom_reachable : reachable classroom_st.
Proof.
  apply (run_reachable init classroom); [constructor | vm_compute; reflexivity].
Qed.

Lemma two_sessions_reachable : reachable two_sessions_st.
Proof.
  apply (run_reachable init two_sessions); [constructor | vm_compute; reflexivity].
Qed.

Lemma two_presenters_reachable : reachable two_presenters_st.
Proof.
  apply (run_reachable init two_presenters); [constructor | vm_compute; reflexivity].
Qed.

(** ** The store along a run *)

(** A handler leaves the collection alone, saves one new session under a
    fresh id, or clears the active flag of one session. *)
Lemma handle_db st ev st' out :
  handle st ev = Some (st', out) →
  db st' = db st
  ∨ (∃ d, db st !! Session.unique_id d = None ∧ Session.active d = true
          ∧ db st' = Session.save d (db st))
  ∨ (∃ u, db st' = Session.findOneAndUpdate (db st) u).
Proof.
  destruct ev; simpl.
  - case_match; [|done]. intros [= <- <-]. by left.
  - destruct (fresh_id st uuid) eqn:Hf; [|done].
    apply fresh_id_spec in Hf as (_ & _ & Hd). unfold post_session.
    destruct save_ok; intros [= <- <-]; [|by left].
    right; left.
    by exists (Session.new "admin" uuid (proto +:+ "://" +:+ host +:+ "/session/" +:+ uuid)).
  - destruct (sockets st !! id); simpl; [|done]. unfold admin_join, Session.findOne.
    repeat case_match; intros [= <- <-]; by left.
  - destruct (sockets st !! id); simpl; [|done].
    unfold student_join, Session.findOneActive.
    repeat case_match; intros [= <- <-]; by left.
  - destruct (sockets st !! id); simpl; [|done]. unfold offer, forward.
    case_match; intros [= <- <-]; by left.
  - destruct (sockets st !! id); simpl; [|done]. unfold answer, forward.
    case_match; intros [= <- <-]; by left.
  - destruct (sockets st !! id); simpl; [|done]. unfold ice_candidate.
    repeat case_match; intros [= <- <-]; by left.
  - destruct (sockets st !! id); simpl; [|done]. unfold admin_end_session.
    repeat case_match; intros [= <- <-]; simpl; eauto.
  - destruct (sockets st !! id); simpl; [|done]. unfold disconnect.
    repeat case_match; simplify_eq; intros [= <- <-]; simpl; eauto.
Qed.

Lemma ended_handle st ev st' out s :
  ended st s → handle st ev = Some (st', out) → ended st' s.
Proof.
  intros (d & Hd & Hact) Hh. apply handle_db in Hh. unfold ended.
  destruct Hh as [Heq | [(d' & Hfresh & _ & Heq) | (u & Heq)]]; rewrite Heq;
    unfold Session.save, Session.findOneAndUpdate.
  - eauto.
  - exists d. split; [|done]. rewrite lookup_insert_ne; [done | congruence].
  - destruct (decide (u = s)) as [->|].
    + exists (Session.deactivate d). by rewrite lookup_alter_eq, Hd.
    + exists d. by rewrite lookup_alter_ne.
Qed.

Lemma ended_run st evs st' s : ended st s → run st evs = Some st' → ended st' s.
Proof.
  revert st. induction evs as [|ev evs IH]; simpl; intros st Hst.
  - by intros [= <-].
  - destruct (handle st ev) as [[st1 out]|] eqn:Hh; [|done].
    apply IH. by eapply ended_handle.
Qed.

Lemma findOneActive_ended st s : ended st s → Session.findOneActive (db st) s = None.
Proof. intros (d & Hd & Hact). unfold Session.findOneActive. by rewrite Hd, Hact. Qed.

(** What a successful [admin-end-session] tells. *)
Lemma end_session_ok st c payload uok fok st1 out1 :
  handle st (AdminEndSession c payload uok fok) = Some (st1, out1) →
  reply out1 = AckOk None →
  ∃ sock s,
    sockets st !! c = Some sock ∧ role sock = Some admin ∧ unique_id sock = Some s ∧
    payload !! "unique_id" = Some s ∧ s ≠ "" ∧ uok = true ∧ fok = true ∧
    st1 = {| db := Session.findOneAndUpdate (db st) s;
             sockets := <[c := {| role := role sock; unique_id := None |}]> (sockets st);
             rooms := leave_all_of s (rooms st) |} ∧
    emitted out1 = [ {| event := "session-ended"; message := None;
                        dest := members st s ∖ {[c]} |} ].
Proof.
  simpl. destruct (sockets st !! c) as [sock|] eqn:Hc; simpl; [|done].
  unfold admin_end_session.
  destruct (not_authorized sock (payload !! "unique_id")) eqn:Hauth;
    [by intros [= <- <-]|].
  apply not_authorized_false in Hauth as (Hr & Hu & s & Hp & Hne).
  rewrite Hp in *; simpl.
  destruct uok; simpl; [|by intros [= <- <-]].
  destruct fok; simpl; [|by intros [= <- <-]].
  intros [= <- <-] _. exists sock, s. split_and!; done.
Qed.

(** ** Joining after the end of a session *)

(** C1, as amended: once [admin-end-session] has succeeded for session [s],
    every later [student-join] with session id [s] fails and changes
    nothing; the error is NotFound whenever the store lookup completes, and
    the join handler's store error when the lookup itself throws. *)
Theorem student_join_after_end_session
    st c payload uok fok st1 out1 s evs st2 v data fnd st3 out :
  reachable st →
  handle st (AdminEndSession c payload uok fok) = Some (st1, out1) →
  reply out1 = AckOk None →
  payload !! "unique_id" = Some s →
  run st1 evs = Some st2 →
  data !! "unique_id" = Some s →
  handle st2 (StudentJoin v data fnd) = Some (st3, out) →
  st3 = st2 ∧ emitted out = [] ∧
  reply out = AckErr (if fnd then NotFound else JoinStoreError).
Proof.
  intros Hreach Hend Hok Hs Hrun Hdata.
  destruct (end_session_ok _ _ _ _ _ _ _ Hend Hok)
    as (sock & s' & Hc & Hrole & Hu & Hp & Hne & -> & -> & -> & _).
  assert (s' = s) as -> by congruence.
  assert (ended st2 s) as Hended.
  { eapply ended_run; [|exact Hrun].
    destruct (wf_bound st (reachable_wf _ Hreach) _ _ _ Hc Hu) as [_ [d Hd]].
    exists (Session.deactivate d). split; [|done]. simpl.
    unfold Session.findOneAndUpdate. by rewrite lookup_alter_eq, Hd. }
  simpl. destruct (sockets st2 !! v); simpl; [|done].
  unfold student_join. rewrite Hdata, (proj2 (truthy_Some s) Hne); simpl.
  destruct fnd; simpl; [|by intros [= <- <-]].
  rewrite (findOneActive_ended _ _ Hended). by intros [= <- <-].
Qed.

Lemma student_join_after_end_session_witness :
  after dismissed_st (StudentJoin "V" (session_payload "S") true) = dismissed_st ∧
  emitted (output dismissed_st (StudentJoin "V" (session_payload "S") true)) = [] ∧
  reply (output dismissed_st (StudentJoin "V" (session_payload "S") true))
    = AckErr NotFound.
Proof.
  apply (student_join_after_end_session classroom_st "P" (session_payload "S")
           true true dismissed_st
           (output classroom_st (AdminEndSession "P" (session_payload "S") true true))
           "S" [] dismissed_st "V" (session_payload "S") true).
  - apply classroom_reachable.
  - vm_compute; reflexivity.
  - vm_compute; reflexivity.
  - reflexivity.
  - reflexivity.
  - reflexivity.
  - vm_compute; reflexivity.
Defined.

(** C1, as stated, fails when the lookup of [student-join] throws: the
    request is then refused with the handler's store error, not NotFound. *)
Lemma store_failure_hides_not_found :
  reachable classroom_st ∧
  handle classroom_st (AdminEndSession "P" (session_payload "S") true true)
    = Some (dismissed_st,
            output classroom_st (AdminEndSession "P" (session_payload "S") true true)) ∧
  reply (output classroom_st (AdminEndSession "P" (session_payload "S") true true))
    = AckOk None ∧
  handle dismissed_st (StudentJoin "V" (session_payload "S") false)
    = Some (dismissed_st, silent (AckErr JoinStoreError)) ∧
  AckErr JoinStoreError ≠ AckErr NotFound.
Proof.
  split; [apply classroom_reachable|].
  split; [vm_compute; reflexivity|].
  split; [vm_compute; reflexivity|].
  split; [vm_compute; reflexivity | discriminate].
Qed.

(** ** Bindings along a step *)

Lemma admin_join_cases st id data ok :
  (admin_join st id data ok).1 = st ∧ (∀ x, reply (admin_join st id data ok).2 ≠ AckOk x)
  ∨ ∃ s, data !! "unique_id" = Some s ∧ s ≠ "" ∧ ok = true ∧ is_Some (db st !! s) ∧
         admin_join st id data ok = (bind st id admin s, silent (AckOk (Some id))).
Proof.
  unfold admin_join.
  destruct (truthy (data !! "unique_id")) eqn:Ht; simpl; [|by left].
  apply truthy_inv in Ht as (s & -> & Hne); simpl.
  destruct ok; simpl; [|by left]. unfold Session.findOne.
  destruct (db st !! s) eqn:Hdb; simpl; [|by left].
  right. exists s. by rewrite Hdb.
Qed.

Lemma student_join_cases st id data ok :
  (student_join st id data ok).1 = st
    ∧ (∀ x, reply (student_join st id data ok).2 ≠ AckOk x)
  ∨ ∃ s, data !! "unique_id" = Some s ∧ s ≠ "" ∧ ok = true ∧ live st s ∧
         student_join st id data ok =
           (bind st id student s,
            {| emitted := [ {| event := "student-connected";
                               message := Some {[ "studentSocketId" := id ]};
                               dest := socket_to (bind st id student s) id s |} ];
               reply := AckOk (Some id) |}).
Proof.
  unfold student_join.
  destruct (truthy (data !! "unique_id")) eqn:Ht; simpl; [|by left].
  apply truthy_inv in Ht as (s & -> & Hne); simpl.
  destruct ok; simpl; [|by left]. unfold Session.findOneActive, live.
  destruct (db st !! s) as [d|] eqn:Hdb; simpl; [|by left].
  destruct (Session.active d) eqn:Hact; simpl; [|by left].
  right. exists s. rewrite Hdb. eauto 10.
Qed.

Lemma disconnect_sockets st id sock ok :
  sockets (disconnect st id sock ok).1 = delete id (sockets st).
Proof. unfold disconnect. by repeat case_match; simplify_eq. Qed.

(** C2, as amended: along any event, the (role, session id) pair of a
    connection [c] stays as it is, unless [c] disconnects, or a join request
    of [c] itself succeeds (the pair is then overwritten with the requested
    role and session id, whatever the earlier binding was), or an
    [admin-end-session] of [c] itself succeeds (the session id is cleared,
    the role is kept). *)
Theorem binding_changes_only_by_own_request st ev st' out c sock :
  handle st ev = Some (st', out) →
  sockets st !! c = Some sock →
  sockets st' !! c = Some sock
  ∨ (∃ ok, ev = Disconnect c ok ∧ sockets st' !! c = None)
  ∨ (∃ data s, ev = AdminJoin c data true ∧ data !! "unique_id" = Some s ∧
        reply out = AckOk (Some c) ∧
        sockets st' !! c = Some {| role := Some admin; unique_id := Some s |})
  ∨ (∃ data s, ev = StudentJoin c data true ∧ data !! "unique_id" = Some s ∧
        reply out = AckOk (Some c) ∧
        sockets st' !! c = Some {| role := Some student; unique_id := Some s |})
  ∨ (∃ payload, ev = AdminEndSession c payload true true ∧
        reply out = AckOk None ∧
        sockets st' !! c = Some {| role := role sock; unique_id := None |}).
Proof.
  intros Hh Hc. destruct ev; simpl in Hh.
  - destruct (fresh_id st id) eqn:Hf; [|done].
    apply fresh_id_spec in Hf as (_ & Hs & _). injection Hh as <- <-. simpl.
    left. rewrite lookup_insert_ne; [done | congruence].
  - destruct (fresh_id st uuid); [|done]. unfold post_session in Hh.
    left. by destruct save_ok; injection Hh as <- <-.
  - destruct (sockets st !! id) as [sk|] eqn:Hid; simpl in Hh; [|done].
    injection Hh as Hh.
    destruct (admin_join_cases st id data find_ok)
      as [[Hst _] | (s & Hd & _ & -> & _ & Heq)]; rewrite Hh in *; simpl in *.
    + left. by rewrite Hst.
    + injection Heq as -> ->. simpl. destruct (decide (c = id)) as [->|].
      * right; right; left. exists data, s. by rewrite lookup_insert_eq.
      * left. by rewrite lookup_insert_ne.
  - destruct (sockets st !! id) as [sk|] eqn:Hid; simpl in Hh; [|done].
    injection Hh as Hh.
    destruct (student_join_cases st id data find_ok)
      as [[Hst _] | (s & Hd & _ & -> & _ & Heq)]; rewrite Hh in *; simpl in *.
    + left. by rewrite Hst.
    + injection Heq as -> ->. simpl. destruct (decide (c = id)) as [->|].
      * right; right; right; left. exists data, s. by rewrite lookup_insert_eq.
      * left. by rewrite lookup_insert_ne.
  - destruct (sockets st !! id); simpl in Hh; [|done]. unfold offer, forward in Hh.
    left. by case_match; injection Hh as <- <-.
  - destruct (sockets st !! id); simpl in Hh; [|done]. unfold answer, forward in Hh.
    left. by case_match; injection Hh as <- <-.
  - destruct (sockets st !! id); simpl in Hh; [|done]. unfold ice_candidate in Hh.
    left. by repeat case_match; injection Hh as <- <-.
  - destruct (sockets st !! id) as [sk|] eqn:Hid; simpl in Hh; [|done].
    unfold admin_end_session in Hh.
    destruct (not_authorized sk (payload !! "unique_id"));
      [left; by injection Hh as <- <-|].
    destruct update_ok; simpl in Hh; [|left; by injection Hh as <- <-].
    destruct fetch_ok; simpl in Hh; [|left; by injection Hh as <- <-].
    injection Hh as <- <-. simpl. destruct (decide (c = id)) as [->|].
    + do 4 right. exists payload. rewrite lookup_insert_eq.
      by assert (sk = sock) as -> by congruence.
    + left. by rewrite lookup_insert_ne.
  - destruct (sockets st !! id) as [sk|] eqn:Hid; simpl in Hh; [|done].
    injection Hh as Hh. apply (f_equal fst) in Hh as Hst; simpl in Hst.
    rewrite <- Hst, disconnect_sockets. destruct (decide (c = id)) as [->|].
    + right; left. exists update_ok. by rewrite lookup_delete_eq.
    + left. by rewrite lookup_delete_ne.
Qed.

Lemma binding_changes_only_by_own_request_witness :
  let ev := AdminJoin "V" (session_payload "S2") true in
  let sock := {| role := Some student; unique_id := Some "S1" |} in
  let st' := after two_sessions_st ev in
  let out := output two_sessions_st ev in
  sockets st' !! "V" = Some sock
  ∨ (∃ ok, ev = Disconnect "V" ok ∧ sockets st' !! "V" = None)
  ∨ (∃ data s, ev = AdminJoin "V" data true ∧ data !! "unique_id" = Some s ∧
        reply out = AckOk (Some "V") ∧
        sockets st' !! "V" = Some {| role := Some admin; unique_id := Some s |})
  ∨ (∃ data s, ev = StudentJoin "V" data true ∧ data !! "unique_id" = Some s ∧
        reply out = AckOk (Some "V") ∧
        sockets st' !! "V" = Some {| role := Some student; unique_id := Some s |})
  ∨ (∃ payload, ev = AdminEndSession "V" payload true true ∧
        reply out = AckOk None ∧
        sockets st' !! "V" = Some {| role := role sock; unique_id := None |}).
Proof.
  intros ev sock st' out.
  apply (binding_changes_only_by_own_request two_sessions_st ev st' out "V" sock).
  - vm_compute; reflexivity.
  - vm_compute; reflexivity.
Defined.

(** C2, as stated, fails: V is bound as viewer to S1, stays connected, S1 is
    not ended, and a later [admin-join] of V for S2 rebinds V to another
    session and another role. *)
Lemma rebinding_by_later_join :
  let st' := after two_sessions_st (AdminJoin "V" (session_payload "S2") true) in
  reachable two_sessions_st ∧
  sockets two_sessions_st !! "V"
    = Some {| role := Some student; unique_id := Some "S1" |} ∧
  handle two_sessions_st (AdminJoin "V" (session_payload "S2") true)
    = Some (st', silent (AckOk (Some "V"))) ∧
  sockets st' !! "V" = Some {| role := Some admin; unique_id := Some "S2" |} ∧
  live st' "S1".
Proof.
  split; [apply two_sessions_reachable|].
  split; [vm_compute; reflexivity|].
  split; [vm_compute; reflexivity|].
  split; [vm_compute; reflexivity|].
  eexists. split; vm_compute; reflexivity.
Qed.

(** ** How many connections a session can bind *)

Lemma elem_of_bound_as st r s c :
  c ∈ bound_as st r s ↔
  ∃ sock, sockets st !! c = Some sock ∧ role sock = Some r ∧ unique_id sock = Some s.
Proof.
  unfold bound_as. rewrite elem_of_dom. unfold is_Some.
  setoid_rewrite map_lookup_filter_Some. simpl. naive_solver.
Qed.

(** A join on a stored session succeeds whatever the socket was bound to. *)
Lemma admin_join_ok st c sock s :
  sockets st !! c = Some sock → s ≠ "" → is_Some (db st !! s) →
  handle st (AdminJoin c (session_payload s) true)
    = Some (bind st c admin s, silent (AckOk (Some c))).
Proof.
  intros Hc Hne [d Hd]. simpl. rewrite Hc; simpl. unfold admin_join, session_payload.
  rewrite lookup_singleton_eq, (proj2 (truthy_Some s) Hne); simpl.
  unfold Session.findOne. by rewrite Hd.
Qed.

Lemma student_join_ok st c sock s :
  sockets st !! c = Some sock → s ≠ "" → live st s →
  ∃ out, handle st (StudentJoin c (session_payload s) true)
           = Some (bind st c student s, out) ∧ reply out = AckOk (Some c).
Proof.
  intros Hc Hne (d & Hd & Hact). simpl. rewrite Hc; simpl.
  unfold student_join, session_payload.
  rewrite lookup_singleton_eq, (proj2 (truthy_Some s) Hne); simpl.
  unfold Session.findOneActive. rewrite Hd, Hact. eauto.
Qed.

(** One more connection joins session [s] with role [r]. *)
Lemma one_more_bound st s r :
  reachable st → s ≠ "" → live st s →
  ∃ st', reachable st' ∧ live st' s ∧
    size (bound_as st' r s) = S (size (bound_as st r s)) ∧
    ∀ r', r' ≠ r → bound_as st' r' s = bound_as st r' s.
Proof.
  intros Hreach Hne Hlive.
  set (c := fresh (dom (sockets st) ∪ dom (db st) ∪ {[""]})).
  assert (c ∉ dom (sockets st) ∪ dom (db st) ∪ {[""]}) as Hc by apply is_fresh.
  assert (fresh_id st c = true) as Hf.
  { apply fresh_id_spec. rewrite <- !not_elem_of_dom. set_solver. }
  pose (st1 := (connection st c).1).
  assert (handle st (Connection c) = Some (st1, silent NoReply)) as H1.
  { simpl. by rewrite Hf. }
  assert (sockets st1 !! c = Some {| role := None; unique_id := None |}) as Hc1.
  { simpl. by rewrite lookup_insert_eq. }
  assert (live st1 s) as Hlive1 by exact Hlive.
  assert (∃ out, handle st1 (match r with
                             | admin => AdminJoin c (session_payload s) true
                             | student => StudentJoin c (session_payload s) true
                             end) = Some (bind st1 c r s, out)) as [out H2].
  { destruct r.
    - eexists. eapply admin_join_ok; eauto. destruct Hlive1 as (d & ? & _); eauto.
    - edestruct student_join_ok as (out & ? & _); eauto. }
  exists (bind st1 c r s). split_and!.
  - eapply reachable_step; [|exact H2]. eapply reachable_step; [exact Hreach | exact H1].
  - exact Hlive.
  - assert (bound_as (bind st1 c r s) r s = {[c]} ∪ bound_as st r s) as ->.
    { apply set_eq. intros x.
      rewrite elem_of_union, elem_of_singleton, !elem_of_bound_as. simpl.
      destruct (decide (x = c)) as [->|].
      - rewrite lookup_insert_eq. split; [by left|]. intros _. eauto.
      - rewrite !lookup_insert_ne by done. split; [by right|]. by intros [?|?]. }
    rewrite size_union, size_singleton; [done|].
    apply disjoint_singleton_l. rewrite elem_of_bound_as. intros (sk & Hsk & _).
    apply Hc. apply elem_of_union_l, elem_of_union_l. apply elem_of_dom. eauto.
  - intros r' Hr'. apply set_eq. intros x. rewrite !elem_of_bound_as. simpl.
    destruct (decide (x = c)) as [->|].
    + rewrite lookup_insert_eq. split.
      * intros (sk & [= <-] & [= ?] & _). done.
      * intros (sk & Hsk & _). exfalso.
        apply Hc. apply elem_of_union_l, elem_of_union_l. apply elem_of_dom. eauto.
    + by rewrite !lookup_insert_ne.
Qed.

(** C3, as amended: nothing bounds the number of presenters of a session.
    For every session id [s] and all numbers [n] and [m] there is a
    reachable state in which session [s] is active, exactly [n] connections
    are bound to it with role presenter and exactly [m] with role viewer. *)
Theorem any_number_of_presenters_and_viewers s n m :
  s ≠ "" →
  ∃ st, reachable st ∧ live st s ∧
    size (bound_as st admin s) = n ∧ size (bound_as st student s) = m.
Proof.
  intros Hne.
  assert (∃ st, reachable st ∧ live st s ∧
            size (bound_as st admin s) = 0 ∧ size (bound_as st student s) = 0)
    as Hbase.
  { exists (post_session init "http" "example.org" s true).1. split_and!.
    - assert (fresh_id init s = true) as Hf.
      { apply fresh_id_spec. split_and!; [done | apply lookup_empty..]. }
      apply (reachable_step init (PostSession "http" "example.org" s true) _
               (silent (Json s ("http://example.org/session/" +:+ s))));
        [apply reachable_init|].
      unfold handle. by rewrite Hf.
    - eexists. simpl. unfold Session.save. simpl. by rewrite lookup_insert_eq.
    - apply size_empty_iff. intros x. rewrite elem_of_bound_as. simpl.
      rewrite elem_of_empty. split; [|done].
      intros (sk & Hsk & _). by rewrite lookup_empty in Hsk.
    - apply size_empty_iff. intros x. rewrite elem_of_bound_as. simpl.
      rewrite elem_of_empty. split; [|done].
      intros (sk & Hsk & _). by rewrite lookup_empty in Hsk. }
  assert (∃ st, reachable st ∧ live st s ∧
            size (bound_as st admin s) = n ∧ size (bound_as st student s) = 0)
    as Hadmins.
  { induction n as [|n (st & Hreach & Hlive & Ha & Hs)]; [exact Hbase|].
    destruct (one_more_bound st s admin Hreach Hne Hlive)
      as (st' & Hreach' & Hlive' & Hsize & Hother).
    exists st'. split_and!; [done | done | by rewrite Hsize, Ha |].
    by rewrite (Hother student). }
  induction m as [|m (st & Hreach & Hlive & Ha & Hs)]; [exact Hadmins|].
  destruct (one_more_bound st s student Hreach Hne Hlive)
    as (st' & Hreach' & Hlive' & Hsize & Hother).
  exists st'. split_and!; [done | done | | by rewrite Hsize, Hs].
  by rewrite (Hother admin).
Qed.

Lemma any_number_of_presenters_and_viewers_witness :
  ∃ st, reachable st ∧ live st "S" ∧
    size (bound_as st admin "S") = 2 ∧ size (bound_as st student "S") = 3.
Proof. apply (any_number_of_presenters_and_viewers "S" 2 3). discriminate. Defined.

(** C3, as stated, fails: P and Q are two connections bound to session S
    with role presenter in a reachable state. *)
Lemma two_presenters_of_one_session :
  reachable two_presenters_st ∧
  sockets two_presenters_st !! "P"
    = Some {| role := Some admin; unique_id := Some "S" |} ∧
  sockets two_presenters_st !! "Q"
    = Some {| role := Some admin; unique_id := Some "S" |} ∧
  "P" ≠ "Q" ∧
  bound_as two_presenters_st admin "S" = {[ "P"; "Q" ]}.
Proof.
  split; [apply two_presenters_reachable|].
  split; [vm_compute; reflexivity|].
  split; [vm_compute; reflexivity|].
  split; [discriminate | vm_compute; reflexivity].
Qed.

(** ** Ending a session *)

(** C4: when the store update of [admin-end-session] fails, the request is
    answered with StoreError and nothing else happens: nothing is emitted
    and the state (store, bindings, rooms) is the same, so that the same
    request can be sent again, and succeeds once the store answers. *)
Theorem end_session_store_failure st c sock s payload fok :
  reachable st →
  sockets st !! c = Some sock →
  role sock = Some admin → unique_id sock = Some s →
  payload !! "unique_id" = Some s →
  handle st (AdminEndSession c payload false fok)
    = Some (st, {| emitted := []; reply := AckErr StoreError |})
  ∧ ∃ st' out', handle st (AdminEndSession c payload true true) = Some (st', out')
                ∧ reply out' = AckOk None.
Proof.
  intros Hreach Hc Hr Hu Hp.
  destruct (wf_bound st (reachable_wf _ Hreach) _ _ _ Hc Hu) as [Hne _].
  assert (not_authorized sock (payload !! "unique_id") = false) as Hauth.
  { apply not_authorized_false. rewrite Hp. eauto. }
  simpl. rewrite Hc; simpl. unfold admin_end_session. rewrite Hauth; simpl.
  split; [done | eauto].
Qed.

Lemma end_session_store_failure_witness :
  handle classroom_st (AdminEndSession "P" (session_payload "S") false true)
    = Some (classroom_st, {| emitted := []; reply := AckErr StoreError |})
  ∧ ∃ st' out',
      handle classroom_st (AdminEndSession "P" (session_payload "S") true true)
        = Some (st', out')
      ∧ reply out' = AckOk None.
Proof.
  apply (end_session_store_failure classroom_st "P"
           {| role := Some admin; unique_id := Some "S" |} "S").
  - apply classroom_reachable.
  - vm_compute; reflexivity.
  - reflexivity.
  - reflexivity.
  - reflexivity.
Defined.

(** C8: [admin-end-session] is answered with Unauthorized for every
    requesting connection that is not bound as presenter to exactly the
    requested session id, and such a refusal emits nothing and leaves the
    state (active flags, bindings, rooms) as it was. *)
Theorem end_session_unauthorized st c sock payload uok fok :
  reachable st →
  sockets st !! c = Some sock →
  ¬ presenter_of sock (payload !! "unique_id") →
  handle st (AdminEndSession c payload uok fok)
    = Some (st, {| emitted := []; reply := AckErr Unauthorized |}).
Proof.
  intros Hreach Hc Hnot. simpl. rewrite Hc; simpl. unfold admin_end_session.
  destruct (not_authorized sock (payload !! "unique_id")) eqn:Hauth; [done|].
  apply not_authorized_false in Hauth as (Hr & Hu & u & Hp & Hne).
  destruct Hnot. split_and!; [done | | done]. rewrite Hu, Hp. eauto.
Qed.

Lemma end_session_unauthorized_witness :
  handle classroom_st (AdminEndSession "V" (session_payload "S") true true)
    = Some (classroom_st, {| emitted := []; reply := AckErr Unauthorized |}).
Proof.
  apply (end_session_unauthorized classroom_st "V"
           {| role := Some student; unique_id := Some "S" |}).
  - apply classroom_reachable.
  - vm_compute; reflexivity.
  - intros (Hr & _). discriminate Hr.
Defined.

(** Conversely, a presenter of the requested session is never refused as
    unauthorized. *)
Lemma end_session_authorized st c sock payload uok fok st' out :
  reachable st →
  sockets st !! c = Some sock →
  presenter_of sock (payload !! "unique_id") →
  handle st (AdminEndSession c payload uok fok) = Some (st', out) →
  reply out ≠ AckErr Unauthorized.
Proof.
  intros Hreach Hc (Hr & [u Hu] & He). simpl. rewrite Hc; simpl.
  destruct (wf_bound st (reachable_wf _ Hreach) _ _ _ Hc Hu) as [Hne _].
  assert (not_authorized sock (payload !! "unique_id") = false) as Hauth.
  { apply not_authorized_false. rewrite <- He, Hu. eauto. }
  unfold admin_end_session. rewrite Hauth.
  destruct uok, fok; simpl; intros [= <- <-]; simpl; discriminate.
Qed.

(** ** A presenter disconnects *)

Lemma difference_twice (X : gset string) c : X ∖ {[c]} ∖ {[c]} = X ∖ {[c]}.
Proof.
  apply set_eq. intros x. rewrite !elem_of_difference. tauto.
Qed.

(** C5, as amended: when a connection bound as presenter to session [s]
    disconnects and the store update succeeds, exactly one [session-ended]
    notification is emitted, addressed to exactly the members of room [s]
    that remain, and the stored active flag of [s] is false afterwards; when
    the store update fails, nothing is emitted and the store is unchanged. *)
Theorem presenter_disconnect st c sock s ok st' out :
  reachable st →
  sockets st !! c = Some sock →
  role sock = Some admin → unique_id sock = Some s →
  handle st (Disconnect c ok) = Some (st', out) →
  sockets st' !! c = None ∧
  members st' s = members st s ∖ {[c]} ∧
  if ok
  then emitted out = [ {| event := "session-ended"; message := None;
                          dest := members st' s |} ]
       ∧ ended st' s
  else emitted out = [] ∧ db st' = db st.
Proof.
  intros Hreach Hc Hr Hu.
  destruct (wf_bound st (reachable_wf _ Hreach) _ _ _ Hc Hu) as [Hne [d Hd]].
  simpl. rewrite Hc; simpl. unfold disconnect.
  rewrite Hr, Hu, (proj2 (truthy_Some s) Hne).
  rewrite (bool_decide_true (Some admin = Some admin)) by done.
  rewrite (bool_decide_false (Some admin = Some student)) by done. simpl.
  destruct ok; intros [= <- <-]; unfold socket_to, members; simpl;
    rewrite lookup_delete_eq, room_drop.
  - rewrite difference_twice. split_and!; try done.
    exists (Session.deactivate d). simpl. unfold Session.findOneAndUpdate.
    by rewrite lookup_alter_eq, Hd.
  - done.
Qed.

Lemma presenter_disconnect_witness :
  let st' := after classroom_st (Disconnect "P" true) in
  sockets st' !! "P" = None ∧
  members st' "S" = members classroom_st "S" ∖ {["P"]} ∧
  emitted (output classroom_st (Disconnect "P" true))
    = [ {| event := "session-ended"; message := None; dest := members st' "S" |} ]
  ∧ ended st' "S".
Proof.
  apply (presenter_disconnect classroom_st "P"
           {| role := Some admin; unique_id := Some "S" |} "S" true).
  - apply classroom_reachable.
  - vm_compute; reflexivity.
  - reflexivity.
  - reflexivity.
  - vm_compute; reflexivity.
Defined.

(** C5, as stated, fails when the store update of the disconnect handler
    throws: V remains in room S, no [session-ended] is emitted, and the
    session stays active. *)
Lemma silent_disconnect_on_store_failure :
  let st' := after classroom_st (Disconnect "P" false) in
  reachable classroom_st ∧
  sockets classroom_st !! "P"
    = Some {| role := Some admin; unique_id := Some "S" |} ∧
  handle classroom_st (Disconnect "P" false)
    = Some (st', {| emitted := []; reply := NoReply |}) ∧
  members st' "S" = {[ "V" ]} ∧
  live st' "S".
Proof.
  split; [apply classroom_reachable|].
  split; [vm_compute; reflexivity|].
  split; [vm_compute; reflexivity|].
  split; [vm_compute; reflexivity|].
  eexists. split; vm_compute; reflexivity.
Qed.

(** ** Relaying *)

(** The room named by something that is not a stored session id holds at
    most the connection of that name. *)
Lemma members_of_socket_room st t :
  reachable st → db st !! t = None →
  members st t = if decide (is_Some (sockets st !! t)) then {[t]} else ∅.
Proof.
  intros Hwf%reachable_wf Hdb. apply set_eq. intros x. split.
  - intros Hx. destruct (wf_members st Hwf _ _ Hx) as [Hsome [-> | [d Hd]]];
      [|congruence].
    rewrite decide_True by done. by apply elem_of_singleton.
  - case_decide as Ht; [|by rewrite elem_of_empty].
    intros ->%elem_of_singleton. by apply (wf_own st Hwf).
Qed.

(** The room of a live connection is that connection alone. *)
Lemma members_of_connection st t tsock :
  reachable st → sockets st !! t = Some tsock → members st t = {[t]}.
Proof.
  intros Hreach Ht.
  rewrite members_of_socket_room; [|done|].
  - by rewrite decide_True by eauto.
  - apply (wf_apart st (reachable_wf _ Hreach)). eauto.
Qed.

(** C6, as amended. For an [offer] or [answer] request of a connection [c]:
    the request fails with MissingTarget exactly when its [to] field is
    falsy (absent or empty), and then nothing is emitted; otherwise it is
    acknowledged ok and the payload extended with [from = c] is emitted once,
    to the members of the channel room named [to] and to nobody else. When
    [to] is not the id of a stored session, that room is the connection of
    that id alone if it is connected, and empty if it is not (delivery is
    then a no-op). *)
Theorem directed_forward st c sock kind ev payload :
  reachable st →
  sockets st !! c = Some sock →
  (kind = "offer" ∧ ev = Offer c payload) ∨ (kind = "answer" ∧ ev = Answer c payload) →
  ∃ out,
    handle st ev = Some (st, out) ∧
    (reply out = AckErr MissingTarget ↔ truthy (payload !! "to") = false) ∧
    (truthy (payload !! "to") = false → emitted out = []) ∧
    (∀ t, payload !! "to" = Some t → t ≠ "" →
       reply out = AckOk None ∧
       emitted out = [ {| event := kind; message := Some (<["from" := c]> payload);
                          dest := members st t |} ] ∧
       (db st !! t = None →
        members st t = if decide (is_Some (sockets st !! t)) then {[t]} else ∅)).
Proof.
  intros Hreach Hc Hev.
  assert (handle st ev = Some (forward kind st c payload)) as ->.
  { destruct Hev as [[-> ->] | [-> ->]]; simpl; by rewrite Hc. }
  unfold forward. destruct (truthy (payload !! "to")) eqn:Ht; simpl.
  - apply truthy_inv in Ht as (t & Hp & Hne). rewrite Hp; simpl.
    eexists. split; [reflexivity|]. simpl. split_and!; [done | done |].
    intros t' [= <-] _. split_and!; [done | done |].
    by apply members_of_socket_room.
  - eexists. split; [reflexivity|]. simpl. split_and!; [done | done |].
    intros t Hp Hne. rewrite Hp in Ht. apply truthy_false in Ht as [|[= ->]]; done.
Qed.

Lemma directed_forward_witness :
  ∃ out,
    handle classroom_st (Offer "P" {[ "to" := "V"; "sdp" := "v=0" ]})
      = Some (classroom_st, out) ∧
    (reply out = AckErr MissingTarget ↔
       truthy (({[ "to" := "V"; "sdp" := "v=0" ]} : Payload) !! "to") = false) ∧
    (truthy (({[ "to" := "V"; "sdp" := "v=0" ]} : Payload) !! "to") = false →
     emitted out = []) ∧
    (∀ t, ({[ "to" := "V"; "sdp" := "v=0" ]} : Payload) !! "to" = Some t → t ≠ "" →
       reply out = AckOk None ∧
       emitted out = [ {| event := "offer";
                          message := Some (<["from" := "P"]> {[ "to" := "V"; "sdp" := "v=0" ]});
                          dest := members classroom_st t |} ] ∧
       (db classroom_st !! t = None →
        members classroom_st t =
          if decide (is_Some (sockets classroom_st !! t)) then {[t]} else ∅)).
Proof.
  apply (directed_forward classroom_st "P"
           {| role := Some admin; unique_id := Some "S" |}).
  - apply classroom_reachable.
  - vm_compute; reflexivity.
  - left. split; reflexivity.
Defined.

(** C6, as stated, fails: the [to] field may name a session room. V sends an
    offer whose target is the session id S; the request is acknowledged ok
    and the message is delivered to both P and V, neither of which is the
    named target. *)
Lemma offer_to_session_room :
  reachable classroom_st ∧
  handle classroom_st (Offer "V" {[ "to" := "S"; "sdp" := "v=0" ]})
    = Some (classroom_st,
            {| emitted := [ {| event := "offer";
                               message := Some (<["from" := "V"]> {[ "to" := "S"; "sdp" := "v=0" ]});
                               dest := {[ "P"; "V" ]} |} ];
               reply := AckOk None |}) ∧
  "P" ≠ "S" ∧ "V" ≠ "S" ∧ "P" ≠ "V".
Proof.
  split; [apply classroom_reachable|].
  split; [vm_compute; reflexivity|].
  split_and!; discriminate.
Qed.

(** C9: directed forwarding looks at neither the role nor the binding of the
    sender (nor of the target). Whatever the socket [sock] of the sender
    holds, an [offer] or [answer] whose [to] field is the id of a connected
    socket [t] is acknowledged ok and delivered, extended with [from = c], to
    [t]. *)
Theorem forward_needs_no_binding st c sock t tsock kind ev payload :
  reachable st →
  sockets st !! c = Some sock →
  sockets st !! t = Some tsock →
  payload !! "to" = Some t →
  (kind = "offer" ∧ ev = Offer c payload) ∨ (kind = "answer" ∧ ev = Answer c payload) →
  handle st ev
    = Some (st, {| emitted := [ {| event := kind; message := Some (<["from" := c]> payload);
                                   dest := {[t]} |} ];
                   reply := AckOk None |}).
Proof.
  intros Hreach Hc Ht Hp Hev.
  assert (handle st ev = Some (forward kind st c payload)) as ->.
  { destruct Hev as [[-> ->] | [-> ->]]; simpl; by rewrite Hc. }
  assert (t ≠ "") as Hne by (apply (wf_id st (reachable_wf _ Hreach)); eauto).
  unfold forward, io_to. rewrite Hp, (proj2 (truthy_Some t) Hne); simpl.
  by rewrite (members_of_connection st t tsock).
Qed.

Lemma forward_needs_no_binding_witness :
  handle visitor_st (Answer "W" {[ "to" := "P"; "sdp" := "v=0" ]})
    = Some (visitor_st,
            {| emitted := [ {| event := "answer";
                               message := Some (<["from" := "W"]> {[ "to" := "P"; "sdp" := "v=0" ]});
                               dest := {[ "P" ]} |} ];
               reply := AckOk None |}).
Proof.
  apply (forward_needs_no_binding visitor_st "W"
           {| role := None; unique_id := None |} "P"
           {| role := Some admin; unique_id := Some "S" |}).
  - apply (run_reachable init (classroom ++ [Connection "W"]));
      [constructor | vm_compute; reflexivity].
  - vm_compute; reflexivity.
  - vm_compute; reflexivity.
  - reflexivity.
  - right. split; reflexivity.
Defined.

(** C7: an [ice-candidate] request without a usable [to] field, sent by a
    connection [c]. If [c] is bound to a session [s], the request is
    acknowledged ok and the candidate extended with [from = c] is emitted
    once, to exactly the members of room [s] other than [c]; if [c] has no
    bound session, the request fails with Unbound and nothing is emitted. *)
Theorem ice_candidate_broadcast st c sock payload :
  reachable st →
  sockets st !! c = Some sock →
  truthy (payload !! "to") = false →
  handle st (IceCandidate c payload) =
    Some (st,
          match unique_id sock with
          | Some s =>
              {| emitted := [ {| event := "ice-candidate";
                                 message := Some (<["from" := c]> payload);
                                 dest := members st s ∖ {[c]} |} ];
                 reply := AckOk None |}
          | None => {| emitted := []; reply := AckErr Unbound |}
          end).
Proof.
  intros Hreach Hc Hto. simpl. rewrite Hc; simpl. unfold ice_candidate.
  rewrite Hto. destruct (unique_id sock) as [s|] eqn:Hu; [|done].
  destruct (wf_bound st (reachable_wf _ Hreach) _ _ _ Hc Hu) as [Hne _].
  by rewrite (proj2 (truthy_Some s) Hne).
Qed.

Lemma ice_candidate_broadcast_witness :
  handle classroom_st (IceCandidate "V" {[ "candidate" := "udp 1" ]}) =
    Some (classroom_st,
          {| emitted := [ {| event := "ice-candidate";
                             message := Some (<["from" := "V"]> {[ "candidate" := "udp 1" ]});
                             dest := members classroom_st "S" ∖ {["V"]} |} ];
             reply := AckOk None |}).
Proof.
  apply (ice_candidate_broadcast classroom_st "V"
           {| role := Some student; unique_id := Some "S" |}).
  - apply classroom_reachable.
  - vm_compute; reflexivity.
  - reflexivity.
Defined.

(** The state after an event, from the equation of its handler. *)
Ltac state_of H :=
  match type of H with
  | Some ?X = Some (?st', _) =>
      assert (st' = X.1) as -> by (apply (inj Some) in H; by rewrite H); clear H
  end.

(** A room named after a stored session gets members through join requests
    that name the session, and through nothing else. *)
Lemma stored_step st ev st' out s :
  handle st ev = Some (st', out) → is_Some (db st !! s) → is_Some (db st' !! s).
Proof.
  intros [Heq | [(d' & Hfresh & _ & Heq) | (u & Heq)]]%handle_db [d Hd]; rewrite Heq;
    unfold Session.save, Session.findOneAndUpdate.
  - eauto.
  - rewrite lookup_insert_ne; [eauto | congruence].
  - destruct (decide (u = s)) as [->|].
    + rewrite lookup_alter_eq, Hd. eauto.
    + rewrite lookup_alter_ne by done. eauto.
Qed.

Lemma room_stays_empty st ev st' out s :
  handle st ev = Some (st', out) →
  is_Some (db st !! s) → joins s ev = false →
  members st s = ∅ → members st' s = ∅.
Proof.
  intros Hh Hdb Hj Hroom. destruct ev; simpl in Hh, Hj.
  - destruct (fresh_id st id) eqn:Hf; [|done].
    apply fresh_id_spec in Hf as (_ & _ & Hd). state_of Hh.
    unfold members; simpl. rewrite room_join. case_decide as Hs; [|done].
    subst id. rewrite Hd in Hdb. by destruct Hdb.
  - destruct (fresh_id st uuid); [|done]. state_of Hh. unfold post_session.
    by destruct save_ok.
  - destruct (sockets st !! id); simpl in Hh; [|done]. state_of Hh.
    apply bool_decide_eq_false in Hj.
    destruct (admin_join_cases st id data find_ok)
      as [[Hst _] | (u & Hu & _ & _ & _ & Heq)]; [by rewrite Hst|].
    rewrite Heq. unfold members; simpl. rewrite room_join.
    case_decide as Hs; [congruence | done].
  - destruct (sockets st !! id); simpl in Hh; [|done]. state_of Hh.
    apply bool_decide_eq_false in Hj.
    destruct (student_join_cases st id data find_ok)
      as [[Hst _] | (u & Hu & _ & _ & _ & Heq)]; [by rewrite Hst|].
    rewrite Heq. unfold members; simpl. rewrite room_join.
    case_decide as Hs; [congruence | done].
  - destruct (sockets st !! id); simpl in Hh; [|done]. state_of Hh.
    unfold offer, forward. by case_match.
  - destruct (sockets st !! id); simpl in Hh; [|done]. state_of Hh.
    unfold answer, forward. by case_match.
  - destruct (sockets st !! id); simpl in Hh; [|done]. state_of Hh.
    unfold ice_candidate. by repeat case_match.
  - destruct (sockets st !! id); simpl in Hh; [|done]. state_of Hh.
    unfold admin_end_session. repeat case_match; try done.
    unfold members; simpl. rewrite room_leave_all_of. by case_decide.
  - destruct (sockets st !! id) as [sock|]; simpl in Hh; [|done]. state_of Hh.
    assert (members (disconnect st id sock update_ok).1 s = members st s ∖ {[id]}) as ->.
    { unfold disconnect, members. repeat case_match; simplify_eq; simpl; apply room_drop. }
    rewrite Hroom. apply set_eq. intros x.
    rewrite elem_of_difference, elem_of_empty. tauto.
Qed.

Lemma room_stays_empty_run st evs st' s :
  run st evs = Some st' →
  is_Some (db st !! s) → Forall (λ ev, joins s ev = false) evs →
  members st s = ∅ → members st' s = ∅.
Proof.
  revert st. induction evs as [|ev evs IH]; simpl; intros st.
  - by intros [= <-].
  - destruct (handle st ev) as [[st1 out]|] eqn:Hh; [|done].
    intros Hrun Hdb [Hj Hjs]%Forall_cons Hroom. apply (IH st1); [done | | done |].
    + by eapply stored_step.
    + by eapply room_stays_empty.
Qed.

(** C10, as amended: a successful [admin-end-session] clears the session id
    of the requesting presenter only. Every other connection keeps its role
    and session id although room [s] is emptied. As long as such a former
    viewer [v] keeps that binding, its [ice-candidate] without target is
    acknowledged ok, not refused with Unbound, and is addressed to the other
    connections then in room [s]: to nobody for as long as no join request
    has named the session again. *)
Theorem end_session_keeps_viewer_bindings st c payload uok fok st1 out1 s :
  reachable st →
  handle st (AdminEndSession c payload uok fok) = Some (st1, out1) →
  reply out1 = AckOk None →
  payload !! "unique_id" = Some s →
  (∃ sock, sockets st !! c = Some sock ∧
           sockets st1 !! c = Some {| role := role sock; unique_id := None |}) ∧
  (∀ v, v ≠ c → sockets st1 !! v = sockets st !! v) ∧
  members st1 s = ∅ ∧
  (∀ evs st2 v vsock payload',
     run st1 evs = Some st2 →
     sockets st2 !! v = Some vsock → unique_id vsock = Some s →
     truthy (payload' !! "to") = false →
     handle st2 (IceCandidate v payload')
       = Some (st2, {| emitted := [ {| event := "ice-candidate";
                                       message := Some (<["from" := v]> payload');
                                       dest := members st2 s ∖ {[v]} |} ];
                       reply := AckOk None |}) ∧
     (Forall (λ ev, joins s ev = false) evs → members st2 s ∖ {[v]} = ∅)).
Proof.
  intros Hreach Hend Hok Hs.
  destruct (end_session_ok _ _ _ _ _ _ _ Hend Hok)
    as (sock & s' & Hc & Hrole & Hu & Hp & Hne & -> & -> & Hst1 & _).
  assert (s' = s) as -> by congruence.
  destruct (wf_bound st (reachable_wf _ Hreach) _ _ _ Hc Hu) as [_ [d Hd]].
  assert (is_Some (db st1 !! s)) as Hdb1.
  { rewrite Hst1; simpl. unfold Session.findOneAndUpdate.
    rewrite lookup_alter_eq, Hd. eauto. }
  assert (members st1 s = ∅) as Hroom.
  { rewrite Hst1. unfold members; simpl. by rewrite room_leave_all_of, decide_True. }
  assert (∀ v, v ≠ c → sockets st1 !! v = sockets st !! v) as Hothers.
  { intros v Hv. rewrite Hst1; simpl. by rewrite lookup_insert_ne. }
  split_and!.
  - exists sock. rewrite Hst1; simpl. by rewrite lookup_insert_eq.
  - exact Hothers.
  - exact Hroom.
  - intros evs st2 v vsock payload' Hrun Hvs Hvu Hto. split.
    + unfold handle. rewrite Hvs. simpl. unfold ice_candidate, socket_to, stamp.
      by rewrite Hto, Hvu, (proj2 (truthy_Some s) Hne).
    + intros Hjs. rewrite (room_stays_empty_run _ _ _ _ Hrun Hdb1 Hjs Hroom).
      apply set_eq. intros x. rewrite elem_of_difference, elem_of_empty. tauto.
Qed.

Lemma end_session_keeps_viewer_bindings_witness :
  (∃ sock, sockets classroom_st !! "P" = Some sock ∧
           sockets dismissed_st !! "P" = Some {| role := role sock; unique_id := None |}) ∧
  (∀ v, v ≠ "P" → sockets dismissed_st !! v = sockets classroom_st !! v) ∧
  members dismissed_st "S" = ∅ ∧
  (∀ evs st2 v vsock payload',
     run dismissed_st evs = Some st2 →
     sockets st2 !! v = Some vsock → unique_id vsock = Some "S" →
     truthy (payload' !! "to") = false →
     handle st2 (IceCandidate v payload')
       = Some (st2, {| emitted := [ {| event := "ice-candidate";
                                       message := Some (<["from" := v]> payload');
                                       dest := members st2 "S" ∖ {[v]} |} ];
                       reply := AckOk None |}) ∧
     (Forall (λ ev, joins "S" ev = false) evs → members st2 "S" ∖ {[v]} = ∅)).
Proof.
  apply (end_session_keeps_viewer_bindings classroom_st "P" (session_payload "S")
           true true dismissed_st
           (output classroom_st (AdminEndSession "P" (session_payload "S") true true))
           "S").
  - apply classroom_reachable.
  - vm_compute; reflexivity.
  - vm_compute; reflexivity.
  - reflexivity.
Defined.

(** The former viewer V of the dismissed classroom, concretely. *)
Example former_viewer_ice_candidate :
  sockets dismissed_st !! "V"
    = Some {| role := Some student; unique_id := Some "S" |} ∧
  handle dismissed_st (IceCandidate "V" {[ "candidate" := "udp 1" ]})
    = Some (dismissed_st,
            {| emitted := [ {| event := "ice-candidate";
                               message := Some (<["from" := "V"]> {[ "candidate" := "udp 1" ]});
                               dest := ∅ |} ];
               reply := AckOk None |}).
Proof. split; vm_compute; reflexivity. Qed.

(** C10, as stated, fails: the candidate of a former viewer need not be
    addressed to nobody. P ends session S, which dismisses V from the room
    while V stays bound to S; then a new connection Q joins the ended
    session as presenter. The next [ice-candidate] without target from V is
    acknowledged ok and delivered to Q. *)
Lemma former_viewer_reaches_a_new_presenter :
  reachable classroom_st ∧
  handle classroom_st (AdminEndSession "P" (session_payload "S") true true)
    = Some (dismissed_st,
            {| emitted := [ {| event := "session-ended"; message := None;
                               dest := {[ "V" ]} |} ];
               reply := AckOk None |}) ∧
  run dismissed_st [ Connection "Q"; AdminJoin "Q" (session_payload "S") true ]
    = Some reopened_st ∧
  sockets reopened_st !! "V"
    = Some {| role := Some student; unique_id := Some "S" |} ∧
  handle reopened_st (IceCandidate "V" {[ "candidate" := "udp 1" ]})
    = Some (reopened_st,
            {| emitted := [ {| event := "ice-candidate";
                               message := Some (<["from" := "V"]> {[ "candidate" := "udp 1" ]});
                               dest := {[ "Q" ]} |} ];
               reply := AckOk None |}).
Proof.
  split; [apply classroom_reachable|].
  split_and!; vm_compute; reflexivity.
Qed.

(** * Further properties of the server *)

(** ** Creating and joining sessions *)

Lemma post_session_ok st proto host uuid st1 out1 :
  handle st (PostSession proto host uuid true) = Some (st1, out1) →
  uuid ≠ "" ∧ db st !! uuid = None ∧
  st1 = with_db st (Session.save
          (Session.new "admin" uuid (proto +:+ "://" +:+ host +:+ "/session/" +:+ uuid))
          (db st)) ∧
  out1 = silent (Json uuid (proto +:+ "://" +:+ host +:+ "/session/" +:+ uuid)).
Proof.
  simpl. destruct (fresh_id st uuid) eqn:Hf; [|done].
  apply fresh_id_spec in Hf as (Hne & _ & Hd). by intros [= <- <-].
Qed.

(** X1. A session that [POST /api/session] has just stored can be joined in
    either role: the route answers with the id and the share URL, the
    session is active, and both [admin-join] and [student-join] with that id
    succeed for any connected socket. *)
Theorem created_session_admits_joins st proto host uuid st1 out1 c sock :
  handle st (PostSession proto host uuid true) = Some (st1, out1) →
  sockets st !! c = Some sock →
  reply out1 = Json uuid (proto +:+ "://" +:+ host +:+ "/session/" +:+ uuid) ∧
  live st1 uuid ∧
  handle st1 (AdminJoin c (session_payload uuid) true)
    = Some (bind st1 c admin uuid, silent (AckOk (Some c))) ∧
  ∃ out, handle st1 (StudentJoin c (session_payload uuid) true)
           = Some (bind st1 c student uuid, out) ∧ reply out = AckOk (Some c).
Proof.
  intros (Hne & Hd & -> & ->)%post_session_ok Hc.
  assert (live (with_db st (Session.save
            (Session.new "admin" uuid (proto +:+ "://" +:+ host +:+ "/session/" +:+ uuid))
            (db st))) uuid) as Hlive.
  { eexists. simpl. unfold Session.save. simpl. by rewrite lookup_insert_eq. }
  split_and!; [done | done | |].
  - eapply admin_join_ok; [exact Hc | done |]. destruct Hlive as (d & ? & _). eauto.
  - eapply student_join_ok; [exact Hc | done | done].
Qed.

Lemma created_session_admits_joins_witness :
  let st := after init (Connection "P") in
  let st1 := after st (PostSession "https" "example.org" "S" true) in
  reply (output st (PostSession "https" "example.org" "S" true))
    = Json "S" "https://example.org/session/S" ∧
  live st1 "S" ∧
  handle st1 (AdminJoin "P" (session_payload "S") true)
    = Some (bind st1 "P" admin "S", silent (AckOk (Some "P"))) ∧
  ∃ out, handle st1 (StudentJoin "P" (session_payload "S") true)
           = Some (bind st1 "P" student "S", out) ∧ reply out = AckOk (Some "P").
Proof.
  intros st st1.
  apply (created_session_admits_joins st "https" "example.org" "S" st1
           (output st (PostSession "https" "example.org" "S" true)) "P"
           {| role := None; unique_id := None |}).
  - vm_compute; reflexivity.
  - vm_compute; reflexivity.
Defined.

Lemma join_unknown st c sock data s :
  sockets st !! c = Some sock → data !! "unique_id" = Some s → s ≠ "" →
  db st !! s = None →
  handle st (AdminJoin c data true) = Some (st, silent (AckErr NotFoundAdmin)) ∧
  handle st (StudentJoin c data true) = Some (st, silent (AckErr NotFound)).
Proof.
  intros Hc Hd Hne Hdb. simpl. rewrite Hc; simpl.
  unfold admin_join, student_join, Session.findOne, Session.findOneActive.
  by rewrite Hd, (proj2 (truthy_Some s) Hne); simpl; rewrite Hdb.
Qed.

(** When the save of [POST /api/session] fails, the route answers with
    status 500, the state is unchanged, and the generated id names no
    session: joining with it is refused in either role. *)
Lemma failed_creation_leaves_no_session st proto host uuid st1 out1 c sock :
  handle st (PostSession proto host uuid false) = Some (st1, out1) →
  sockets st !! c = Some sock →
  st1 = st ∧ out1 = silent (Status500 CreateStoreError) ∧
  handle st1 (AdminJoin c (session_payload uuid) true)
    = Some (st1, silent (AckErr NotFoundAdmin)) ∧
  handle st1 (StudentJoin c (session_payload uuid) true)
    = Some (st1, silent (AckErr NotFound)).
Proof.
  simpl. destruct (fresh_id st uuid) eqn:Hf; [|done].
  apply fresh_id_spec in Hf as (Hne & _ & Hd). intros [= <- <-] Hc.
  split_and!; [done | done | |];
    eapply (join_unknown st c sock (session_payload uuid) uuid); eauto;
    apply lookup_singleton_eq.
Qed.

Lemma failed_creation_leaves_no_session_witness :
  let st := after init (Connection "P") in
  let st1 := after st (PostSession "https" "example.org" "S" false) in
  st1 = st ∧
  output st (PostSession "https" "example.org" "S" false)
    = silent (Status500 CreateStoreError) ∧
  handle st1 (AdminJoin "P" (session_payload "S") true)
    = Some (st1, silent (AckErr NotFoundAdmin)) ∧
  handle st1 (StudentJoin "P" (session_payload "S") true)
    = Some (st1, silent (AckErr NotFound)).
Proof.
  intros st st1.
  apply (failed_creation_leaves_no_session st "https" "example.org" "S" st1
           (output st (PostSession "https" "example.org" "S" false)) "P"
           {| role := None; unique_id := None |}).
  - vm_compute; reflexivity.
  - vm_compute; reflexivity.
Defined.

(** X2. A join request whose session id is missing or empty is refused with
    'Missing session id.' before the store is consulted: the answer is the
    same whether or not the store would answer, and nothing changes. *)
Theorem join_without_session_id st c sock data find_ok :
  sockets st !! c = Some sock →
  truthy (data !! "unique_id") = false →
  handle st (AdminJoin c data find_ok)
    = Some (st, silent (AckErr MissingSessionId)) ∧
  handle st (StudentJoin c data find_ok)
    = Some (st, silent (AckErr MissingSessionId)).
Proof.
  intros Hc Hd. simpl. rewrite Hc; simpl. unfold admin_join, student_join.
  by rewrite Hd.
Qed.

Lemma join_without_session_id_witness :
  handle classroom_st (AdminJoin "V" {[ "unique_id" := "" ]} false)
    = Some (classroom_st, silent (AckErr MissingSessionId)) ∧
  handle classroom_st (StudentJoin "V" {[ "unique_id" := "" ]} false)
    = Some (classroom_st, silent (AckErr MissingSessionId)).
Proof.
  apply (join_without_session_id classroom_st "V"
           {| role := Some student; unique_id := Some "S" |}).
  - vm_compute; reflexivity.
  - reflexivity.
Defined.

(** X3. Only [student-join] filters on the active flag. A session that has been
    ended can still be joined as presenter: the request succeeds, binds the
    socket and puts it into the room, and the session stays inactive, so
    that viewers are still refused. *)
Theorem presenter_can_join_ended_session st c sock s :
  sockets st !! c = Some sock →
  ended st s → s ≠ "" →
  let st' := bind st c admin s in
  handle st (AdminJoin c (session_payload s) true)
    = Some (st', silent (AckOk (Some c))) ∧
  sockets st' !! c = Some {| role := Some admin; unique_id := Some s |} ∧
  c ∈ members st' s ∧
  ended st' s ∧
  handle st' (StudentJoin c (session_payload s) true)
    = Some (st', silent (AckErr NotFound)).
Proof.
  intros Hc Hended Hne st'.
  assert (handle st (AdminJoin c (session_payload s) true)
            = Some (st', silent (AckOk (Some c)))) as Hjoin.
  { eapply admin_join_ok; [exact Hc | done |]. destruct Hended as (d & ? & _). eauto. }
  assert (sockets st' !! c = Some {| role := Some admin; unique_id := Some s |}) as Hc'.
  { simpl. by rewrite lookup_insert_eq. }
  split_and!; [done | done | | done |].
  - unfold members, st'; simpl. rewrite room_join, decide_True by done.
    apply elem_of_union_l. by apply elem_of_singleton.
  - simpl. rewrite lookup_insert_eq; simpl. unfold student_join, session_payload.
    rewrite lookup_singleton_eq, (proj2 (truthy_Some s) Hne); simpl.
    by rewrite (findOneActive_ended st s Hended).
Qed.

Lemma presenter_can_join_ended_session_witness :
  let st' := bind dismissed_st "V" admin "S" in
  handle dismissed_st (AdminJoin "V" (session_payload "S") true)
    = Some (st', silent (AckOk (Some "V"))) ∧
  sockets st' !! "V" = Some {| role := Some admin; unique_id := Some "S" |} ∧
  "V" ∈ members st' "S" ∧
  ended st' "S" ∧
  handle st' (StudentJoin "V" (session_payload "S") true)
    = Some (st', silent (AckErr NotFound)).
Proof.
  apply (presenter_can_join_ended_session dismissed_st "V"
           {| role := Some student; unique_id := Some "S" |} "S").
  - vm_compute; reflexivity.
  - eexists. split; vm_compute; reflexivity.
  - discriminate.
Defined.

(** X4. A successful [student-join] announces the viewer to the room: exactly
    one [student-connected] message carrying the joiner's id is emitted, to
    exactly the sockets that were in the room before (the joiner excluded),
    and the joiner is a member of the room afterwards. *)
Theorem student_join_announces st v vsock data s :
  sockets st !! v = Some vsock →
  data !! "unique_id" = Some s → s ≠ "" → live st s →
  ∃ st',
    handle st (StudentJoin v data true)
      = Some (st', {| emitted := [ {| event := "student-connected";
                                      message := Some {[ "studentSocketId" := v ]};
                                      dest := members st s ∖ {[v]} |} ];
                      reply := AckOk (Some v) |}) ∧
    members st' s = {[v]} ∪ members st s ∧
    sockets st' !! v = Some {| role := Some student; unique_id := Some s |} ∧
    db st' = db st.
Proof.
  intros Hv Hd Hne (d & Hdb & Hact). exists (bind st v student s).
  split_and!.
  - simpl. rewrite Hv; simpl. unfold student_join, Session.findOneActive.
    rewrite Hd, (proj2 (truthy_Some s) Hne); simpl. rewrite Hdb, Hact.
    do 5 f_equal. unfold socket_to, members; simpl.
    rewrite room_join, decide_True by done.
    apply set_eq. intros x.
    rewrite !elem_of_difference, elem_of_union, elem_of_singleton. tauto.
  - unfold members; simpl. by rewrite room_join, decide_True.
  - simpl. by rewrite lookup_insert_eq.
  - done.
Qed.

Lemma student_join_announces_witness :
  ∃ st',
    handle classroom_st (StudentJoin "V" (session_payload "S") true)
      = Some (st', {| emitted := [ {| event := "student-connected";
                                      message := Some {[ "studentSocketId" := "V" ]};
                                      dest := members classroom_st "S" ∖ {["V"]} |} ];
                      reply := AckOk (Some "V") |}) ∧
    members st' "S" = {["V"]} ∪ members classroom_st "S" ∧
    sockets st' !! "V" = Some {| role := Some student; unique_id := Some "S" |} ∧
    db st' = db classroom_st.
Proof.
  apply (student_join_announces classroom_st "V"
           {| role := Some student; unique_id := Some "S" |}).
  - vm_compute; reflexivity.
  - reflexivity.
  - discriminate.
  - eexists. split; vm_compute; reflexivity.
Defined.

(** ** Disconnecting *)

Lemma disconnect_members st id sock ok r :
  members (disconnect st id sock ok).1 r = members st r ∖ {[id]}.
Proof.
  unfold disconnect, members.
  repeat case_match; simplify_eq; simpl; apply room_drop.
Qed.

(** X5. When a connection bound as viewer to session [s] disconnects, exactly
    one [student-disconnected] message carrying its id is emitted, to the
    other members of room [s]; the store is not touched (whether or not it
    would answer), and the socket is gone from the registry and from every
    room. *)
Theorem viewer_disconnect st c sock s ok :
  reachable st →
  sockets st !! c = Some sock →
  role sock = Some student → unique_id sock = Some s →
  ∃ st',
    handle st (Disconnect c ok)
      = Some (st', {| emitted := [ {| event := "student-disconnected";
                                      message := Some {[ "studentSocketId" := c ]};
                                      dest := members st s ∖ {[c]} |} ];
                      reply := NoReply |}) ∧
    db st' = db st ∧
    sockets st' !! c = None ∧
    ∀ r, members st' r = members st r ∖ {[c]}.
Proof.
  intros Hreach Hc Hr Hu.
  destruct (wf_bound st (reachable_wf _ Hreach) _ _ _ Hc Hu) as [Hne _].
  exists (disconnect st c sock ok).1. split_and!.
  - simpl. rewrite Hc; simpl. unfold disconnect.
    rewrite Hr, Hu, (proj2 (truthy_Some s) Hne).
    rewrite (bool_decide_false (Some student = Some admin)) by done.
    rewrite (bool_decide_true (Some student = Some student)) by done. simpl.
    unfold socket_to, members; simpl. by rewrite room_drop, difference_twice.
  - unfold disconnect. rewrite Hr.
    by rewrite (bool_decide_false (Some student = Some admin)) by done.
  - by rewrite disconnect_sockets, lookup_delete_eq.
  - intros r. apply disconnect_members.
Qed.

Lemma viewer_disconnect_witness :
  ∃ st',
    handle classroom_st (Disconnect "V" false)
      = Some (st', {| emitted := [ {| event := "student-disconnected";
                                      message := Some {[ "studentSocketId" := "V" ]};
                                      dest := members classroom_st "S" ∖ {["V"]} |} ];
                      reply := NoReply |}) ∧
    db st' = db classroom_st ∧
    sockets st' !! "V" = None ∧
    ∀ r, members st' r = members classroom_st r ∖ {["V"]}.
Proof.
  apply (viewer_disconnect classroom_st "V"
           {| role := Some student; unique_id := Some "S" |} "S" false).
  - apply classroom_reachable.
  - vm_compute; reflexivity.
  - reflexivity.
  - reflexivity.
Defined.

(** A connection without a session id (one that never joined, or a
    presenter whose own [admin-end-session] succeeded) disconnects silently:
    nothing is emitted and the store is unchanged. *)
Lemma unbound_disconnect st c sock ok :
  sockets st !! c = Some sock →
  unique_id sock = None →
  ∃ st',
    handle st (Disconnect c ok) = Some (st', {| emitted := []; reply := NoReply |}) ∧
    db st' = db st ∧
    sockets st' !! c = None ∧
    ∀ r, members st' r = members st r ∖ {[c]}.
Proof.
  intros Hc Hu. exists (disconnect st c sock ok).1. split_and!.
  - simpl. rewrite Hc; simpl. unfold disconnect. rewrite Hu; simpl.
    by rewrite !andb_false_r.
  - unfold disconnect. rewrite Hu; simpl. by rewrite !andb_false_r.
  - by rewrite disconnect_sockets, lookup_delete_eq.
  - intros r. apply disconnect_members.
Qed.

Lemma unbound_disconnect_witness :
  ∃ st',
    handle dismissed_st (Disconnect "P" true)
      = Some (st', {| emitted := []; reply := NoReply |}) ∧
    db st' = db dismissed_st ∧
    sockets st' !! "P" = None ∧
    ∀ r, members st' r = members dismissed_st r ∖ {["P"]}.
Proof.
  apply (unbound_disconnect dismissed_st "P" {| role := Some admin; unique_id := None |}).
  - vm_compute; reflexivity.
  - reflexivity.
Defined.

(** ** Ending a session: the paths the handler can take *)

Lemma authorized st c sock s (payload : Payload) :
  reachable st → sockets st !! c = Some sock →
  role sock = Some admin → unique_id sock = Some s →
  payload !! "unique_id" = Some s →
  s ≠ "" ∧ is_Some (db st !! s) ∧
  not_authorized sock (payload !! "unique_id") = false.
Proof.
  intros Hreach Hc Hr Hu Hp.
  destruct (wf_bound st (reachable_wf _ Hreach) _ _ _ Hc Hu) as [Hne Hdb].
  split_and!; [done | done |]. apply not_authorized_false. rewrite Hp. eauto.
Qed.

(** X6. The success path of [admin-end-session]: for a presenter of session [s]
    with store and channel answering, the session is flagged inactive, one
    [session-ended] message goes to the other members of room [s], the room
    is emptied while every other room is left alone, and the requester
    keeps its role but loses its session id. *)
Theorem end_session_success st c sock s payload :
  reachable st →
  sockets st !! c = Some sock →
  role sock = Some admin → unique_id sock = Some s →
  payload !! "unique_id" = Some s →
  ∃ st',
    handle st (AdminEndSession c payload true true)
      = Some (st', {| emitted := [ {| event := "session-ended"; message := None;
                                      dest := members st s ∖ {[c]} |} ];
                      reply := AckOk None |}) ∧
    ended st' s ∧
    members st' s = ∅ ∧
    (∀ r, r ≠ s → members st' r = members st r) ∧
    sockets st' !! c = Some {| role := Some admin; unique_id := None |}.
Proof.
  intros Hreach Hc Hr Hu Hp.
  destruct (authorized st c sock s payload) as (Hne & [d Hd] & Hauth); try done.
  eexists. split_and!.
  - simpl. rewrite Hc; simpl. unfold admin_end_session. rewrite Hauth, Hp. reflexivity.
  - exists (Session.deactivate d). simpl. unfold Session.findOneAndUpdate.
    by rewrite lookup_alter_eq, Hd.
  - unfold members; simpl. by rewrite room_leave_all_of, decide_True.
  - intros r Hrs. unfold members; simpl. by rewrite room_leave_all_of, decide_False.
  - simpl. by rewrite lookup_insert_eq, Hr.
Qed.

Lemma end_session_success_witness :
  ∃ st',
    handle classroom_st (AdminEndSession "P" (session_payload "S") true true)
      = Some (st', {| emitted := [ {| event := "session-ended"; message := None;
                                      dest := members classroom_st "S" ∖ {["P"]} |} ];
                      reply := AckOk None |}) ∧
    ended st' "S" ∧
    members st' "S" = ∅ ∧
    (∀ r, r ≠ "S" → members st' r = members classroom_st r) ∧
    sockets st' !! "P" = Some {| role := Some admin; unique_id := None |}.
Proof.
  apply (end_session_success classroom_st "P"
           {| role := Some admin; unique_id := Some "S" |} "S").
  - apply classroom_reachable.
  - vm_compute; reflexivity.
  - reflexivity.
  - reflexivity.
  - reflexivity.
Defined.

(** X7. When the store update succeeds but [fetchSockets] rejects, the request
    is answered with 'Failed to end session.' although the session is
    already flagged inactive and [session-ended] has been emitted; bindings
    and rooms are untouched, so the presenter can send the request again,
    and the retry emits [session-ended] to the same sockets a second time. *)
Theorem end_session_fetch_failure st c sock s payload :
  reachable st →
  sockets st !! c = Some sock →
  role sock = Some admin → unique_id sock = Some s →
  payload !! "unique_id" = Some s →
  let notice := {| event := "session-ended"; message := None;
                   dest := members st s ∖ {[c]} |} in
  ∃ st' st'',
    handle st (AdminEndSession c payload true false)
      = Some (st', {| emitted := [notice]; reply := AckErr StoreError |}) ∧
    ended st' s ∧ sockets st' = sockets st ∧ rooms st' = rooms st ∧
    handle st' (AdminEndSession c payload true true)
      = Some (st'', {| emitted := [notice]; reply := AckOk None |}).
Proof.
  intros Hreach Hc Hr Hu Hp notice.
  destruct (authorized st c sock s payload) as (Hne & [d Hd] & Hauth); try done.
  do 2 eexists. split_and!.
  - simpl. rewrite Hc; simpl. unfold admin_end_session. rewrite Hauth, Hp. reflexivity.
  - exists (Session.deactivate d). simpl. unfold Session.findOneAndUpdate.
    by rewrite lookup_alter_eq, Hd.
  - done.
  - done.
  - simpl. rewrite Hc; simpl. unfold admin_end_session. rewrite Hauth, Hp. reflexivity.
Qed.

Lemma end_session_fetch_failure_witness :
  let notice := {| event := "session-ended"; message := None;
                   dest := members classroom_st "S" ∖ {["P"]} |} in
  ∃ st' st'',
    handle classroom_st (AdminEndSession "P" (session_payload "S") true false)
      = Some (st', {| emitted := [notice]; reply := AckErr StoreError |}) ∧
    ended st' "S" ∧ sockets st' = sockets classroom_st ∧
    rooms st' = rooms classroom_st ∧
    handle st' (AdminEndSession "P" (session_payload "S") true true)
      = Some (st'', {| emitted := [notice]; reply := AckOk None |}).
Proof.
  apply (end_session_fetch_failure classroom_st "P"
           {| role := Some admin; unique_id := Some "S" |} "S").
  - apply classroom_reachable.
  - vm_compute; reflexivity.
  - reflexivity.
  - reflexivity.
  - reflexivity.
Defined.

Lemma unbound_step st ev st' out c :
  handle st ev = Some (st', out) → join_of c ev = false →
  (∀ sock, sockets st !! c = Some sock → unique_id sock = None) →
  ∀ sock, sockets st' !! c = Some sock → unique_id sock = None.
Proof.
  intros Hh Hj Hun sock. destruct ev; simpl in Hh, Hj.
  - destruct (fresh_id st id); [|done]. state_of Hh. simpl.
    destruct (decide (id = c)) as [->|Hne].
    + rewrite lookup_insert_eq. by intros [= <-].
    + rewrite lookup_insert_ne by done. apply Hun.
  - destruct (fresh_id st uuid); [|done]. state_of Hh. unfold post_session.
    destruct save_ok; apply Hun.
  - destruct (sockets st !! id); simpl in Hh; [|done]. state_of Hh.
    apply bool_decide_eq_false in Hj.
    destruct (admin_join_cases st id data find_ok)
      as [[Hst _] | (u & _ & _ & _ & _ & Heq)]; [rewrite Hst; apply Hun|].
    rewrite Heq. simpl. rewrite lookup_insert_ne by done. apply Hun.
  - destruct (sockets st !! id); simpl in Hh; [|done]. state_of Hh.
    apply bool_decide_eq_false in Hj.
    destruct (student_join_cases st id data find_ok)
      as [[Hst _] | (u & _ & _ & _ & _ & Heq)]; [rewrite Hst; apply Hun|].
    rewrite Heq. simpl. rewrite lookup_insert_ne by done. apply Hun.
  - destruct (sockets st !! id); simpl in Hh; [|done]. state_of Hh.
    unfold offer, forward. case_match; apply Hun.
  - destruct (sockets st !! id); simpl in Hh; [|done]. state_of Hh.
    unfold answer, forward. case_match; apply Hun.
  - destruct (sockets st !! id); simpl in Hh; [|done]. state_of Hh.
    unfold ice_candidate. repeat case_match; apply Hun.
  - destruct (sockets st !! id) as [sk|]; simpl in Hh; [|done]. state_of Hh.
    unfold admin_end_session. repeat case_match; simpl; try apply Hun.
    destruct (decide (id = c)) as [->|Hne].
    + rewrite lookup_insert_eq. by intros [= <-].
    + rewrite lookup_insert_ne by done. apply Hun.
  - destruct (sockets st !! id) as [sk|]; simpl in Hh; [|done]. state_of Hh.
    rewrite disconnect_sockets.
    destruct (decide (id = c)) as [->|Hne].
    + by rewrite lookup_delete_eq.
    + rewrite lookup_delete_ne by done. apply Hun.
Qed.

Lemma unbound_run st evs st' c :
  run st evs = Some st' → Forall (λ ev, join_of c ev = false) evs →
  (∀ sock, sockets st !! c = Some sock → unique_id sock = None) →
  ∀ sock, sockets st' !! c = Some sock → unique_id sock = None.
Proof.
  revert st. induction evs as [|ev evs IH]; simpl; intros st.
  - by intros [= <-].
  - destruct (handle st ev) as [[st1 out]|] eqn:Hh; [|done].
    intros Hrun [Hj Hjs]%Forall_cons Hun. apply (IH st1); [done | done |].
    by eapply unbound_step.
Qed.

(** X8. A session is ended once per binding: after a successful
    [admin-end-session], and until the same connection sends a join request
    again, that connection is refused as unauthorized whatever session id it
    names, and its disconnect emits nothing, so that no second
    [session-ended] reaches anybody from it. *)
Theorem end_session_only_once st c payload uok fok st1 out1 evs st2 :
  handle st (AdminEndSession c payload uok fok) = Some (st1, out1) →
  reply out1 = AckOk None →
  run st1 evs = Some st2 →
  Forall (λ ev, join_of c ev = false) evs →
  is_Some (sockets st2 !! c) →
  (∀ payload' uok' fok',
     handle st2 (AdminEndSession c payload' uok' fok')
       = Some (st2, silent (AckErr Unauthorized))) ∧
  (∀ ok, ∃ st3,
     handle st2 (Disconnect c ok) = Some (st3, {| emitted := []; reply := NoReply |})).
Proof.
  intros Hend Hok Hrun Hjs [sock2 Hc2].
  destruct (end_session_ok _ _ _ _ _ _ _ Hend Hok)
    as (sock & s & Hc & Hrole & Hu & Hp & Hne & -> & -> & Hst1 & _).
  assert (unique_id sock2 = None) as Hu2.
  { apply (unbound_run st1 evs st2 c Hrun Hjs); [|done].
    intros sk. rewrite Hst1; simpl. rewrite lookup_insert_eq. by intros [= <-]. }
  split.
  - intros payload' uok' fok'. unfold handle. rewrite Hc2; simpl.
    unfold admin_end_session, not_authorized. rewrite Hu2; simpl.
    by rewrite orb_true_r.
  - intros ok. eexists. unfold handle. rewrite Hc2; simpl. unfold disconnect.
    rewrite Hu2; simpl. by rewrite !andb_false_r.
Qed.

Lemma end_session_only_once_witness :
  (∀ payload' uok' fok',
     handle visited_st (AdminEndSession "P" payload' uok' fok')
       = Some (visited_st, silent (AckErr Unauthorized))) ∧
  (∀ ok, ∃ st3,
     handle visited_st (Disconnect "P" ok)
       = Some (st3, {| emitted := []; reply := NoReply |})).
Proof.
  apply (end_session_only_once classroom_st "P" (session_payload "S") true true
           dismissed_st
           (output classroom_st (AdminEndSession "P" (session_payload "S") true true))
           [ Connection "W"; IceCandidate "V" {[ "candidate" := "udp 1" ]} ]).
  - vm_compute; reflexivity.
  - vm_compute; reflexivity.
  - vm_compute; reflexivity.
  - repeat constructor.
  - vm_compute. eauto.
Defined.

(** ** The store over time *)

Lemma session_step st ev st' out s d :
  handle st ev = Some (st', out) → db st !! s = Some d →
  db st' !! s = Some d ∨ db st' !! s = Some (Session.deactivate d).
Proof.
  intros [Heq | [(d' & Hfresh & _ & Heq) | (u & Heq)]]%handle_db Hd; rewrite Heq;
    unfold Session.save, Session.findOneAndUpdate.
  - by left.
  - left. rewrite lookup_insert_ne; [done | congruence].
  - destruct (decide (u = s)) as [->|].
    + right. by rewrite lookup_alter_eq, Hd.
    + left. by rewrite lookup_alter_ne.
Qed.

(** X9. Soft deactivation only: along any run a stored session record is never
    deleted and never rewritten, apart from its active flag being cleared;
    in particular no event sets the flag back to true. *)
Theorem sessions_are_only_deactivated st evs st' s d :
  run st evs = Some st' →
  db st !! s = Some d →
  db st' !! s = Some d ∨ db st' !! s = Some (Session.deactivate d).
Proof.
  revert st d. induction evs as [|ev evs IH]; simpl; intros st d.
  - intros [= <-] Hd. by left.
  - destruct (handle st ev) as [[st1 out]|] eqn:Hh; [|done]. intros Hrun Hd.
    destruct (session_step _ _ _ _ _ _ Hh Hd) as [Hd1 | Hd1].
    + by apply (IH st1).
    + destruct (IH st1 _ Hrun Hd1) as [? | ?]; by right.
Qed.

Lemma sessions_are_only_deactivated_witness :
  let d := Session.new "admin" "S" "http://example.org/session/S" in
  db dismissed_st !! "S" = Some d ∨
  db dismissed_st !! "S" = Some (Session.deactivate d).
Proof.
  apply (sessions_are_only_deactivated classroom_st
           [AdminEndSession "P" (session_payload "S") true true]).
  - vm_compute; reflexivity.
  - vm_compute; reflexivity.
Defined.

Lemma created_record_step st ev st' out :
  handle st ev = Some (st', out) →
  (∀ s d, db st !! s = Some d → created_record s d) →
  ∀ s d, db st' !! s = Some d → created_record s d.
Proof.
  intros Hh Hinv s d.
  assert (∀ u, Session.findOneAndUpdate (db st) u !! s = Some d → created_record s d)
    as Hupd.
  { intros u. unfold Session.findOneAndUpdate.
    destruct (decide (u = s)) as [->|].
    - rewrite lookup_alter_eq. destruct (db st !! s) as [d0|] eqn:Hd0; [|done].
      intros [= <-]. by destruct (Hinv _ _ Hd0) as (? & ? & ? & ?).
    - rewrite lookup_alter_ne by done. apply Hinv. }
  destruct ev; simpl in Hh.
  - case_match; [|done]. injection Hh as <- <-. apply Hinv.
  - destruct (fresh_id st uuid) eqn:Hf; [|done].
    apply fresh_id_spec in Hf as (Hne & _ & _). unfold post_session in Hh.
    destruct save_ok; injection Hh as <- <-; [|apply Hinv].
    simpl. unfold Session.save; simpl. destruct (decide (s = uuid)) as [->|].
    + rewrite lookup_insert_eq. intros [= <-]. split_and!; [done..|]. simpl. eauto.
    + rewrite lookup_insert_ne by done. apply Hinv.
  - destruct (sockets st !! id); simpl in Hh; [|done]. injection Hh as Hh.
    destruct (admin_join_cases st id data find_ok) as [[Hst _] | (? & _ & _ & _ & _ & Heq)];
      rewrite Hh in *; [simpl in Hst; subst st' | injection Heq as -> _]; apply Hinv.
  - destruct (sockets st !! id); simpl in Hh; [|done]. injection Hh as Hh.
    destruct (student_join_cases st id data find_ok)
      as [[Hst _] | (? & _ & _ & _ & _ & Heq)];
      rewrite Hh in *; [simpl in Hst; subst st' | injection Heq as -> _]; apply Hinv.
  - destruct (sockets st !! id); simpl in Hh; [|done]. unfold offer, forward in Hh.
    case_match; injection Hh as <- <-; apply Hinv.
  - destruct (sockets st !! id); simpl in Hh; [|done]. unfold answer, forward in Hh.
    case_match; injection Hh as <- <-; apply Hinv.
  - destruct (sockets st !! id); simpl in Hh; [|done]. unfold ice_candidate in Hh.
    repeat case_match; injection Hh as <- <-; apply Hinv.
  - destruct (sockets st !! id); simpl in Hh; [|done]. unfold admin_end_session in Hh.
    repeat case_match; injection Hh as <- <-; simpl; solve [apply Hinv | apply Hupd].
  - destruct (sockets st !! id); simpl in Hh; [|done]. unfold disconnect in Hh.
    repeat case_match; simplify_eq; simpl; solve [apply Hinv | apply Hupd].
Qed.

(** X10. Every record in the store was put there by [POST /api/session]: it is
    filed under its own non-empty [unique_id], its type is 'admin', and its
    share URL ends in [/session/<unique_id>]. *)
Theorem stored_sessions_are_created_records st s d :
  reachable st →
  db st !! s = Some d →
  created_record s d.
Proof.
  intros Hreach. revert s d. induction Hreach as [|st ev st' out _ IH Hh].
  - intros s d. unfold init; simpl. by rewrite lookup_empty.
  - by eapply created_record_step.
Qed.

Lemma stored_sessions_are_created_records_witness :
  created_record "S"
    (Session.deactivate (Session.new "admin" "S" "http://example.org/session/S")).
Proof.
  apply (stored_sessions_are_created_records dismissed_st).
  - apply (run_reachable init
             (classroom ++ [AdminEndSession "P" (session_payload "S") true true]));
      [constructor | vm_compute; reflexivity].
  - vm_compute; reflexivity.
Defined.

(** X11. Only its presenter ends a session. If an event turns an active session
    [s] into an inactive one, the event is a successful store update made by
    [admin-end-session] or by the disconnect of a connection that is bound
    to [s] with role presenter; no request of a viewer or of an unbound
    connection, and no relay, clears the flag. *)
Theorem only_its_presenter_ends_a_session st ev st' out s :
  live st s →
  handle st ev = Some (st', out) →
  ended st' s →
  ∃ c sock,
    sockets st !! c = Some sock ∧ role sock = Some admin ∧ unique_id sock = Some s ∧
    ((∃ payload fok, ev = AdminEndSession c payload true fok ∧
                     payload !! "unique_id" = Some s)
     ∨ ev = Disconnect c true).
Proof.
  intros (d & Hd & Hact) Hh (d' & Hd' & Hact').
  assert (db st' ≠ db st) as Hdb by (intros Heq; rewrite Heq in Hd'; congruence).
  assert (∀ u, db st' = Session.findOneAndUpdate (db st) u → u = s) as Hupd.
  { intros u Heq. destruct (decide (u = s)) as [|Hus]; [done|].
    rewrite Heq in Hd'. unfold Session.findOneAndUpdate in Hd'.
    rewrite lookup_alter_ne in Hd' by done. congruence. }
  destruct ev; simpl in Hh.
  - case_match; [|done]. by injection Hh as <- <-.
  - destruct (fresh_id st uuid) eqn:Hf; [|done].
    apply fresh_id_spec in Hf as (_ & _ & Hfresh). unfold post_session in Hh.
    destruct save_ok; injection Hh as <- <-; [|done]. simpl in Hd'.
    unfold Session.save in Hd'; simpl in Hd'.
    rewrite lookup_insert_ne in Hd' by congruence. congruence.
  - destruct (sockets st !! id); simpl in Hh; [|done]. injection Hh as Hh.
    destruct (admin_join_cases st id data find_ok) as [[Hst _] | (? & _ & _ & _ & _ & Heq)];
      rewrite Hh in *; [simpl in Hst; by subst st' | by injection Heq as -> _].
  - destruct (sockets st !! id); simpl in Hh; [|done]. injection Hh as Hh.
    destruct (student_join_cases st id data find_ok)
      as [[Hst _] | (? & _ & _ & _ & _ & Heq)];
      rewrite Hh in *; [simpl in Hst; by subst st' | by injection Heq as -> _].
  - destruct (sockets st !! id); simpl in Hh; [|done]. unfold offer, forward in Hh.
    by case_match; injection Hh as <- <-.
  - destruct (sockets st !! id); simpl in Hh; [|done]. unfold answer, forward in Hh.
    by case_match; injection Hh as <- <-.
  - destruct (sockets st !! id); simpl in Hh; [|done]. unfold ice_candidate in Hh.
    by repeat case_match; injection Hh as <- <-.
  - destruct (sockets st !! id) as [sock|] eqn:Hid; simpl in Hh; [|done].
    unfold admin_end_session in Hh.
    destruct (not_authorized sock (payload !! "unique_id")) eqn:Hauth;
      [by injection Hh as <- <-|].
    apply not_authorized_false in Hauth as (Hr & Hu & u & Hp & Hne).
    rewrite Hp in *; simpl in Hh.
    destruct update_ok; simpl in Hh; [|by injection Hh as <- <-].
    assert (u = s) as ->.
    { apply Hupd. by destruct fetch_ok; simpl in Hh; injection Hh as <- <-. }
    exists id, sock. split_and!; [done..|]. left. by exists payload, fetch_ok.
  - destruct (sockets st !! id) as [sock|] eqn:Hid; simpl in Hh; [|done].
    unfold disconnect in Hh.
    destruct (bool_decide (role sock = Some admin)) eqn:Hr; simpl in Hh;
      [|by injection Hh as <- <-].
    apply bool_decide_eq_true in Hr.
    destruct (truthy (unique_id sock)) eqn:Ht; simpl in Hh;
      [|by injection Hh as <- <-].
    apply truthy_inv in Ht as (u & Hu & Hne). rewrite Hu in Hh; simpl in Hh.
    destruct update_ok; simpl in Hh; [|by injection Hh as <- <-].
    assert (u = s) as -> by (apply Hupd; by injection Hh as <- <-).
    exists id, sock. split_and!; [done..|]. by right.
Qed.

Lemma only_its_presenter_ends_a_session_witness :
  ∃ c sock,
    sockets classroom_st !! c = Some sock ∧ role sock = Some admin ∧
    unique_id sock = Some "S" ∧
    ((∃ payload fok, Disconnect "P" true = AdminEndSession c payload true fok ∧
                     payload !! "unique_id" = Some "S")
     ∨ Disconnect "P" true = Disconnect c true).
Proof.
  apply (only_its_presenter_ends_a_session classroom_st (Disconnect "P" true)
           (after classroom_st (Disconnect "P" true))
           (output classroom_st (Disconnect "P" true)) "S").
  - eexists. split; vm_compute; reflexivity.
  - vm_compute; reflexivity.
  - eexists. split; vm_compute; reflexivity.
Defined.

(** ** Rooms and registry *)

(** X12. The rooms stay in step with the registry. In every reachable state: a
    member of any room is a connected socket; a connected socket is the only
    member of the room named by its own id; and the session id stored on a
    socket is non-empty and names a stored session. *)
Theorem rooms_follow_the_registry st :
  reachable st →
  (∀ r c, c ∈ members st r → is_Some (sockets st !! c)) ∧
  (∀ c, is_Some (sockets st !! c) → members st c = {[c]}) ∧
  (∀ c sock s, sockets st !! c = Some sock → unique_id sock = Some s →
     s ≠ "" ∧ is_Some (db st !! s)).
Proof.
  intros Hreach. pose proof (reachable_wf _ Hreach) as Hwf. split_and!.
  - intros r c Hc. by destruct (wf_members st Hwf _ _ Hc).
  - intros c [sock Hc]. by eapply members_of_connection.
  - intros c sock s. apply (wf_bound st Hwf).
Qed.

Lemma rooms_follow_the_registry_witness :
  (∀ r c, c ∈ members classroom_st r → is_Some (sockets classroom_st !! c)) ∧
  (∀ c, is_Some (sockets classroom_st !! c) → members classroom_st c = {[c]}) ∧
  (∀ c sock s, sockets classroom_st !! c = Some sock → unique_id sock = Some s →
     s ≠ "" ∧ is_Some (db classroom_st !! s)).
Proof. apply (rooms_follow_the_registry classroom_st). apply classroom_reachable. Defined.

(** X13. Rooms shrink only on teardown. If a socket [x] is in room [r] before an
    event and not after it, the event is the disconnect of [x] or a
    successful [admin-end-session] for [r]. In particular a join never
    removes a socket from a room it had joined earlier: a socket that joins
    a second session stays in the room of the first one. *)
Theorem rooms_shrink_only_on_teardown st ev st' out r x :
  handle st ev = Some (st', out) →
  x ∈ members st r →
  x ∉ members st' r →
  (∃ ok, ev = Disconnect x ok)
  ∨ (∃ c payload, ev = AdminEndSession c payload true true ∧
                  payload !! "unique_id" = Some r ∧ reply out = AckOk None).
Proof.
  intros Hh Hx Hx'.
  assert (∀ id u, x ∈ room (join id u (rooms st)) r) as Hjoin.
  { intros id u. rewrite room_join. case_decide; [apply elem_of_union_r|]; done. }
  destruct ev; simpl in Hh.
  - case_match; [|done]. injection Hh as <- <-. destruct Hx'. apply Hjoin.
  - case_match; [|done]. unfold post_session in Hh.
    by destruct save_ok; injection Hh as <- <-.
  - destruct (sockets st !! id); simpl in Hh; [|done]. injection Hh as Hh.
    destruct (admin_join_cases st id data find_ok) as [[Hst _] | (? & _ & _ & _ & _ & Heq)];
      rewrite Hh in *; [simpl in Hst; by subst st' | injection Heq as -> _].
    destruct Hx'. apply Hjoin.
  - destruct (sockets st !! id); simpl in Hh; [|done]. injection Hh as Hh.
    destruct (student_join_cases st id data find_ok)
      as [[Hst _] | (? & _ & _ & _ & _ & Heq)];
      rewrite Hh in *; [simpl in Hst; by subst st' | injection Heq as -> _].
    destruct Hx'. apply Hjoin.
  - destruct (sockets st !! id); simpl in Hh; [|done]. unfold offer, forward in Hh.
    by case_match; injection Hh as <- <-.
  - destruct (sockets st !! id); simpl in Hh; [|done]. unfold answer, forward in Hh.
    by case_match; injection Hh as <- <-.
  - destruct (sockets st !! id); simpl in Hh; [|done]. unfold ice_candidate in Hh.
    by repeat case_match; injection Hh as <- <-.
  - destruct (sockets st !! id) as [sock|] eqn:Hid; simpl in Hh; [|done].
    unfold admin_end_session in Hh.
    destruct (not_authorized sock (payload !! "unique_id")) eqn:Hauth;
      [by injection Hh as <- <-|].
    apply not_authorized_false in Hauth as (Hr & Hu & u & Hp & Hne).
    rewrite Hp in *; simpl in Hh.
    destruct update_ok; simpl in Hh; [|by injection Hh as <- <-].
    destruct fetch_ok; simpl in Hh; [|by injection Hh as <- <-].
    injection Hh as <- <-. right. exists id, payload. split_and!; [done | | done].
    unfold members in Hx'; simpl in Hx'. rewrite room_leave_all_of in Hx'.
    case_decide; [by subst u | done].
  - destruct (sockets st !! id) as [sock|] eqn:Hid; simpl in Hh; [|done].
    injection Hh as Hh. apply (f_equal fst) in Hh; simpl in Hh. subst st'.
    rewrite disconnect_members, elem_of_difference, elem_of_singleton in Hx'.
    left. exists update_ok. f_equal. destruct (decide (x = id)); [done | tauto].
Qed.

Lemma rooms_shrink_only_on_teardown_witness :
  (∃ ok, AdminEndSession "P" (session_payload "S") true true = Disconnect "V" ok)
  ∨ (∃ c payload,
       AdminEndSession "P" (session_payload "S") true true
         = AdminEndSession c payload true true ∧
       payload !! "unique_id" = Some "S" ∧
       reply (output classroom_st (AdminEndSession "P" (session_payload "S") true true))
         = AckOk None).
Proof.
  apply (rooms_shrink_only_on_teardown classroom_st
           (AdminEndSession "P" (session_payload "S") true true) dismissed_st
           (output classroom_st (AdminEndSession "P" (session_payload "S") true true))
           "S" "V").
  - vm_compute; reflexivity.
  - vm_compute; reflexivity.
  - vm_compute; discriminate.
Defined.

(** ** Relaying, continued *)

(** X14. The three relay handlers are stateless and cannot be used to forge a
    sender: whatever the payload, the state is unchanged, at most one
    message is emitted, and its [from] field is the id of the sending
    socket (a [from] supplied by the client is overwritten) while every
    other field is the client's. *)
Theorem relay_is_stateless_and_stamped st ev st' out c payload :
  ev = Offer c payload ∨ ev = Answer c payload ∨ ev = IceCandidate c payload →
  handle st ev = Some (st', out) →
  st' = st ∧ (List.length (emitted out) ≤ 1)%nat ∧
  ∀ e, e ∈ emitted out →
    ∃ m, message e = Some m ∧ m !! "from" = Some c ∧
         ∀ k, k ≠ "from" → m !! k = payload !! k.
Proof.
  assert (stamp payload c !! "from" = Some c ∧
          ∀ k, k ≠ "from" → stamp payload c !! k = payload !! k) as Hstamp.
  { unfold stamp. split; [apply lookup_insert_eq|].
    intros k Hk. by rewrite lookup_insert_ne. }
  intros [-> | [-> | ->]]; simpl;
    (destruct (sockets st !! c) as [sock|]; simpl; [|done]);
    unfold offer, answer, forward, ice_candidate;
    repeat case_match; intros [= <- <-]; simpl;
    (split_and!; [done | lia |]);
    intros e He; try (by apply elem_of_nil in He);
    apply list_elem_of_singleton in He as ->; simpl; eauto.
Qed.

Lemma relay_is_stateless_and_stamped_witness :
  let payload : Payload := {[ "to" := "P"; "from" := "P"; "sdp" := "v=0" ]} in
  let out := output classroom_st (Offer "V" payload) in
  after classroom_st (Offer "V" payload) = classroom_st ∧
  (List.length (emitted out) ≤ 1)%nat ∧
  ∀ e, e ∈ emitted out →
    ∃ m, message e = Some m ∧ m !! "from" = Some "V" ∧
         ∀ k, k ≠ "from" → m !! k = payload !! k.
Proof.
  intros payload out.
  apply (relay_is_stateless_and_stamped classroom_st (Offer "V" payload)).
  - by left.
  - vm_compute; reflexivity.
Defined.

(** X15. An [ice-candidate] with a usable [to] field is directed, whatever the
    sender is bound to: it is acknowledged ok and emitted once, stamped with
    the sender's id, to the members of the room named [to], which is the
    target alone when [to] is the id of a connected socket. *)
Theorem ice_candidate_directed st c sock t payload :
  reachable st →
  sockets st !! c = Some sock →
  payload !! "to" = Some t → t ≠ "" →
  handle st (IceCandidate c payload)
    = Some (st, {| emitted := [ {| event := "ice-candidate";
                                   message := Some (<["from" := c]> payload);
                                   dest := members st t |} ];
                   reply := AckOk None |}) ∧
  (is_Some (sockets st !! t) → members st t = {[t]}).
Proof.
  intros Hreach Hc Hp Hne. split.
  - simpl. rewrite Hc; simpl. unfold ice_candidate.
    by rewrite Hp, (proj2 (truthy_Some t) Hne).
  - intros [tsock Ht]. by eapply members_of_connection.
Qed.

Lemma ice_candidate_directed_witness :
  handle classroom_st (IceCandidate "V" {[ "to" := "P"; "candidate" := "udp 1" ]})
    = Some (classroom_st,
            {| emitted := [ {| event := "ice-candidate";
                               message := Some (<["from" := "V"]> {[ "to" := "P"; "candidate" := "udp 1" ]});
                               dest := members classroom_st "P" |} ];
               reply := AckOk None |}) ∧
  (is_Some (sockets classroom_st !! "P") → members classroom_st "P" = {["P"]}).
Proof.
  apply (ice_candidate_directed classroom_st "V"
           {| role := Some student; unique_id := Some "S" |} "P").
  - apply classroom_reachable.
  - vm_compute; reflexivity.
  - reflexivity.
  - discriminate.
Defined.

(** * The pages *)

(** ** Acknowledgements *)

Lemma ack_error_nonempty st ev st' out e :
  handle st ev = Some (st', out) → reply out = AckErr e → e ≠ "".
Proof.
  destruct ev; simpl.
  - case_match; [|done]. by intros [= <- <-].
  - case_match; [|done]. unfold post_session. by destruct save_ok; intros [= <- <-].
  - destruct (sockets st !! id); simpl; [|done]. unfold admin_join.
    repeat case_match; intros [= <- <-]; simpl; intros [= <-]; done.
  - destruct (sockets st !! id); simpl; [|done]. unfold student_join.
    repeat case_match; intros [= <- <-]; simpl; intros [= <-]; done.
  - destruct (sockets st !! id); simpl; [|done]. unfold offer, forward.
    repeat case_match; intros [= <- <-]; simpl; intros [= <-]; done.
  - destruct (sockets st !! id); simpl; [|done]. unfold answer, forward.
    repeat case_match; intros [= <- <-]; simpl; intros [= <-]; done.
  - destruct (sockets st !! id); simpl; [|done]. unfold ice_candidate.
    repeat case_match; intros [= <- <-]; simpl; intros [= <-]; done.
  - destruct (sockets st !! id); simpl; [|done]. unfold admin_end_session.
    repeat case_match; intros [= <- <-]; simpl; intros [= <-]; done.
  - destruct (sockets st !! id); simpl; [|done]. unfold disconnect.
    repeat case_match; simplify_eq; intros [= <- <-]; done.
Qed.

(** X16. [emitWithAck] settles as the server acknowledged. A handler that
    answers [{ ok: false, error }] makes the promise reject with exactly
    that error text (the fallback 'Request failed.' is never needed, since
    no handler sends an empty error), and one that answers [{ ok: true }]
    makes it resolve with the acknowledgement. *)
Theorem acks_settle_as_sent st ev st' out :
  handle st ev = Some (st', out) →
  match reply out with
  | AckErr e => emitWithAck (response_of (reply out)) = Rejected e
  | AckOk sid =>
      emitWithAck (response_of (reply out))
        = Resolved {| ok := Some true; error := None; socketId := sid |}
  | _ => True
  end.
Proof.
  intros Hh. destruct (reply out) as [sid|e| | |] eqn:Hr; try done.
  pose proof (ack_error_nonempty _ _ _ _ _ Hh Hr) as Hne.
  unfold emitWithAck; simpl. by rewrite (bool_decide_true (e ≠ "")).
Qed.

Lemma acks_settle_as_sent_witness :
  emitWithAck
    (response_of (reply (output dismissed_st (StudentJoin "V" (session_payload "S") true))))
    = Rejected NotFound.
Proof.
  apply (acks_settle_as_sent dismissed_st (StudentJoin "V" (session_payload "S") true)
           dismissed_st
           (output dismissed_st (StudentJoin "V" (session_payload "S") true))).
  vm_compute; reflexivity.
Defined.

(** ** The student page *)

Section split.
Variable sep : ascii.

Lemma split_not_nil s : split sep s ≠ [].
Proof.
  destruct s as [|c s]; simpl; [done|].
  destruct (Ascii.eqb c sep); [done|]. by destruct (split sep s).
Qed.

Lemma split_without_separator s :
  ¬ In sep (String.list_ascii_of_string s) → split sep s = [s].
Proof.
  induction s as [|c s IH]; simpl; [done|]. intros Hnot.
  destruct (Ascii.eqb c sep) eqn:Hc.
  - apply Ascii.eqb_eq in Hc. tauto.
  - rewrite IH; [done | tauto].
Qed.

Lemma split_append_not_single a b seg :
  split sep (a +:+ String sep b) ≠ [seg].
Proof.
  revert seg. induction a as [|c a IH]; simpl; intros seg.
  - rewrite Ascii.eqb_refl. intros [= _ Hb]. by destruct (split_not_nil b).
  - destruct (Ascii.eqb c sep).
    + intros [= _ Hb]. by destruct (split_not_nil (a +:+ String sep b)).
    + destruct (split sep (a +:+ String sep b)) as [|s0 [|s1 ss]] eqn:Hs.
      * by destruct (split_not_nil (a +:+ String sep b)).
      * by destruct (IH s0).
      * done.
Qed.

Lemma pop_split_append a b :
  pop (split sep (a +:+ String sep b)) = pop (split sep b).
Proof.
  unfold pop. induction a as [|c a IH]; simpl.
  - rewrite Ascii.eqb_refl. destruct (split sep b) eqn:Hb; [|done].
    by destruct (split_not_nil b).
  - destruct (split sep (a +:+ String sep b)) as [|seg [|seg' segs]] eqn:Hs.
    + by destruct (split_not_nil (a +:+ String sep b)).
    + by destruct (split_append_not_single a b seg).
    + destruct (Ascii.eqb c sep); by rewrite <- IH.
Qed.

End split.

(** X17. The share link round trip: the page served at a path whose last segment
    is [uuid] (as in [/session/<uuid>], the path of the URL that
    [POST /api/session] returns) reads exactly [uuid] as its session id,
    provided the id holds no slash; and its join request carries that id. *)
Theorem share_link_round_trip prefix uuid u ack :
  ¬ In "/"%char (String.list_ascii_of_string uuid) →
  let p := StudentPage.load (prefix +:+ "/" +:+ uuid) u in
  StudentPage.uniqueId p = uuid ∧
  (StudentPage.joinSession ack p).2
    = [ {| sent_event := "student-join"; sent_payload := session_payload uuid |} ].
Proof.
  intros Hno p.
  assert (StudentPage.uniqueId p = uuid) as Hid.
  { unfold p, StudentPage.load, StudentPage.uniqueId_of; simpl.
    change (prefix +:+ "/" +:+ uuid) with (prefix +:+ String "/"%char uuid).
    by rewrite pop_split_append, split_without_separator. }
  split; [done|]. unfold StudentPage.joinSession. rewrite Hid. by destruct ack.
Qed.

Lemma share_link_round_trip_witness :
  let u := {| StudentPage.status := None; StudentPage.subtitle := None;
              StudentPage.remoteVideo := None; StudentPage.loader := None |} in
  let p := StudentPage.load ("/session" +:+ "/" +:+ "3f2c-9a") u in
  StudentPage.uniqueId p = "3f2c-9a" ∧
  (StudentPage.joinSession (Rejected "x") p).2
    = [ {| sent_event := "student-join"; sent_payload := session_payload "3f2c-9a" |} ].
Proof.
  intros u.
  apply (share_link_round_trip "/session" "3f2c-9a" u (Rejected "x")).
  simpl. intros H. repeat (destruct H as [H | H]; [discriminate H|]). exact H.
Defined.

Lemma student_setStatus_status text st p el :
  StudentPage.status (StudentPage.ui p) = Some el →
  StudentPage.status (StudentPage.ui (StudentPage.setStatus text st p))
    = Some {| StudentPage.textContent := text; StudentPage.state := st |}.
Proof. intros H. unfold StudentPage.setStatus. by rewrite H. Qed.

Lemma student_setSubtitle_status text p :
  StudentPage.status (StudentPage.ui (StudentPage.setSubtitle text p))
    = StudentPage.status (StudentPage.ui p).
Proof. unfold StudentPage.setSubtitle. by case_match. Qed.

Lemma student_toggleLoader_status show p :
  StudentPage.status (StudentPage.ui (StudentPage.toggleLoader show p))
    = StudentPage.status (StudentPage.ui p).
Proof. unfold StudentPage.toggleLoader. by case_match. Qed.

(** X18. The viewer sees why the join failed. Whatever the server's reason for
    refusing the [student-join] of the page (session unknown or ended,
    missing id, store failure), the server state is unchanged and the status
    line of the page, when the document has one, shows exactly the server's
    error text, in state 'error'. *)
Theorem viewer_sees_the_refusal st v find_ok st' out e p el :
  handle st (StudentJoin v {[ "unique_id" := StudentPage.uniqueId p ]} find_ok)
    = Some (st', out) →
  reply out = AckErr e →
  StudentPage.status (StudentPage.ui p) = Some el →
  st' = st ∧
  StudentPage.status (StudentPage.ui
      (StudentPage.joinSession (emitWithAck (response_of (reply out))) p).1)
    = Some {| StudentPage.textContent := e; StudentPage.state := "error" |}.
Proof.
  intros Hh Hr Hel.
  pose proof (ack_error_nonempty _ _ _ _ _ Hh Hr) as Hne. split.
  - simpl in Hh. destruct (sockets st !! v); simpl in Hh; [|done]. injection Hh as Hh.
    destruct (student_join_cases st v {[ "unique_id" := StudentPage.uniqueId p ]} find_ok)
      as [[Hst _] | (? & _ & _ & _ & _ & Heq)]; rewrite Hh in *; [done|].
    injection Heq as _ ->. done.
  - rewrite Hr. unfold emitWithAck; simpl. rewrite (bool_decide_true (e ≠ "")) by done.
    unfold StudentPage.joinSession; simpl.
    rewrite student_toggleLoader_status, student_setSubtitle_status.
    rewrite (bool_decide_true (e ≠ "")) by done.
    eapply student_setStatus_status.
    rewrite student_toggleLoader_status. by eapply student_setStatus_status.
Qed.

Lemma viewer_sees_the_refusal_witness :
  let u := {| StudentPage.status :=
                Some {| StudentPage.textContent := ""; StudentPage.state := "idle" |};
              StudentPage.subtitle := Some ""; StudentPage.remoteVideo := None;
              StudentPage.loader := Some true |} in
  let p := StudentPage.load "/session/" u in
  let out := output classroom_st
               (StudentJoin "V" {[ "unique_id" := StudentPage.uniqueId p ]} true) in
  after classroom_st (StudentJoin "V" {[ "unique_id" := StudentPage.uniqueId p ]} true)
    = classroom_st ∧
  StudentPage.status (StudentPage.ui
      (StudentPage.joinSession (emitWithAck (response_of (reply out))) p).1)
    = Some {| StudentPage.textContent := MissingSessionId;
              StudentPage.state := "error" |}.
Proof.
  intros u p out.
  apply (viewer_sees_the_refusal classroom_st "V" true
           (after classroom_st
              (StudentJoin "V" {[ "unique_id" := StudentPage.uniqueId p ]} true))
           out MissingSessionId p
           {| StudentPage.textContent := ""; StudentPage.state := "idle" |}).
  - vm_compute; reflexivity.
  - vm_compute; reflexivity.
  - reflexivity.
Defined.

(** X19. The viewer's candidates follow the offer. Before any offer has arrived
    the page sends its ICE candidates without target, and the server hands
    them to the other members of the viewer's session room; once an offer
    stamped by the server with [from = a] has arrived, whatever became of
    it, the page addresses its candidates to [a], and the server delivers
    them to [a] alone. *)
Theorem viewer_candidates_follow_the_offer st v vsock s a asock p cand msg outcome :
  reachable st →
  sockets st !! v = Some vsock → unique_id vsock = Some s →
  sockets st !! a = Some asock →
  msg !! "from" = Some a →
  StudentPage.adminSocketId p = None →
  let before := {[ "candidate" := cand ]} : Payload in
  let after_offer := {[ "to" := a; "candidate" := cand ]} : Payload in
  StudentPage.onicecandidate (Some cand) p
    = [ {| sent_event := "ice-candidate"; sent_payload := before |} ] ∧
  handle st (IceCandidate v before)
    = Some (st, {| emitted := [ {| event := "ice-candidate";
                                   message := Some (stamp before v);
                                   dest := members st s ∖ {[v]} |} ];
                   reply := AckOk None |}) ∧
  StudentPage.onicecandidate (Some cand) (StudentPage.on_offer msg outcome p).1
    = [ {| sent_event := "ice-candidate"; sent_payload := after_offer |} ] ∧
  handle st (IceCandidate v after_offer)
    = Some (st, {| emitted := [ {| event := "ice-candidate";
                                   message := Some (stamp after_offer v);
                                   dest := {[a]} |} ];
                   reply := AckOk None |}).
Proof.
  intros Hreach Hv Hu Ha Hfrom Hnone before after_offer.
  pose proof (reachable_wf _ Hreach) as Hwf.
  destruct (wf_bound st Hwf _ _ _ Hv Hu) as [Hs _].
  assert (a ≠ "") as Hane by (apply (wf_id st Hwf); eauto).
  assert (StudentPage.adminSocketId (StudentPage.on_offer msg outcome p).1 = Some a)
    as Hadmin.
  { unfold StudentPage.on_offer.
    destruct outcome as [| | |d [r|m]]; simpl;
      unfold StudentPage.setStatus; repeat case_match; simpl; done. }
  split_and!.
  - unfold StudentPage.onicecandidate. by rewrite Hnone.
  - simpl. rewrite Hv; simpl. unfold ice_candidate, before.
    rewrite lookup_singleton_ne by done. simpl.
    by rewrite Hu, (proj2 (truthy_Some s) Hs).
  - unfold StudentPage.onicecandidate. rewrite Hadmin; simpl.
    by rewrite (bool_decide_true (a ≠ "")) by done.
  - simpl. rewrite Hv; simpl. unfold ice_candidate, io_to, after_offer.
    rewrite lookup_insert_eq, (proj2 (truthy_Some a) Hane). simpl.
    by rewrite (members_of_connection st a asock).
Qed.

Lemma viewer_candidates_follow_the_offer_witness :
  let u := {| StudentPage.status := None; StudentPage.subtitle := None;
              StudentPage.remoteVideo := None; StudentPage.loader := None |} in
  let p := StudentPage.load "/session/S" u in
  let msg : Payload := {[ "from" := "P"; "sdp" := "v=0" ]} in
  let before := {[ "candidate" := "udp 1" ]} : Payload in
  let after_offer := {[ "to" := "P"; "candidate" := "udp 1" ]} : Payload in
  StudentPage.onicecandidate (Some "udp 1") p
    = [ {| sent_event := "ice-candidate"; sent_payload := before |} ] ∧
  handle classroom_st (IceCandidate "V" before)
    = Some (classroom_st,
            {| emitted := [ {| event := "ice-candidate";
                               message := Some (stamp before "V");
                               dest := members classroom_st "S" ∖ {["V"]} |} ];
               reply := AckOk None |}) ∧
  StudentPage.onicecandidate (Some "udp 1")
      (StudentPage.on_offer msg StudentPage.RemoteRejected p).1
    = [ {| sent_event := "ice-candidate"; sent_payload := after_offer |} ] ∧
  handle classroom_st (IceCandidate "V" after_offer)
    = Some (classroom_st,
            {| emitted := [ {| event := "ice-candidate";
                               message := Some (stamp after_offer "V");
                               dest := {["P"]} |} ];
               reply := AckOk None |}).
Proof.
  intros u p msg.
  apply (viewer_candidates_follow_the_offer classroom_st "V"
           {| role := Some student; unique_id := Some "S" |} "S" "P"
           {| role := Some admin; unique_id := Some "S" |} p "udp 1" msg
           StudentPage.RemoteRejected).
  - apply classroom_reachable.
  - vm_compute; reflexivity.
  - reflexivity.
  - vm_compute; reflexivity.
  - reflexivity.
  - reflexivity.
Defined.

(** X20. The answer returns to the offerer. When a connection [a] sends an offer
    to a connected viewer [v], the server delivers it to [v] alone, stamped
    with [from = a]; the viewer's page answers to that [from]; and the
    server delivers the answer, stamped with [from = v] and carrying the
    page's local description, to [a] alone. *)
Theorem answer_returns_to_the_offerer st a asock v vsock payload description ack p :
  reachable st →
  sockets st !! a = Some asock →
  sockets st !! v = Some vsock →
  payload !! "to" = Some v →
  let offered := stamp payload a in
  let answered := {[ "to" := a; "sdp" := description ]} : Payload in
  handle st (Offer a payload)
    = Some (st, {| emitted := [ {| event := "offer"; message := Some offered;
                                   dest := {[v]} |} ];
                   reply := AckOk None |}) ∧
  (StudentPage.on_offer offered (StudentPage.Answered description ack) p).2
    = [ {| sent_event := "answer"; sent_payload := answered |} ] ∧
  handle st (Answer v answered)
    = Some (st, {| emitted := [ {| event := "answer";
                                   message := Some (stamp answered v);
                                   dest := {[a]} |} ];
                   reply := AckOk None |}) ∧
  stamp answered v !! "from" = Some v ∧
  stamp answered v !! "sdp" = Some description.
Proof.
  intros Hreach Ha Hv Hto offered answered.
  pose proof (reachable_wf _ Hreach) as Hwf.
  assert (a ≠ "") as Hane by (apply (wf_id st Hwf); eauto).
  assert (v ≠ "") as Hvne by (apply (wf_id st Hwf); eauto).
  split_and!.
  - simpl. rewrite Ha; simpl. unfold offer, forward, io_to.
    rewrite Hto, (proj2 (truthy_Some v) Hvne). simpl.
    by rewrite (members_of_connection st v vsock).
  - unfold StudentPage.on_offer, offered, stamp; simpl.
    by rewrite lookup_insert_eq.
  - simpl. rewrite Hv; simpl. unfold answer, forward, io_to, answered.
    rewrite lookup_insert_eq, (proj2 (truthy_Some a) Hane). simpl.
    by rewrite (members_of_connection st a asock).
  - unfold stamp. apply lookup_insert_eq.
  - unfold stamp, answered. rewrite lookup_insert_ne by done.
    rewrite lookup_insert_ne by done. apply lookup_singleton_eq.
Qed.

Lemma answer_returns_to_the_offerer_witness :
  let u := {| StudentPage.status := None; StudentPage.subtitle := None;
              StudentPage.remoteVideo := None; StudentPage.loader := None |} in
  let p := StudentPage.load "/session/S" u in
  let payload : Payload := {[ "to" := "V"; "sdp" := "v=0 offer" ]} in
  let ack := Rejected "lost" in
  let offered := stamp payload "P" in
  let answered := {[ "to" := "P"; "sdp" := "v=0 answer" ]} : Payload in
  handle classroom_st (Offer "P" payload)
    = Some (classroom_st,
            {| emitted := [ {| event := "offer"; message := Some offered;
                               dest := {["V"]} |} ];
               reply := AckOk None |}) ∧
  (StudentPage.on_offer offered (StudentPage.Answered "v=0 answer" ack) p).2
    = [ {| sent_event := "answer"; sent_payload := answered |} ] ∧
  handle classroom_st (Answer "V" answered)
    = Some (classroom_st,
            {| emitted := [ {| event := "answer";
                               message := Some (stamp answered "V");
                               dest := {["P"]} |} ];
               reply := AckOk None |}) ∧
  stamp answered "V" !! "from" = Some "V" ∧
  stamp answered "V" !! "sdp" = Some "v=0 answer".
Proof.
  intros u p payload ack.
  apply (answer_returns_to_the_offerer classroom_st "P"
           {| role := Some admin; unique_id := Some "S" |} "V"
           {| role := Some student; unique_id := Some "S" |} payload
           "v=0 answer" ack p).
  - apply classroom_reachable.
  - vm_compute; reflexivity.
  - vm_compute; reflexivity.
  - reflexivity.
Defined.

(** X21. Once the session has ended, a further [session-ended] changes nothing:
    the handler is idempotent, and it leaves the page without presenter id
    and with a closed peer connection, so that later candidates carry no
    target. *)
Theorem student_session_ended_once p cand :
  let p' := StudentPage.on_session_ended p in
  StudentPage.on_session_ended p' = p' ∧
  StudentPage.adminSocketId p' = None ∧
  StudentPage.connectionState (StudentPage.pc p') = StudentPage.closed ∧
  StudentPage.onicecandidate (Some cand) p'
    = [ {| sent_event := "ice-candidate"; sent_payload := {[ "candidate" := cand ]} |} ].
Proof.
  destruct p as [uid [cs rd ld ice] a [[el|] [sub|] rv [ld'|]]];
    destruct cs; done.
Qed.

(** ** The presenter page: the participant list *)

Section participants.
Import AdminPage.
Implicit Types (items : list Item) (id x text cls : string).

Lemma ids_upsert id text cls items :
  data_id <$> upsert id text cls items =
  if decide (id ∈ data_id <$> items) then data_id <$> items
  else ((data_id <$> items) ++ [id])%list.
Proof.
  induction items as [|it items IH].
  - destruct (decide (id ∈ data_id <$> [])) as [Hin|]; [|done].
    by apply elem_of_nil in Hin.
  - cbn [upsert]. destruct (decide (data_id it = id)) as [<-|Hne].
    + destruct (decide (data_id it ∈ data_id <$> it :: items)) as [|Hnin]; [done|].
      destruct Hnin. apply list_elem_of_here.
    + rewrite !fmap_cons, IH.
      destruct (decide (id ∈ data_id <$> items)) as [Hin|Hnin];
        destruct (decide (id ∈ data_id it :: (data_id <$> items))) as [Hin'|Hnin'];
        try done.
      * destruct Hnin'. by apply list_elem_of_further.
      * apply elem_of_cons in Hin' as [? | ?]; congruence.
Qed.

Lemma elem_of_ids_upsert x id text cls items :
  x ∈ data_id <$> upsert id text cls items ↔ x = id ∨ x ∈ data_id <$> items.
Proof.
  rewrite ids_upsert. case_decide as Hin.
  - split; [by right | by intros [-> | ?]].
  - rewrite elem_of_app, list_elem_of_singleton. tauto.
Qed.

Lemma NoDup_ids_upsert id text cls items :
  NoDup (data_id <$> items) → NoDup (data_id <$> upsert id text cls items).
Proof.
  intros Hnd. rewrite ids_upsert. case_decide as Hin; [done|].
  apply NoDup_app. split_and!; [done | | apply NoDup_singleton].
  intros x Hx ->%list_elem_of_singleton. done.
Qed.

Lemma upsert_entry id text cls items it :
  NoDup (data_id <$> items) →
  it ∈ upsert id text cls items → data_id it = id →
  it = {| data_id := id; item_text := text; item_class := cls |}.
Proof.
  induction items as [|it0 items IH]; simpl; intros Hnd.
  - by intros ->%list_elem_of_singleton.
  - apply NoDup_cons in Hnd as [Hnin Hnd].
    destruct (decide (data_id it0 = id)) as [<-|Hne].
    + intros [-> | Hin]%elem_of_cons Hid; [done|].
      destruct Hnin. rewrite <- Hid. by apply list_elem_of_fmap_2.
    + intros [-> | Hin]%elem_of_cons Hid; [done | by apply IH].
Qed.

Lemma elem_of_ids_remove x id items :
  NoDup (data_id <$> items) →
  x ∈ data_id <$> remove_item id items ↔ x ∈ data_id <$> items ∧ x ≠ id.
Proof.
  induction items as [|it items IH]; simpl; intros Hnd.
  - rewrite elem_of_nil. tauto.
  - apply NoDup_cons in Hnd as [Hnin Hnd].
    destruct (decide (data_id it = id)) as [<-|Hne]; simpl.
    + rewrite elem_of_cons. split.
      * intros Hx. split; [by right | by intros ->].
      * intros [[-> | ?] ?]; done.
    + rewrite !elem_of_cons, (IH Hnd). split.
      * intros [-> | [? ?]]; split; auto.
      * intros [[-> | ?] ?]; auto.
Qed.

Lemma NoDup_ids_remove id items :
  NoDup (data_id <$> items) → NoDup (data_id <$> remove_item id items).
Proof.
  induction items as [|it items IH]; simpl; intros Hnd; [done|].
  apply NoDup_cons in Hnd as [Hnin Hnd].
  destruct (decide (data_id it = id)) as [<-|Hne]; simpl; [done|].
  apply NoDup_cons. split; [|by apply IH].
  rewrite (elem_of_ids_remove _ _ _ Hnd). tauto.
Qed.

End participants.

(** ** The presenter page: ending a session *)

Section admin_page.
Import AdminPage.

Lemma delete_all_keys (m : gmap string PC) : foldr delete m (elements (dom m)) = ∅.
Proof.
  apply map_eq. intros i. rewrite lookup_empty.
  destruct (decide (i ∈ elements (dom m))) as [Hin|Hnin].
  - by apply lookup_foldr_delete.
  - rewrite lookup_foldr_delete_not_elem_of by done.
    apply not_elem_of_dom. by rewrite <- elem_of_elements.
Qed.

Lemma peer_own p id pc : peerConnections p !! id = Some pc → peer p id = Own pc.
Proof. unfold peer. by intros ->. Qed.

Lemma peer_not_own p id :
  peerConnections p !! id = None →
  peer p id = if bool_decide (id ∈ Object_prototype) then Inherited else Missing.
Proof. unfold peer. by intros ->. Qed.

(** Tearing down peers of the table, each once, does not throw. *)
Lemma foldr_teardownPeer l p :
  NoDup l → (∀ k, k ∈ l → is_Some (peerConnections p !! k)) →
  foldr (λ id q, q ≫= teardownPeer id) (Some p) l =
  Some
  {| peerConnections := foldr delete (peerConnections p) l;
     localStream := localStream p; sessionId := sessionId p;
     listenersBound := listenersBound p; sessionActive := sessionActive p;
     ui := {| startBtn_disabled := startBtn_disabled (ui p);
              startBtn_hidden := startBtn_hidden (ui p);
              stopBtn := stopBtn (ui p);
              sessionStatus := sessionStatus (ui p);
              videoStatus := videoStatus (ui p);
              sessionUrlInput := sessionUrlInput (ui p);
              shareCard_hidden := shareCard_hidden (ui p);
              participantList :=
                (λ items, foldr remove_item items l) <$> participantList (ui p);
              localVideo := localVideo (ui p) |} |}.
Proof.
  induction l as [|k l IH]; simpl; intros Hnd Hown.
  - by destruct p as [? ? ? ? ? [? ? ? ? ? ? ? [?|] ?]].
  - apply NoDup_cons in Hnd as [Hk Hnd].
    rewrite IH by (try done; intros k' Hk'; apply Hown; by right). simpl.
    destruct (Hown k) as [pc Hpc]; [by left|].
    unfold teardownPeer. erewrite peer_own; last first.
    { simpl. rewrite lookup_foldr_delete_not_elem_of by done. exact Hpc. }
    unfold removeParticipant, with_peers, set_participants, with_ui; simpl.
    by destruct (participantList (ui p)).
Qed.

Lemma teardownAll_is_Some p : is_Some (teardownAll p).
Proof.
  unfold teardownAll. rewrite foldr_teardownPeer; [by eexists | apply NoDup_elements |].
  intros k Hk. apply elem_of_dom. by apply elem_of_elements.
Qed.

Lemma endSession_eq p :
  endSession p =
  {| peerConnections := ∅; localStream := None; sessionId := None;
     listenersBound := listenersBound p; sessionActive := false;
     ui := {| startBtn_disabled := false;
              startBtn_hidden := match stopBtn (ui p) with
                                 | Some _ => false
                                 | None => startBtn_hidden (ui p)
                                 end;
              stopBtn := (λ _, true) <$> stopBtn (ui p);
              sessionStatus := sessionStatus (ui p);
              videoStatus := videoStatus (ui p);
              sessionUrlInput := sessionUrlInput (ui p);
              shareCard_hidden := shareCard_hidden (ui p);
              participantList :=
                (λ items, foldr remove_item items (elements (dom (peerConnections p))))
                  <$> participantList (ui p);
              localVideo := localVideo (ui p) |} |}.
Proof.
  unfold endSession, teardownAll.
  rewrite foldr_teardownPeer;
    [ | apply NoDup_elements
      | intros k Hk; apply elem_of_dom; by apply elem_of_elements ].
  simpl. rewrite delete_all_keys.
  unfold toggleControls, set_startBtn_disabled, with_ui; simpl.
  by destruct (stopBtn (ui p)).
Qed.

Lemma handleSessionEnded_eq message st p :
  handleSessionEnded message st p =
  {| peerConnections := ∅; localStream := None; sessionId := None;
     listenersBound := listenersBound p; sessionActive := false;
     ui := {| startBtn_disabled := false;
              startBtn_hidden := match stopBtn (ui p) with
                                 | Some _ => false
                                 | None => startBtn_hidden (ui p)
                                 end;
              stopBtn := (λ _, true) <$> stopBtn (ui p);
              sessionStatus := setStatus (sessionStatus (ui p)) message st;
              videoStatus := setStatus (videoStatus (ui p)) "Camera inactive." "idle";
              sessionUrlInput := "";
              shareCard_hidden := true;
              participantList := (λ _, []) <$> participantList (ui p);
              localVideo := localVideo (ui p) |} |}.
Proof.
  unfold handleSessionEnded. rewrite endSession_eq.
  unfold resetUIState, set_sessionStatus, set_videoStatus, set_participants, with_ui;
    simpl.
  by destruct (participantList (ui p)).
Qed.

Lemma NoDup_ids_foldr_remove l items :
  NoDup (data_id <$> items) → NoDup (data_id <$> foldr remove_item items l).
Proof.
  intros Hnd. induction l as [|k l IH]; simpl; [done|]. by apply NoDup_ids_remove.
Qed.

Lemma consistent_endSession p : consistent p → consistent (endSession p).
Proof.
  intros [Hc Ha Hk Hl]. rewrite endSession_eq. split; simpl.
  - intros h. destruct (stopBtn (ui p)); simpl; [|done]. by intros [= <-].
  - done.
  - intros items. destruct (participantList (ui p)) as [items0|]; simpl; [|done].
    intros [= <-]. apply NoDup_ids_foldr_remove. by apply Hk.
  - intros items id _ [? Hid]. by rewrite lookup_empty in Hid.
Qed.

Lemma consistent_handleSessionEnded message st p : consistent (handleSessionEnded message st p).
Proof.
  rewrite handleSessionEnded_eq. split; simpl.
  - intros h. destruct (stopBtn (ui p)); simpl; [|done]. by intros [= <-].
  - done.
  - intros items. destruct (participantList (ui p)); simpl; [|done].
    intros [= <-]. apply NoDup_nil_2.
  - intros items id _ [? Hid]. by rewrite lookup_empty in Hid.
Qed.

Lemma consistent_load u : consistent (load u).
Proof.
  unfold load, toggleControls, resetUIState, set_sessionStatus, set_videoStatus,
    set_participants, with_ui; simpl.
  destruct u as [dis hid [stop|] ss vs url share [items|] lv]; simpl;
    (split; simpl;
     [ intros h; try done; by intros [= <-]
     | done
     | intros its; try done; intros [= <-]; apply NoDup_nil_2
     | intros its id _ [? Hid]; by rewrite lookup_empty in Hid ]).
Qed.

(** A status line or an enabled button does not bear on consistency. *)
Lemma consistent_set_sessionStatus text st p :
  consistent p → consistent (set_sessionStatus text st p).
Proof. by intros [Hc Ha Hk Hl]. Qed.

Lemma consistent_handleStartSession fetched media ack p :
  consistent p → startBtn_disabled (ui p) = false →
  consistent (handleStartSession fetched media ack p).1.
Proof.
  intros [Hc Ha Hk Hl] Hdis.
  assert (sessionActive p = false) as Hact.
  { destruct (sessionActive p); [|done]. destruct Ha as (_ & _ & _ & ?); congruence. }
  destruct p as [pcs ls sid lb act [dis hid stop ss vs url share items lv]];
    simpl in *; subst act dis.
  unfold handleStartSession; simpl.
  destruct (truthy sid); simpl; [by split|].
  destruct fetched as [|uid link]; simpl; [by split|].
  destruct media as [stream|]; simpl; [|by split].
  destruct ack as [r|m]; unfold toggleControls; simpl; destruct stop; simpl;
    (split; simpl;
     [ intros h; try apply Hc; by intros [= <-]
     | first [done | intros _; eauto]
     | done
     | done ]).
Qed.

Lemma consistent_handleStopSession ack p :
  consistent p → consistent (handleStopSession ack p).1.
Proof.
  intros Hp. unfold handleStopSession.
  destruct (negb (sessionActive p) || negb (truthy (sessionId p))); [done|].
  destruct ack as [r|m]; cbn [fst].
  - apply consistent_handleSessionEnded.
  - by do 2 apply consistent_set_sessionStatus.
Qed.

Lemma consistent_on_session_ended p : consistent p → consistent (on_session_ended p).
Proof.
  intros Hp. unfold on_session_ended.
  destruct (negb (sessionActive p) && negb (truthy (sessionId p))); [done|].
  apply consistent_handleSessionEnded.
Qed.

Lemma consistent_upsertParticipant id text st p :
  consistent p → consistent (upsertParticipant id text st p).
Proof.
  intros Hp. unfold upsertParticipant.
  destruct (participantList (ui p)) as [items|] eqn:Hitems; [|done].
  destruct Hp as [Hc Ha Hk Hl]. split; simpl; [done | done | |].
  - intros ? [= <-]. apply NoDup_ids_upsert. by apply Hk.
  - intros ? id' [= <-] Hid. apply elem_of_ids_upsert. right. by apply Hl.
Qed.

Lemma upsertParticipant_listed id text st p items :
  participantList (ui (upsertParticipant id text st p)) = Some items →
  id ∈ data_id <$> items.
Proof.
  unfold upsertParticipant.
  destruct (participantList (ui p)) as [items0|] eqn:Hitems; simpl.
  - intros [= <-]. apply elem_of_ids_upsert. by left.
  - by rewrite Hitems.
Qed.

Lemma consistent_add_peer id pc p :
  consistent p →
  (∀ items, participantList (ui p) = Some items → id ∈ data_id <$> items) →
  consistent (with_peers p (<[id := pc]> (peerConnections p))).
Proof.
  intros [Hc Ha Hk Hl] Hid. split; simpl; [done | done | done |].
  intros items id' Hitems [pc' Hpc]. destruct (decide (id' = id)) as [->|Hne].
  - by apply Hid.
  - rewrite lookup_insert_ne in Hpc by done. apply Hl; eauto.
Qed.

Lemma consistent_teardownPeer id p p' :
  consistent p → teardownPeer id p = Some p' → consistent p'.
Proof.
  intros [Hc Ha Hk Hl]. unfold teardownPeer, peer, removeParticipant.
  destruct (peerConnections p !! id) as [pc|] eqn:Hpc;
    [|case_bool_decide; [done|]]; intros [= <-]; simpl;
    destruct (participantList (ui p)) as [items|] eqn:Hitems; simpl.
  - split; simpl; [exact Hc | exact Ha | |].
    + intros ? [= <-]. apply NoDup_ids_remove. by apply Hk.
    + intros ? id' [= <-] [Hne Hid]%lookup_delete_is_Some.
      apply elem_of_ids_remove; [by apply Hk|]. split; [by apply Hl | done].
  - split; simpl; [exact Hc | exact Ha | |]; intros items; by rewrite Hitems.
  - split; simpl; [exact Hc | exact Ha | |].
    + intros ? [= <-]. apply NoDup_ids_remove. by apply Hk.
    + intros ? id' [= <-] Hid.
      apply elem_of_ids_remove; [by apply Hk|]. split; [by apply Hl|].
      intros ->. rewrite Hpc in Hid. by destruct Hid.
  - split; simpl; [exact Hc | exact Ha | |]; intros items; by rewrite Hitems.
Qed.

Lemma createPeerForStudent_page id outcome p :
  ∃ pc, (createPeerForStudent id outcome p).1.1
        = with_peers p (<[id := pc]> (peerConnections p)).
Proof.
  unfold createPeerForStudent.
  destruct (localStream p); [destruct outcome as [|d a]|]; simpl; eauto.
Qed.

Lemma consistent_on_student_connected id outcome p :
  consistent p → consistent (on_student_connected id outcome p).1.
Proof.
  intros Hp. unfold on_student_connected.
  set (p1 := set_sessionStatus _ _ _).
  assert (consistent p1) as Hp1
    by (by apply consistent_set_sessionStatus, consistent_upsertParticipant).
  assert (∀ items, participantList (ui p1) = Some items → id ∈ data_id <$> items)
    as Hlisted by (intros items; apply upsertParticipant_listed).
  destruct (createPeerForStudent_page id outcome p1) as [pc Hpage].
  destruct (createPeerForStudent id outcome p1) as [[p2 sent] fulfilled].
  simpl in Hpage. subst p2.
  pose proof (consistent_add_peer id pc p1 Hp1 Hlisted) as Hp2.
  destruct fulfilled; simpl; [done|].
  set (p3 := upsertParticipant _ _ _ _).
  assert (consistent p3) as Hp3 by (by apply consistent_upsertParticipant).
  destruct (teardownPeer id p3) as [p4|] eqn:Htear; simpl; [|done].
  by eapply consistent_teardownPeer.
Qed.

Lemma consistent_on_student_disconnected id p :
  consistent p → consistent (on_student_disconnected id p).
Proof.
  intros Hp. unfold on_student_disconnected.
  destruct (teardownPeer id p) as [p1|] eqn:Htear; [|done].
  apply consistent_upsertParticipant. by eapply consistent_teardownPeer.
Qed.

Lemma consistent_on_answer msg accepted p : consistent p → consistent (on_answer msg accepted p).
Proof.
  intros Hp. unfold on_answer, peer.
  set (from := default "undefined" (msg !! "from")).
  destruct (peerConnections p !! from) as [pc|] eqn:Hpc;
    [|case_bool_decide; [by apply consistent_upsertParticipant | done]].
  destruct accepted; [|by apply consistent_upsertParticipant].
  apply consistent_set_sessionStatus, consistent_upsertParticipant.
  apply consistent_add_peer; [done|].
  intros items Hitems. apply (c_listed p Hp); eauto.
Qed.

Lemma consistent_on_ice_candidate msg added p :
  consistent p → consistent (on_ice_candidate msg added p).
Proof.
  intros Hp. unfold on_ice_candidate, peer.
  set (from := default "undefined" (msg !! "from")).
  destruct (peerConnections p !! from) as [pc|] eqn:Hpc;
    [|by case_bool_decide].
  destruct (truthy (msg !! "candidate") && added); [|done].
  apply consistent_add_peer; [done|].
  intros items Hitems. apply (c_listed p Hp); eauto.
Qed.

Lemma consistent_handle p ev p' sent :
  consistent p → AdminPage.handle p ev = Some (p', sent) → consistent p'.
Proof.
  intros Hp. destruct ev; simpl.
  - destruct (startBtn_disabled (ui p)) eqn:Hdis; [done|]. intros [= Hh].
    pose proof (consistent_handleStartSession fetched media ack p Hp Hdis) as H.
    by rewrite Hh in H.
  - destruct (stopBtn (ui p)); [|done]. intros [= Hh].
    pose proof (consistent_handleStopSession ack p Hp) as H. by rewrite Hh in H.
  - intros [= <- <-]. by apply consistent_endSession.
  - destruct (listenersBound p && _); [|done]. intros [= Hh].
    pose proof (consistent_on_student_connected studentSocketId outcome p Hp) as H.
    by rewrite Hh in H.
  - destruct (listenersBound p); [|done]. intros [= <- <-].
    by apply consistent_on_student_disconnected.
  - destruct (listenersBound p); [|done]. intros [= <- <-].
    by apply consistent_on_answer.
  - destruct (listenersBound p); [|done]. intros [= <- <-].
    by apply consistent_on_ice_candidate.
  - destruct (listenersBound p); [|done]. intros [= <- <-].
    by apply consistent_on_session_ended.
  - destruct (peerConnections p !! studentId); [|done]. by intros [= <- <-].
Qed.

Lemma reachable_consistent u p : AdminPage.reachable u p → consistent p.
Proof.
  induction 1; [apply consistent_load | by eapply consistent_handle].
Qed.

End admin_page.

(** ** The presenter page: what the script keeps true *)

(** X22. The buttons follow the session. In every state the presenter page can
    reach, whatever the document served: when the stop button exists it is
    hidden exactly when no session is active and the start button is hidden
    exactly when one is; and an active session has a session id, a local
    stream, bound socket listeners and a disabled start button. *)
Theorem controls_follow_the_session u p :
  AdminPage.reachable u p →
  (∀ h, AdminPage.stopBtn (AdminPage.ui p) = Some h →
     h = negb (AdminPage.sessionActive p) ∧
     AdminPage.startBtn_hidden (AdminPage.ui p) = AdminPage.sessionActive p) ∧
  (AdminPage.sessionActive p = true →
     is_Some (AdminPage.sessionId p) ∧ is_Some (AdminPage.localStream p) ∧
     AdminPage.listenersBound p = true ∧
     AdminPage.startBtn_disabled (AdminPage.ui p) = true).
Proof.
  intros Hp%reachable_consistent. split.
  - apply (AdminPage.c_controls p Hp).
  - apply (AdminPage.c_active p Hp).
Qed.

(** X23. The participant list is keyed by socket id. In every state the
    presenter page can reach, no two items of the list carry the same
    [data-id], and every student that has a peer connection in the table has
    an item in the list. *)
Theorem participant_list_is_keyed u p items :
  AdminPage.reachable u p →
  AdminPage.participantList (AdminPage.ui p) = Some items →
  NoDup (AdminPage.data_id <$> items) ∧
  ∀ id, is_Some (AdminPage.peerConnections p !! id) → id ∈ AdminPage.data_id <$> items.
Proof.
  intros Hp%reachable_consistent Hitems. split.
  - by apply (AdminPage.c_keyed p Hp).
  - intros id. by apply (AdminPage.c_listed p Hp).
Qed.

Lemma admin_run_reachable u p evs p' :
  AdminPage.reachable u p → AdminPage.run p evs = Some p' → AdminPage.reachable u p'.
Proof.
  revert p. induction evs as [|ev evs IH]; simpl; intros p Hp.
  - by intros [= <-].
  - destruct (AdminPage.handle p ev) as [[p1 sent]|] eqn:Hh; [|done].
    apply IH. by eapply AdminPage.reachable_step.
Qed.

Lemma presenting_reachable : AdminPage.reachable admin_doc presenting.
Proof.
  apply (admin_run_reachable admin_doc (AdminPage.load admin_doc) presenting_events);
    [constructor | vm_compute; reflexivity].
Qed.

Lemma controls_follow_the_session_witness :
  (∀ h, AdminPage.stopBtn (AdminPage.ui presenting) = Some h →
     h = negb (AdminPage.sessionActive presenting) ∧
     AdminPage.startBtn_hidden (AdminPage.ui presenting)
       = AdminPage.sessionActive presenting) ∧
  (AdminPage.sessionActive presenting = true →
     is_Some (AdminPage.sessionId presenting) ∧
     is_Some (AdminPage.localStream presenting) ∧
     AdminPage.listenersBound presenting = true ∧
     AdminPage.startBtn_disabled (AdminPage.ui presenting) = true).
Proof.
  apply (controls_follow_the_session admin_doc presenting). apply presenting_reachable.
Defined.

Lemma participant_list_is_keyed_witness :
  let items := [ {| AdminPage.data_id := "V"; AdminPage.item_text := "Student connected";
                    AdminPage.item_class := "participant participant-active" |} ] in
  NoDup (AdminPage.data_id <$> items) ∧
  ∀ id, is_Some (AdminPage.peerConnections presenting !! id) →
        id ∈ AdminPage.data_id <$> items.
Proof.
  apply (participant_list_is_keyed admin_doc presenting).
  - apply presenting_reachable.
  - vm_compute; reflexivity.
Defined.

(** ** The presenter page: starting and stopping *)

(** X24. A failed camera request blocks the start button for good. When the
    session has been created but [getUserMedia] rejects, nothing is sent to
    the server and the page keeps the new session id without becoming
    active; from then on every click on Start only reports 'Session already
    active.', and Stop does nothing. *)
Theorem media_failure_blocks_restart p uid url ack p' sent :
  truthy (AdminPage.sessionId p) = false →
  AdminPage.sessionActive p = false →
  uid ≠ "" →
  AdminPage.handle p (AdminPage.ClickStart (AdminPage.Created uid url) None ack)
    = Some (p', sent) →
  sent = [] ∧
  AdminPage.sessionId p' = Some uid ∧
  AdminPage.sessionActive p' = false ∧
  (∀ fetched media ack',
     AdminPage.handle p' (AdminPage.ClickStart fetched media ack')
       = Some (AdminPage.set_sessionStatus "Session already active." "warning" p', [])) ∧
  (∀ ack', AdminPage.handleStopSession ack' p' = (p', [])).
Proof.
  intros Hsid Hact Hne. simpl.
  destruct (AdminPage.startBtn_disabled (AdminPage.ui p)) eqn:Hdis; [done|].
  unfold AdminPage.handleStartSession. rewrite Hsid.
  intros [= <- <-]. simpl. split_and!; [done | done | done | |].
  - intros fetched media ack'. unfold AdminPage.handleStartSession; simpl.
    by rewrite (bool_decide_true (uid ≠ "")).
  - intros ack'. unfold AdminPage.handleStopSession; simpl. by rewrite Hact.
Qed.

Lemma media_failure_blocks_restart_witness :
  let p := AdminPage.load admin_doc in
  let ev := AdminPage.ClickStart (AdminPage.Created "S" "http://example.org/session/S")
              None acked in
  let p' := (default (p, []) (AdminPage.handle p ev)).1 in
  (default (p, []) (AdminPage.handle p ev)).2 = [] ∧
  AdminPage.sessionId p' = Some "S" ∧
  AdminPage.sessionActive p' = false ∧
  (∀ fetched media ack',
     AdminPage.handle p' (AdminPage.ClickStart fetched media ack')
       = Some (AdminPage.set_sessionStatus "Session already active." "warning" p', [])) ∧
  (∀ ack', AdminPage.handleStopSession ack' p' = (p', [])).
Proof.
  intros p ev p'.
  apply (media_failure_blocks_restart p "S" "http://example.org/session/S" acked).
  - reflexivity.
  - reflexivity.
  - discriminate.
  - vm_compute; reflexivity.
Defined.

(** X25. Ending is handled once. Whatever the page was, after
    [handleSessionEnded] it is idle: no peer, no stream, no session id, not
    active, start button enabled, share card hidden and emptied, participant
    list emptied. A further [session-ended] message, a further [endSession]
    (as on unload) and a click on Stop then change nothing. *)
Theorem session_end_is_handled_once message st p :
  let p' := AdminPage.handleSessionEnded message st p in
  AdminPage.peerConnections p' = ∅ ∧
  AdminPage.localStream p' = None ∧
  AdminPage.sessionId p' = None ∧
  AdminPage.sessionActive p' = false ∧
  AdminPage.startBtn_disabled (AdminPage.ui p') = false ∧
  AdminPage.shareCard_hidden (AdminPage.ui p') = true ∧
  AdminPage.sessionUrlInput (AdminPage.ui p') = "" ∧
  AdminPage.participantList (AdminPage.ui p')
    = (λ _, []) <$> AdminPage.participantList (AdminPage.ui p) ∧
  AdminPage.on_session_ended p' = p' ∧
  AdminPage.endSession p' = p' ∧
  ∀ ack, AdminPage.handleStopSession ack p' = (p', []).
Proof.
  intros p'. unfold p'. rewrite handleSessionEnded_eq.
  split_and!; try done.
  rewrite endSession_eq; simpl.
  destruct (AdminPage.stopBtn (AdminPage.ui p)),
    (AdminPage.participantList (AdminPage.ui p)); simpl; try done;
    by rewrite dom_empty_L, elements_empty.
Qed.

(** X26. A refused stop keeps the session. When the server answers the
    [admin-end-session] of an active page with an error (not authorized, or
    the store failed), the page stays as it was — session id, active flag,
    stream and peers — apart from its status line, which shows the server's
    error text; the request it sent names the page's session id. *)
Theorem failed_stop_keeps_the_session st c uok fok st' out e p s :
  AdminPage.sessionActive p = true →
  AdminPage.sessionId p = Some s → s ≠ "" →
  handle st (AdminEndSession c {[ "unique_id" := s ]} uok fok) = Some (st', out) →
  reply out = AckErr e →
  AdminPage.handleStopSession (emitWithAck (response_of (reply out))) p
    = (AdminPage.set_sessionStatus e "error" p,
       [ {| sent_event := "admin-end-session";
            sent_payload := {[ "unique_id" := s ]} |} ]).
Proof.
  intros Hact Hsid Hne Hh Hr.
  pose proof (ack_error_nonempty _ _ _ _ _ Hh Hr) as He.
  rewrite Hr. unfold emitWithAck; simpl. rewrite (bool_decide_true (e ≠ "")) by done.
  unfold AdminPage.handleStopSession. rewrite Hact, Hsid; simpl.
  rewrite !(bool_decide_true (_ ≠ "")) by done. simpl. f_equal.
  destruct p as [pcs ls sid lb act [dis hid stop [ss|] vs url share items lv]]; done.
Qed.

Lemma failed_stop_keeps_the_session_witness :
  let out := output classroom_st
               (AdminEndSession "P" {[ "unique_id" := "S" ]} false true) in
  AdminPage.handleStopSession (emitWithAck (response_of (reply out))) presenting
    = (AdminPage.set_sessionStatus StoreError "error" presenting,
       [ {| sent_event := "admin-end-session";
            sent_payload := {[ "unique_id" := "S" ]} |} ]).
Proof.
  intros out.
  apply (failed_stop_keeps_the_session classroom_st "P" false true classroom_st out
           StoreError presenting "S").
  - vm_compute; reflexivity.
  - vm_compute; reflexivity.
  - discriminate.
  - vm_compute; reflexivity.
  - vm_compute; reflexivity.
Defined.

(** ** The presenter page: students *)

(** X27. A student whose peer connection cannot be set up leaves no trace. When
    [createPeerForStudent] fails for a student id other than [__proto__] —
    no local stream, a rejected offer or local description, or an offer
    that the server answers with an error ([{ ok: false }]) — the handler
    of [student-connected] ends with neither a peer connection nor a list
    item for that student (the 'Connection failed' item is removed again by
    [teardownPeer]); the other students are listed as before. *)
Theorem failed_peer_leaves_no_trace u p id outcome items :
  AdminPage.reachable u p →
  AdminPage.participantList (AdminPage.ui p) = Some items →
  id ≠ "__proto__" →
  AdminPage.localStream p = None ∨ outcome = AdminPage.OfferRejected
    ∨ (∃ d m, outcome = AdminPage.Offered d (Rejected m)) →
  let p' := (AdminPage.on_student_connected id outcome p).1 in
  AdminPage.peerConnections p' = delete id (AdminPage.peerConnections p) ∧
  ∃ items',
    AdminPage.participantList (AdminPage.ui p') = Some items' ∧
    (id ∉ AdminPage.data_id <$> items') ∧
    ∀ x, x ≠ id →
      x ∈ AdminPage.data_id <$> items' ↔ x ∈ AdminPage.data_id <$> items.
Proof.
  intros Hp%reachable_consistent Hitems _ Hfail p'.
  pose proof (AdminPage.c_keyed p Hp _ Hitems) as Hnd.
  set (cls1 := "participant participant-" +:+ "active").
  set (cls2 := "participant participant-" +:+ "error").
  set (items2 := AdminPage.upsert id "Connection failed" cls2
                   (AdminPage.upsert id "Student connected" cls1 items)).
  assert (NoDup (AdminPage.data_id <$> items2)) as Hnd2
    by (by do 2 apply NoDup_ids_upsert).
  assert (AdminPage.peerConnections p' = delete id (AdminPage.peerConnections p)
          ∧ AdminPage.participantList (AdminPage.ui p')
            = Some (AdminPage.remove_item id items2)) as [Hpcs Hlist].
  { unfold p', AdminPage.on_student_connected, AdminPage.createPeerForStudent,
      AdminPage.upsertParticipant, AdminPage.teardownPeer, AdminPage.peer,
      AdminPage.removeParticipant; simpl. rewrite Hitems; simpl.
    destruct Hfail as [Hls | [-> | (d & m & ->)]].
    - rewrite Hls; simpl. rewrite lookup_insert_eq; simpl.
      by rewrite delete_insert_eq.
    - destruct (AdminPage.localStream p); simpl; rewrite lookup_insert_eq; simpl;
        by rewrite delete_insert_eq.
    - destruct (AdminPage.localStream p); simpl; rewrite lookup_insert_eq; simpl;
        by rewrite delete_insert_eq. }
  split; [done|]. exists (AdminPage.remove_item id items2). split_and!; [done | |].
  - rewrite (elem_of_ids_remove _ _ _ Hnd2). tauto.
  - intros x Hx. rewrite (elem_of_ids_remove _ _ _ Hnd2).
    unfold items2. rewrite !elem_of_ids_upsert. tauto.
Qed.

Lemma failed_peer_leaves_no_trace_witness :
  let items := [ {| AdminPage.data_id := "V"; AdminPage.item_text := "Student connected";
                    AdminPage.item_class := "participant participant-active" |} ] in
  let p' := (AdminPage.on_student_connected "X" AdminPage.OfferRejected presenting).1 in
  AdminPage.peerConnections p' = delete "X" (AdminPage.peerConnections presenting) ∧
  ∃ items',
    AdminPage.participantList (AdminPage.ui p') = Some items' ∧
    ("X" ∉ AdminPage.data_id <$> items') ∧
    ∀ x, x ≠ "X" →
      x ∈ AdminPage.data_id <$> items' ↔ x ∈ AdminPage.data_id <$> items.
Proof.
  intros items.
  apply (failed_peer_leaves_no_trace admin_doc presenting "X" AdminPage.OfferRejected).
  - apply presenting_reachable.
  - vm_compute; reflexivity.
  - discriminate.
  - right. by left.
Defined.

(** X28. A student who disconnects stays in the list, marked 'Disconnected'.
    Unless the id of the student names a property that the table of peer
    connections only inherits, the handler of [student-disconnected] drops
    the peer connection of that student and leaves exactly one item for it,
    with the text 'Disconnected' and the warning class; the other students
    are listed as before. For an id that names an inherited property the
    handler throws in [teardownPeer] and the page stays as it was: no item
    is written. *)
Theorem disconnected_student_stays_listed u p id items :
  AdminPage.reachable u p →
  AdminPage.participantList (AdminPage.ui p) = Some items →
  let p' := AdminPage.on_student_disconnected id p in
  (AdminPage.peer p id = AdminPage.Inherited → p' = p) ∧
  (AdminPage.peer p id ≠ AdminPage.Inherited →
   AdminPage.peerConnections p' = delete id (AdminPage.peerConnections p) ∧
   ∃ items',
     AdminPage.participantList (AdminPage.ui p') = Some items' ∧
     NoDup (AdminPage.data_id <$> items') ∧
     id ∈ AdminPage.data_id <$> items' ∧
     (∀ it, it ∈ items' → AdminPage.data_id it = id →
        it = {| AdminPage.data_id := id; AdminPage.item_text := "Disconnected";
                AdminPage.item_class := "participant participant-warning" |}) ∧
     ∀ x, x ≠ id →
       x ∈ AdminPage.data_id <$> items' ↔ x ∈ AdminPage.data_id <$> items).
Proof.
  intros Hp%reachable_consistent Hitems p'. split.
  { intros Hin. unfold p', AdminPage.on_student_disconnected, AdminPage.teardownPeer.
    by rewrite Hin. }
  intros Hfound.
  pose proof (AdminPage.c_keyed p Hp _ Hitems) as Hnd.
  pose proof (NoDup_ids_remove id items Hnd) as Hnd1.
  set (cls := "participant participant-" +:+ "warning").
  assert (AdminPage.peerConnections p' = delete id (AdminPage.peerConnections p)
          ∧ AdminPage.participantList (AdminPage.ui p')
            = Some (AdminPage.upsert id "Disconnected" cls
                      (AdminPage.remove_item id items))) as [Hpcs Hlist].
  { unfold p', AdminPage.on_student_disconnected, AdminPage.upsertParticipant,
      AdminPage.teardownPeer, AdminPage.removeParticipant.
    destruct (AdminPage.peer p id) as [pc| |] eqn:Hpeer; [|done|]; simpl;
      rewrite Hitems; simpl; [done|].
    split; [|done]. symmetry. apply delete_id.
    unfold AdminPage.peer in Hpeer.
    by destruct (AdminPage.peerConnections p !! id). }
  split; [done|]. eexists. split_and!; [exact Hlist | | | |].
  - by apply NoDup_ids_upsert.
  - apply elem_of_ids_upsert. by left.
  - intros it Hit Hid. by apply (upsert_entry id "Disconnected" cls _ it Hnd1).
  - intros x Hx. rewrite elem_of_ids_upsert, (elem_of_ids_remove _ _ _ Hnd). tauto.
Qed.

Lemma disconnected_student_stays_listed_witness :
  let items := [ {| AdminPage.data_id := "V"; AdminPage.item_text := "Student connected";
                    AdminPage.item_class := "participant participant-active" |} ] in
  let p' := AdminPage.on_student_disconnected "V" presenting in
  AdminPage.peerConnections p' = delete "V" (AdminPage.peerConnections presenting) ∧
  ∃ items',
    AdminPage.participantList (AdminPage.ui p') = Some items' ∧
    NoDup (AdminPage.data_id <$> items') ∧
    "V" ∈ AdminPage.data_id <$> items' ∧
    (∀ it, it ∈ items' → AdminPage.data_id it = "V" →
       it = {| AdminPage.data_id := "V"; AdminPage.item_text := "Disconnected";
               AdminPage.item_class := "participant participant-warning" |}) ∧
    ∀ x, x ≠ "V" →
      x ∈ AdminPage.data_id <$> items' ↔ x ∈ AdminPage.data_id <$> items.
Proof.
  intros items.
  apply (disconnected_student_stays_listed admin_doc presenting "V").
  - apply presenting_reachable.
  - vm_compute; reflexivity.
  - vm_compute; discriminate.
Defined.

(** For instance, a [student-disconnected] that names [propertyIsEnumerable]
    leaves the presenting page as it was. *)
Example disconnect_of_an_inherited_name :
  AdminPage.on_student_disconnected "propertyIsEnumerable" presenting = presenting.
Proof. vm_compute; reflexivity. Qed.

(** ** Pages and server together *)

(** X29. The start button, end to end. With the store, the camera and the
    channel working, a click on Start of a page without session creates the
    session on the server, shows its share URL, sends [admin-join] with the
    new id, and ends with the page active on that id while the server has
    bound the connection as presenter of the active session. *)
Theorem start_button_end_to_end st c sock proto host uuid stream p st1 out1 :
  handle st (PostSession proto host uuid true) = Some (st1, out1) →
  sockets st !! c = Some sock →
  truthy (AdminPage.sessionId p) = false →
  ∃ st2 out2 p',
    handle st1 (AdminJoin c {[ "unique_id" := uuid ]} true) = Some (st2, out2) ∧
    AdminPage.handleStartSession (AdminPage.fetch_of (reply out1)) (Some stream)
        (emitWithAck (response_of (reply out2))) p
      = (p', [ {| sent_event := "admin-join";
                  sent_payload := {[ "unique_id" := uuid ]} |} ]) ∧
    sockets st2 !! c = Some {| role := Some admin; unique_id := Some uuid |} ∧
    live st2 uuid ∧
    AdminPage.sessionActive p' = true ∧
    AdminPage.sessionId p' = Some uuid ∧
    AdminPage.localStream p' = Some stream ∧
    AdminPage.listenersBound p' = true ∧
    AdminPage.sessionUrlInput (AdminPage.ui p')
      = proto +:+ "://" +:+ host +:+ "/session/" +:+ uuid ∧
    AdminPage.shareCard_hidden (AdminPage.ui p') = false.
Proof.
  intros (Hne & Hd & -> & ->)%post_session_ok Hc Hsid.
  set (st1 := with_db st _).
  assert (live st1 uuid) as Hlive.
  { eexists. simpl. unfold Session.save. simpl. by rewrite lookup_insert_eq. }
  assert (is_Some (db st1 !! uuid)) as Hstored by (destruct Hlive as (d & ? & _); eauto).
  pose proof (admin_join_ok st1 c sock uuid Hc Hne Hstored) as Hjoin.
  exists (bind st1 c admin uuid), (silent (AckOk (Some c))). eexists.
  split; [exact Hjoin|]. split.
  - unfold AdminPage.handleStartSession. rewrite Hsid. simpl. reflexivity.
  - split_and!; try done; try exact Hlive;
      try (simpl; by rewrite lookup_insert_eq);
      unfold AdminPage.toggleControls; simpl; by case_match.
Qed.

Lemma start_button_end_to_end_witness :
  let st := after init (Connection "P") in
  let st1 := after st (PostSession "https" "example.org" "S" true) in
  let out1 := output st (PostSession "https" "example.org" "S" true) in
  let p := AdminPage.load admin_doc in
  ∃ st2 out2 p',
    handle st1 (AdminJoin "P" {[ "unique_id" := "S" ]} true) = Some (st2, out2) ∧
    AdminPage.handleStartSession (AdminPage.fetch_of (reply out1))
        (Some ["video"; "audio"]) (emitWithAck (response_of (reply out2))) p
      = (p', [ {| sent_event := "admin-join";
                  sent_payload := {[ "unique_id" := "S" ]} |} ]) ∧
    sockets st2 !! "P" = Some {| role := Some admin; unique_id := Some "S" |} ∧
    live st2 "S" ∧
    AdminPage.sessionActive p' = true ∧
    AdminPage.sessionId p' = Some "S" ∧
    AdminPage.localStream p' = Some ["video"; "audio"] ∧
    AdminPage.listenersBound p' = true ∧
    AdminPage.sessionUrlInput (AdminPage.ui p') = "https://example.org/session/S" ∧
    AdminPage.shareCard_hidden (AdminPage.ui p') = false.
Proof.
  intros st st1 out1 p.
  apply (start_button_end_to_end st "P" {| role := None; unique_id := None |}
           "https" "example.org" "S" ["video"; "audio"] p st1 out1).
  - vm_compute; reflexivity.
  - vm_compute; reflexivity.
  - reflexivity.
Defined.

(** X30. An announced student gets the offer. When a viewer [v] joins an active
    session whose room holds the presenter connection [a], the server
    announces [v] to [a]; the presenter page, having a local stream, answers
    the announcement by sending an offer addressed to [v] (whether or not it
    is acknowledged later); and the server delivers that offer, stamped with
    [from = a], to [v] alone. *)
Theorem announced_student_gets_the_offer
    st a asock v vsock s p stream description ack :
  reachable st →
  sockets st !! a = Some asock → a ∈ members st s → a ≠ v →
  sockets st !! v = Some vsock →
  live st s → s ≠ "" →
  AdminPage.localStream p = Some stream →
  let offered := {[ "to" := v; "sdp" := description ]} : Payload in
  ∃ st' announcement,
    handle st (StudentJoin v (session_payload s) true)
      = Some (st', {| emitted := [announcement]; reply := AckOk (Some v) |}) ∧
    event announcement = "student-connected" ∧
    message announcement = Some {[ "studentSocketId" := v ]} ∧
    a ∈ dest announcement ∧
    (AdminPage.on_student_connected v (AdminPage.Offered description ack) p).2
      = [ {| sent_event := "offer"; sent_payload := offered |} ] ∧
    handle st' (Offer a offered)
      = Some (st', {| emitted := [ {| event := "offer";
                                      message := Some (<["from" := a]> offered);
                                      dest := {[v]} |} ];
                      reply := AckOk None |}).
Proof.
  intros Hreach Ha Hmem Hav Hv (d & Hd & Hact) Hs Hstream offered.
  set (st' := bind st v student s).
  assert (handle st (StudentJoin v (session_payload s) true)
            = Some (st', {| emitted := [ {| event := "student-connected";
                                            message := Some {[ "studentSocketId" := v ]};
                                            dest := socket_to st' v s |} ];
                            reply := AckOk (Some v) |})) as Hjoin.
  { simpl. rewrite Hv; simpl. unfold student_join, session_payload, Session.findOneActive.
    rewrite lookup_singleton_eq, (proj2 (truthy_Some s) Hs); simpl.
    by rewrite Hd, Hact. }
  assert (reachable st') as Hreach' by (by eapply reachable_step).
  pose proof (reachable_wf _ Hreach') as Hwf'.
  assert (sockets st' !! v = Some {| role := Some student; unique_id := Some s |})
    as Hv' by (simpl; by rewrite lookup_insert_eq).
  assert (sockets st' !! a = Some asock) as Ha'
    by (simpl; by rewrite lookup_insert_ne).
  assert (v ≠ "") as Hvne by (apply (wf_id st' Hwf'); eauto).
  do 2 eexists. split_and!; [exact Hjoin | done | done | | |].
  - simpl. unfold socket_to, members; simpl.
    rewrite room_join, decide_True by done.
    apply elem_of_difference. split; [by apply elem_of_union_r|].
    by rewrite elem_of_singleton.
  - unfold AdminPage.on_student_connected, AdminPage.createPeerForStudent; simpl.
    unfold AdminPage.upsertParticipant.
    destruct (AdminPage.participantList (AdminPage.ui p)); simpl;
      rewrite Hstream; by destruct ack.
  - unfold handle. rewrite Ha'; simpl. unfold offer, forward, io_to, offered.
    rewrite lookup_insert_eq, (proj2 (truthy_Some v) Hvne). simpl.
    by rewrite (members_of_connection st' v _ Hreach' Hv').
Qed.

Lemma announced_student_gets_the_offer_witness :
  let st := after classroom_st (Connection "W") in
  let offered := {[ "to" := "W"; "sdp" := "v=0 offer" ]} : Payload in
  ∃ st' announcement,
    handle st (StudentJoin "W" (session_payload "S") true)
      = Some (st', {| emitted := [announcement]; reply := AckOk (Some "W") |}) ∧
    event announcement = "student-connected" ∧
    message announcement = Some {[ "studentSocketId" := "W" ]} ∧
    "P" ∈ dest announcement ∧
    (AdminPage.on_student_connected "W" (AdminPage.Offered "v=0 offer" acked)
       presenting).2
      = [ {| sent_event := "offer"; sent_payload := offered |} ] ∧
    handle st' (Offer "P" offered)
      = Some (st', {| emitted := [ {| event := "offer";
                                      message := Some (<["from" := "P"]> offered);
                                      dest := {["W"]} |} ];
                      reply := AckOk None |}).
Proof.
  intros st.
  apply (announced_student_gets_the_offer st "P"
           {| role := Some admin; unique_id := Some "S" |} "W"
           {| role := None; unique_id := None |} "S" presenting
           ["video"; "audio"] "v=0 offer" acked).
  - apply (run_reachable init (classroom ++ [Connection "W"]));
      [constructor | vm_compute; reflexivity].
  - vm_compute; reflexivity.
  - vm_compute; reflexivity.
  - discriminate.
  - vm_compute; reflexivity.
  - eexists. split; vm_compute; reflexivity.
  - discriminate.
  - vm_compute; reflexivity.
Defined.
